(** * The draw/state core of app.js

    A shallow embedding of [utils], [state], [rng], [storage] and the draw and
    import handlers of [ui], with the properties of the design specification
    stated and settled against it; then the other listeners of [ui] and the
    pixel loop of its image filter, with what the code keeps through them. *)

From Stdlib Require Import ZArith Lia Ascii String DecimalString SpecFloat Zpower.
From stdpp Require Import list numbers gmap.

(** ** Host values *)

(** A JavaScript string is a sequence of UTF-16 code units. *)
Abbreviation jsstring := (list N).

Definition cu (c : ascii) : N := N_of_ascii c.

(** The code units of an ASCII literal. *)
Fixpoint js (s : string) : jsstring :=
  match s with
  | EmptyString => []
  | String c s' => cu c :: js s'
  end.

(** A Number is an IEEE 754 binary64 value. *)
Abbreviation number := spec_float.

(** The Number an integer literal or an integer-valued variable holds. *)
Definition to_double (z : Z) : number := binary_normalize 53 1024 z 0 false.

Definition Number_isFinite (n : number) : bool :=
  match n with
  | S754_zero _ | S754_finite _ _ _ => true
  | _ => false
  end.

(** [a === b] on Numbers. *)
Definition number_eqb (a b : number) : bool := SFeqb a b.

(** What [JSON.parse] returns.  An object is the list of its members in
    source order; a later member shadows an earlier one of the same name. *)
#[warnings="-register-all"]
Inductive json :=
  | JNull
  | JBool (b : bool)
  | JNum (n : number)
  | JStr (s : jsstring)
  | JArr (items : list json)
  | JObj (members : list (jsstring * json)).

(** A JavaScript value read out of a document: [None] is [undefined]. *)
Abbreviation jsvalue := (option json).

Fixpoint lookup_member (k : jsstring) (ms : list (jsstring * json)) : jsvalue :=
  match ms with
  | [] => None
  | (k', v) :: ms' =>
      match lookup_member k ms' with
      | Some w => Some w
      | None => if decide (k = k') then Some v else None
      end
  end.

(** Truthiness, as used by [||] and [!]. *)
Definition truthy (v : jsvalue) : bool :=
  match v with
  | None | Some JNull => false
  | Some (JBool b) => b
  | Some (JNum (S754_zero _)) | Some (JNum S754_nan) => false
  | Some (JNum _) => true
  | Some (JStr s) => negb (bool_decide (s = []))
  | Some (JArr _) | Some (JObj _) => true
  end.

(** Whether [ToString(v)] throws, and with it [ToNumber(v)]: both convert an
    object through [ToPrimitive].  A member [toString] of an object of a
    document is never a function and hides the inherited method, [valueOf]
    gives the object back, and the conversion ends in a TypeError; without
    such a member the object is the string [[object Object]].  An array is
    converted by [join], which converts each element but [null]. *)
Fixpoint ToString_throws (v : json) : bool :=
  match v with
  | JObj ms =>
      match lookup_member (js "toString") ms with
      | Some _ => true
      | None => false
      end
  | JArr items => existsb ToString_throws items
  | _ => false
  end.

(** The builtins the code calls whose behaviour is fixed by the Unicode and
    ECMAScript tables rather than by the program. *)
Class Host := {
  (** [s.normalize('NFC')] *)
  normalize_NFC : jsstring -> jsstring;
  (** [s.normalize('NFKD')] *)
  normalize_NFKD : jsstring -> jsstring;
  (** [s.replace(/\p{Diacritic}/gu, '')] *)
  remove_Diacritic : jsstring -> jsstring;
  (** [s.toLocaleLowerCase('cs')] *)
  toLocaleLowerCase_cs : jsstring -> jsstring;
  (** [Number(s)] on a string *)
  StringToNumber : jsstring -> number;
  (** [!Number.isNaN(new Date(s).getTime())] *)
  Date_valid : jsstring -> bool;
}.

(** ** Entropy *)

(** The state of [crypto]: what the coming calls will return, and how many
    calls have been made. *)
Record entropy := Entropy {
  raw32 : nat -> Z;
  uuids : nat -> jsstring;
  used : nat;
}.

Definition consume (e : entropy) : entropy :=
  {| raw32 := raw32 e; uuids := uuids e; used := S (used e) |}.

(** [const a = new Uint32Array(1); crypto.getRandomValues(a); a[0]] *)
Definition getRandomValues (e : entropy) : Z * entropy :=
  ((raw32 e (used e) mod 2 ^ 32)%Z, consume e).

(** [crypto.randomUUID()] *)
Definition randomUUID (e : entropy) : jsstring * entropy :=
  (uuids e (used e), consume e).

(** Code that draws from [crypto]. *)
Definition Rand (A : Type) : Type := entropy -> A * entropy.

Definition ret {A} (a : A) : Rand A := fun e => (a, e).

Definition bind {A B} (c : Rand A) (k : A -> Rand B) : Rand B :=
  fun e => let '(a, e') := c e in k a e'.

Notation "'let*' x := c 'in' k" := (bind c (fun x => k))
  (at level 10, x name, c at level 100, k at level 200).

(** ** Regular-expression replacements used by the code *)

(** The class [\s]. *)
Definition is_space (c : N) : bool :=
  ((9 <=? c) && (c <=? 13) || (c =? 32) || (c =? 160) || (c =? 5760)
   || (8192 <=? c) && (c <=? 8202) || (c =? 8232) || (c =? 8233)
   || (c =? 8239) || (c =? 8287) || (c =? 12288) || (c =? 65279))%N.

Definition is_lower (c : N) : bool := ((cu "a" <=? c) && (c <=? cu "z"))%N.
Definition is_digit (c : N) : bool := ((cu "0" <=? c) && (c <=? cu "9"))%N.
Definition is_hyphen (c : N) : bool := (c =? cu "-")%N.

(** [s.replace(/C+/g, rep)] for a character class [C]: every maximal run of
    characters of the class becomes one [rep]. *)
Fixpoint replace_runs_from (p : N -> bool) (rep : jsstring) (in_run : bool)
    (s : jsstring) : jsstring :=
  match s with
  | [] => []
  | c :: s' =>
      if p c then (if in_run then [] else rep) ++ replace_runs_from p rep true s'
      else c :: replace_runs_from p rep false s'
  end.

Definition replace_runs (p : N -> bool) (rep : jsstring) (s : jsstring) : jsstring :=
  replace_runs_from p rep false s.

Fixpoint drop_while (p : N -> bool) (s : jsstring) : jsstring :=
  match s with
  | [] => []
  | c :: s' => if p c then drop_while p s' else s
  end.

(** [s.trim()] *)
Definition trim (s : jsstring) : jsstring :=
  reverse (drop_while is_space (reverse (drop_while is_space s))).

(** [text.split(/\r?\n/)]: the pieces of the text between its line feeds,
    where a carriage return that stands just before a line feed belongs to
    the separator.  A text without a line feed is its own single piece. *)
Fixpoint split_lines (text : jsstring) : list jsstring :=
  match text with
  | [] => [[]]
  | c :: rest =>
      let push pieces :=
        match pieces with
        | piece :: more => (c :: piece) :: more
        | [] => [[c]]
        end in
      if (c =? 10)%N then [] :: split_lines rest
      else
        match rest with
        | d :: rest' =>
            if ((c =? 13) && (d =? 10))%N then [] :: split_lines rest'
            else push (split_lines rest)
        | [] => [[c]]
        end
  end.

Definition drop_leading_hyphen (s : jsstring) : jsstring :=
  match s with
  | c :: s' => if is_hyphen c then s' else s
  | [] => []
  end.

Fixpoint drop_trailing_hyphen (s : jsstring) : jsstring :=
  match s with
  | [] => []
  | [c] => if is_hyphen c then [] else [c]
  | c :: s' => c :: drop_trailing_hyphen s'
  end.

(** [s.replace(/^-|-$/g, '')]: a hyphen at the start is removed, and then a
    hyphen at the end of what follows it. *)
Definition strip_edge_hyphens (s : jsstring) : jsstring :=
  drop_trailing_hyphen (drop_leading_hyphen s).

(** [n.toString(16)] for an unsigned 32-bit integer. *)
Definition hex_digit (d : Z) : N :=
  if (d <? 10)%Z then (cu "0" + Z.to_N d)%N else (cu "a" + Z.to_N (d - 10))%N.

Fixpoint hex_digits (fuel : nat) (n : Z) (acc : jsstring) : jsstring :=
  match fuel with
  | O => acc
  | S fuel' =>
      let acc' := hex_digit (n mod 16) :: acc in
      if (n / 16 =? 0)%Z then acc' else hex_digits fuel' (n / 16) acc'
  end.

Definition toString16 (n : Z) : jsstring := hex_digits 8 n [].

(** The number a string of hexadecimal digits denotes. *)
Definition hex_digit_value (c : N) : Z :=
  if is_digit c then Z.of_N (c - cu "0") else Z.of_N (c - cu "a") + 10.

Definition hex_value (s : jsstring) : Z :=
  foldl (fun acc c => acc * 16 + hex_digit_value c)%Z 0%Z s.

(** The shape of a key: not empty, made of lowercase ASCII letters, digits
    and hyphens, with no hyphen at either end and no two hyphens in a row. *)
Definition is_key_char (c : N) : bool := is_lower c || is_digit c || is_hyphen c.

Fixpoint no_hyphen_pair (s : jsstring) : bool :=
  match s with
  | c :: (d :: _) as s' => negb (is_hyphen c && is_hyphen d) && no_hyphen_pair s'
  | _ => true
  end.

Definition is_hyphen_at (o : option N) : bool :=
  match o with Some c => is_hyphen c | None => false end.

Definition well_formed_key (s : jsstring) : bool :=
  negb (bool_decide (s = []))
  && forallb is_key_char s
  && negb (is_hyphen_at (head s))
  && negb (is_hyphen_at (last s))
  && no_hyphen_pair s.

(** The shape of a cleaned line: not empty, its only white space single
    U+0020 characters, none of them at either end and no two in a row. *)
Fixpoint no_space_pair (s : jsstring) : bool :=
  match s with
  | c :: (d :: _) as s' => negb (is_space c && is_space d) && no_space_pair s'
  | _ => true
  end.

Definition is_space_at (o : option N) : bool :=
  match o with Some c => is_space c | None => false end.

Definition tidy_line (s : jsstring) : bool :=
  negb (bool_decide (s = []))
  && forallb (fun c => negb (is_space c) || (c =? 32)%N) s
  && negb (is_space_at (head s))
  && negb (is_space_at (last s))
  && no_space_pair s.

(** ** utils *)

Record name := Name { raw : jsstring; key : jsstring }.

Module utils.
Section WithHost.
Context {H : Host}.

(** [raw.normalize('NFC').replace(/\s+/g, ' ').trim()], the cleaning that
    [sanitizeRawInput], [mergeNames] and [importPayload] apply to a line. *)
Definition clean (line : jsstring) : jsstring :=
  trim (replace_runs is_space (js " ") (normalize_NFC line)).

(** The key of createKey before the fallback: the value of [trimmed]. *)
Definition slug (raw : jsstring) : jsstring :=
  let normalized := normalize_NFKD raw in
  let withoutMarks := remove_Diacritic normalized in
  let lower := toLocaleLowerCase_cs withoutMarks in
  let dashed :=
    replace_runs is_space (js "-")
      (List.filter (fun c => is_lower c || is_digit c || is_space c || is_hyphen c) lower) in
  strip_edge_hyphens (replace_runs is_hyphen (js "-") dashed).

Definition createKey (raw : jsstring) : Rand jsstring :=
  let trimmed := slug raw in
  if negb (bool_decide (trimmed = [])) then ret trimmed
  else
    let* b0 := getRandomValues in
    ret (js "id-" ++ toString16 b0).

(** [Map.prototype.set]: an existing key keeps its position. *)
Fixpoint map_set (k : jsstring) (v : name) (m : list (jsstring * name))
    : list (jsstring * name) :=
  match m with
  | [] => [(k, v)]
  | (k', v') :: m' =>
      if decide (k = k') then (k, v) :: m' else (k', v') :: map_set k v m'
  end.

(** [new Map(entries)] *)
Definition new_Map (entries : list (jsstring * name)) : list (jsstring * name) :=
  foldl (fun m kv => map_set kv.1 kv.2 m) [] entries.

Fixpoint merge_loop (rawNames : list jsstring) (map : list (jsstring * name))
    : Rand (list (jsstring * name)) :=
  match rawNames with
  | [] => ret map
  | raw :: rest =>
      let clean := clean raw in
      if bool_decide (clean = []) then merge_loop rest map
      else
        let* key := createKey clean in
        merge_loop rest (map_set key {| raw := clean; key := key |} map)
  end.

Definition mergeNames (existing : list name) (rawNames : list jsstring)
    : Rand (list name) :=
  let map := new_Map (List.map (fun item => (key item, item)) existing) in
  let* map := merge_loop rawNames map in
  ret (List.map snd map).

(** The last of the names of [l] that carry the key [k]. *)
Definition last_with_key (k : jsstring) (l : list name) : option name :=
  last (List.filter (fun n => bool_decide (key n = k)) l).

(** The objects [{ raw: clean, key }] the loop of [mergeNames] creates, in
    the order of the input. *)
Fixpoint incoming (rawNames : list jsstring) : Rand (list name) :=
  match rawNames with
  | [] => ret []
  | raw :: rest =>
      let clean := clean raw in
      if bool_decide (clean = []) then incoming rest
      else
        let* key := createKey clean in
        let* more := incoming rest in
        ret ({| raw := clean; key := key |} :: more)
  end.

(** [sanitizeRawInput(text)] *)
Definition sanitizeRawInput (text : jsstring) : list jsstring :=
  List.filter (fun line => negb (bool_decide (line = [])))
    (List.map clean (split_lines text)).

End WithHost.
End utils.

(** The builtins on ASCII text, where normalization changes nothing, the
    characters with the Diacritic property are the circumflex and the grave
    accent, and lowercasing is that of the letters A to Z.  The host is used
    to run the definitions on ASCII examples: it reads a number from a string
    of decimal digits only, and accepts as a date a timestamp of the form
    [YYYY-MM-DDTHH:mm:ss.sssZ] whose day is at most 28. *)
Definition ascii_lower (c : N) : N :=
  if ((cu "A" <=? c) && (c <=? cu "Z"))%N then (c + 32)%N else c.

Definition decimal_value (s : jsstring) : Z :=
  foldl (fun acc c => acc * 10 + Z.of_N (c - cu "0"))%Z 0%Z s.

Definition two_digits (s : jsstring) (i : nat) (lo hi : Z) : bool :=
  let f := take 2 (drop i s) in
  forallb is_digit f && (length f =? 2)%nat
  && (lo <=? decimal_value f)%Z && (decimal_value f <=? hi)%Z.

Definition iso_timestamp (s : jsstring) : bool :=
  (length s =? 24)%nat
  && forallb is_digit (take 4 s)
  && bool_decide (take 1 (drop 4 s) = js "-") && two_digits s 5 1 12
  && bool_decide (take 1 (drop 7 s) = js "-") && two_digits s 8 1 28
  && bool_decide (take 1 (drop 10 s) = js "T") && two_digits s 11 0 23
  && bool_decide (take 1 (drop 13 s) = js ":") && two_digits s 14 0 59
  && bool_decide (take 1 (drop 16 s) = js ":") && two_digits s 17 0 59
  && bool_decide (take 1 (drop 19 s) = js ".") && forallb is_digit (take 3 (drop 20 s))
  && bool_decide (drop 23 s = js "Z").

Definition ascii_host : Host := {|
  normalize_NFC := fun s => s;
  normalize_NFKD := fun s => s;
  remove_Diacritic :=
    List.filter (fun c => negb ((c =? cu "^") || (c =? cu "`"))%N);
  toLocaleLowerCase_cs := List.map ascii_lower;
  StringToNumber := fun s =>
    if forallb is_digit s then to_double (decimal_value s) else S754_nan;
  Date_valid := iso_timestamp;
|}.

(** ** rng *)

Module rng.

(** [x / y] and [x * y] on Numbers. *)
Definition div (x y : number) : number := SFdiv 53 1024 x y.
Definition mul (x y : number) : number := SFmul 53 1024 x y.

(** [Math.floor] of a finite Number, as an integer.  The value of a finite
    Number is [m * 2^e], negated when the sign is set.  (A product that is
    not finite takes [max] of 2^1024 or more, which no array length is.) *)
Definition Math_floor (x : number) : Z :=
  match x with
  | S754_finite false m e =>
      if (0 <=? e)%Z then (Z.pos m * 2 ^ e)%Z else (Z.pos m / 2 ^ (- e))%Z
  | S754_finite true m e =>
      if (0 <=? e)%Z then (- (Z.pos m * 2 ^ e))%Z
      else (- ((Z.pos m + 2 ^ (- e) - 1) / 2 ^ (- e)))%Z
  | _ => 0%Z
  end.

(** A Number that is not below zero, or is NaN. *)
Definition not_negative (x : number) : Prop :=
  match x with
  | S754_zero s | S754_infinity s | S754_finite s _ _ => s = false
  | S754_nan => True
  end.

(** [Math.floor((a0 / (0xffffffff + 1)) * max)] *)
Definition scale (max a0 : Z) : Z :=
  let fraction := div (to_double a0) (to_double (0xffffffff + 1)) in
  Math_floor (mul fraction (to_double max)).

Definition index (max : Z) : Rand Z :=
  if (max <=? 0)%Z then ret 0%Z
  else
    let* a0 := getRandomValues in
    ret (scale max a0).

(** An entropy source whose next raw value is [a0]. *)
Definition next_raw (a0 : Z) : entropy :=
  {| raw32 := fun _ => a0; uuids := fun _ => []; used := 0 |}.

(** How many of the first [n] raw values satisfy [p]. *)
Definition count_below (p : Z -> bool) (n : N) : Z :=
  N.peano_rect (fun _ => Z) 0%Z
    (fun k acc => if p (Z.of_N k) then (acc + 1)%Z else acc) n.

(** How many of the 2^32 raw 32-bit values make [index bound] return [v]. *)
Definition draws_to (bound v : Z) : Z :=
  count_below (fun a0 => ((index bound (next_raw a0)).1 =? v)%Z) 4294967296%N.

(** The least raw value [a0] with [v * 2^32 <= a0 * bound]: the quotient of
    [v * 2^32] by [bound], rounded up. *)
Definition first_raw (bound v : Z) : Z :=
  ((v * 4294967296 + bound - 1) / bound)%Z.

End rng.

(** ** state *)

Definition APP_VERSION : number := to_double 1.
Definition DEFAULT_CLASS_KEY : jsstring := js "trida-1".

(** A settings object: its own properties. *)
Abbreviation object := (gmap jsstring json).

Definition DEFAULT_spinMs : number := to_double 2600.

Definition DEFAULT_SETTINGS : object :=
  <[js "spinMs" := JNum DEFAULT_spinMs]>
    (<[js "reducedMotionMode" := JStr (js "auto")]>
       (<[js "theme" := JStr (js "auto")]> ∅)).

(** [{ ...a, ...b }] *)
Definition spread (a b : object) : object := b ∪ a.

(** A history entry [{ key, ts, id }]. *)
Record entry := Entry { hkey : jsstring; hts : jsstring; hid : json }.

(** [new Set(items)], in insertion order. *)
Fixpoint new_Set (items : list jsstring) : list jsstring :=
  match items with
  | [] => []
  | k :: rest => k :: List.filter (fun k' => negb (bool_decide (k' = k))) (new_Set rest)
  end.

(** The document handed to [updateFromStorage]: what [importPayload] returns. *)
Record payload := Payload {
  p_classKey : json;
  p_names : list name;
  p_absentKeys : list jsstring;
  p_history : list entry;
  p_settings : object;
}.

Module state.

(** The private [data] of the store.  [absentKeys] is a Set in insertion
    order; [classKey] is whatever truthy value was last assigned. *)
Record data := Data {
  classKey : json;
  names : list name;
  absentKeys : list jsstring;
  history : list entry;
  settings : object;
}.

Definition initial : data :=
  {| classKey := JStr DEFAULT_CLASS_KEY; names := []; absentKeys := [];
     history := []; settings := DEFAULT_SETTINGS |}.

Definition setClassKey (k : json) (d : data) : data :=
  {| classKey := if truthy (Some k) then k else JStr DEFAULT_CLASS_KEY;
     names := names d; absentKeys := absentKeys d; history := history d;
     settings := settings d |}.

Definition updateFromStorage (p : payload) (d : data) : data :=
  {| classKey := classKey d;
     names := p_names p;
     absentKeys := new_Set (p_absentKeys p);
     history := p_history p;
     settings := spread DEFAULT_SETTINGS (p_settings p) |}.

Definition setNames (newNames : list name) (d : data) : data :=
  let validKeys := List.map key newNames in
  {| classKey := classKey d;
     names := newNames;
     absentKeys := List.filter (fun k => bool_decide (k ∈ validKeys)) (absentKeys d);
     history := history d;
     settings := settings d |}.

Definition toggleAbsent (k : jsstring) (isAbsent : bool) (d : data) : data :=
  {| classKey := classKey d;
     names := names d;
     absentKeys :=
       if isAbsent then
         (if bool_decide (k ∈ absentKeys d) then absentKeys d else absentKeys d ++ [k])
       else List.filter (fun k' => negb (bool_decide (k' = k))) (absentKeys d);
     history := history d;
     settings := settings d |}.

Definition clearAbsent (d : data) : data :=
  {| classKey := classKey d; names := names d; absentKeys := [];
     history := history d; settings := settings d |}.

Definition addHistory (e : entry) (d : data) : data :=
  {| classKey := classKey d; names := names d; absentKeys := absentKeys d;
     history := take 20 (e :: history d);
     settings := settings d |}.

Definition resetHistory (d : data) : data :=
  {| classKey := classKey d; names := names d; absentKeys := absentKeys d;
     history := []; settings := settings d |}.

Definition setSettings (partial : object) (d : data) : data :=
  {| classKey := classKey d; names := names d; absentKeys := absentKeys d;
     history := history d; settings := spread (settings d) partial |}.

Definition getPresentNames (d : data) : list name :=
  List.filter (fun n => negb (bool_decide (key n ∈ absentKeys d))) (names d).

(** The mutators of the store, as data. *)
Inductive op :=
  | SetClassKey (k : json)
  | UpdateFromStorage (p : payload)
  | SetNames (newNames : list name)
  | ToggleAbsent (k : jsstring) (isAbsent : bool)
  | ClearAbsent
  | AddHistory (e : entry)
  | ResetHistory
  | SetSettings (partial : object).

Definition apply (o : op) (d : data) : data :=
  match o with
  | SetClassKey k => setClassKey k d
  | UpdateFromStorage p => updateFromStorage p d
  | SetNames ns => setNames ns d
  | ToggleAbsent k b => toggleAbsent k b d
  | ClearAbsent => clearAbsent d
  | AddHistory e => addHistory e d
  | ResetHistory => resetHistory d
  | SetSettings s => setSettings s d
  end.

Definition run (ops : list op) (d : data) : data :=
  foldl (fun d o => apply o d) d ops.

(** The invariant of the absence set: each of its keys is the key of a name
    of the roster. *)
Definition absent_ok (d : data) : Prop :=
  forall k, k ∈ absentKeys d -> k ∈ List.map key (names d).

(** What a caller has to see to for the invariant to survive a mutator that
    takes keys from outside: the key marked absent is in the roster, and a
    document loaded wholesale marks only names it contains. *)
Definition respects_roster (o : op) (d : data) : Prop :=
  match o with
  | ToggleAbsent k true => k ∈ List.map key (names d)
  | UpdateFromStorage p =>
      forall k, k ∈ p_absentKeys p -> k ∈ List.map key (p_names p)
  | _ => True
  end.

Fixpoint all_respect_roster (ops : list op) (d : data) : Prop :=
  match ops with
  | [] => True
  | o :: rest => respects_roster o d /\ all_respect_roster rest (apply o d)
  end.

End state.

(** ** storage *)

(** What [importPayload] throws. *)
Inductive error :=
  | InvalidSyntax
  | NotAnObject
  | UnsupportedVersion (found : jsvalue)
  | NoData
  | TypeError.

Inductive result (A : Type) :=
  | Ok (a : A)
  | Throw (e : error).
Arguments Ok {A} a.
Arguments Throw {A} e.

(** [v.k] for a value of a document: reading a property of [null] throws,
    and none of the names read here exists on a primitive or an array. *)
Definition get (v : json) (k : jsstring) : result jsvalue :=
  match v with
  | JNull => Throw TypeError
  | JObj ms => Ok (lookup_member k ms)
  | _ => Ok None
  end.

(** [v.k] where [v] is known not to be [null] or [undefined]. *)
Definition prop (v : jsvalue) (k : jsstring) : jsvalue :=
  match v with
  | Some p => match get p k with Ok x => x | Throw _ => None end
  | None => None
  end.

(** [a ?? b] *)
Definition nullish (a : jsvalue) (b : json) : json :=
  match a with
  | None | Some JNull => b
  | Some v => v
  end.

(** The own properties of an object of a document, as [{ ...v }] copies them. *)
Definition members_object (ms : list (jsstring * json)) : object :=
  list_to_map (reverse ms).

(** The decimal digits of an array index. *)
Definition index_key (i : nat) : jsstring :=
  js (NilEmpty.string_of_uint (Nat.to_uint i)).

Definition own_properties (v : json) : object :=
  match v with
  | JObj ms => members_object ms
  | JArr items => list_to_map (imap (fun i x => (index_key i, x)) items)
  | JStr s => list_to_map (imap (fun i c => (index_key i, JStr [c])) s)
  | _ => ∅
  end.

Module storage.
Section WithHost.
Context {H : Host}.

(** The Number of a value whose conversion does not throw.  An object is
    the string [[object Object]], which is not numeric.  An array converts
    through its [toString()]: the empty array is the empty string, a
    one-element array is its element's string, and a longer one contains a
    comma and is not numeric.  The string of a Number reads back as that
    Number, but for [-0], whose string is [0]. *)
Fixpoint Number_of (v : json) : number :=
  match v with
  | JNull => to_double 0
  | JBool b => if b then to_double 1 else to_double 0
  | JNum n => n
  | JStr s => StringToNumber s
  | JArr [] => to_double 0
  | JArr [x] =>
      match x with
      | JNull => to_double 0
      | JBool _ => S754_nan
      | JNum (S754_zero _) => S754_zero false
      | _ => Number_of x
      end
  | JArr _ => S754_nan
  | JObj _ => S754_nan
  end.

(** [Number(v)] *)
Definition Number (v : json) : result number :=
  if ToString_throws v then Throw TypeError else Ok (Number_of v).

Definition ToNumber (v : jsvalue) : result number :=
  match v with
  | None => Ok S754_nan
  | Some j => Number j
  end.

(** [list.includes(v)] for a list of string literals. *)
Definition includes (allowed : list jsstring) (v : jsvalue) : bool :=
  match v with
  | Some (JStr s) => bool_decide (s ∈ allowed)
  | _ => false
  end.

(** [v === APP_VERSION] *)
Definition is_APP_VERSION (v : jsvalue) : bool :=
  match v with
  | Some (JNum n) => number_eqb n APP_VERSION
  | _ => false
  end.

Definition migrate (payload : jsvalue) : jsvalue :=
  if negb (truthy payload) then Some JNull
  else
    match payload with
    | None => Some JNull
    | Some p =>
        let field := prop payload in
        if is_APP_VERSION (field (js "version")) then Some p
        else
          Some (JObj [
            (js "version", JNum APP_VERSION);
            (js "classKey", nullish (field (js "classKey")) (JStr DEFAULT_CLASS_KEY));
            (js "names", nullish (field (js "names")) (JArr []));
            (js "absentKeys", nullish (field (js "absentKeys")) (JArr []));
            (js "history", nullish (field (js "history")) (JArr []));
            (js "settings",
              JObj (map_to_list
                (spread DEFAULT_SETTINGS
                   (own_properties (nullish (field (js "settings")) (JObj []))))))
          ])
    end.

(** The word the message of the version error has for a missing version. *)
Definition no_version : jsstring := [382; 225; 100; 110; 225]%N.

(** [parse(json)], on the outcome of [JSON.parse(json)]: [None] when that
    throws a SyntaxError.  The message of the version error is a template
    literal over [parsed.version ?? ...]: a version that has no string makes
    it throw a TypeError before the error is built, and the [catch] throws
    that one on. *)
Definition parse (parsed : option json) : result jsvalue :=
  match parsed with
  | None => Throw InvalidSyntax
  | Some p =>
      match p with
      | JObj _ | JArr _ =>
          match get p (js "version") with
          | Throw e => Throw e
          | Ok version =>
              if is_APP_VERSION version then Ok (migrate (Some p))
              else if ToString_throws (nullish version (JStr no_version))
              then Throw TypeError
              else Throw (UnsupportedVersion version)
          end
      | _ => Throw NotAnObject
      end
  end.

(** [snapshot.x] written to the export file and read back: what
    [JSON.parse(JSON.stringify(v))] is.  A Number that is not finite is
    written as [null], and a negative zero as [0]. *)
Fixpoint reparsed (v : json) : json :=
  match v with
  | JNum (S754_zero _) => JNum (S754_zero false)
  | JNum n => if Number_isFinite n then v else JNull
  | JArr items => JArr (List.map reparsed items)
  | JObj ms => JObj (List.map (fun kv => (kv.1, reparsed kv.2)) ms)
  | _ => v
  end.

(** What the export writes for a name and for a history entry. *)
Definition name_json (n : name) : json :=
  JObj [(js "raw", JStr (raw n)); (js "key", JStr (key n))].

Definition entry_json (h : entry) : json :=
  JObj [(js "key", JStr (hkey h)); (js "ts", JStr (hts h)); (js "id", hid h)].

Definition exportPayload (snapshot : state.data) : json :=
  JObj [
    (js "version", JNum APP_VERSION);
    (js "classKey", state.classKey snapshot);
    (js "names", JArr (List.map name_json (state.names snapshot)));
    (js "absentKeys", JArr (List.map JStr (state.absentKeys snapshot)));
    (js "history", JArr (List.map entry_json (state.history snapshot)));
    (js "settings", JObj (map_to_list (state.settings snapshot)))
  ].

(** [rawNames.forEach(...)]: [sanitizedNames] holds the names accepted so
    far, and [seenKeys] is the set of their keys. *)
Fixpoint sanitize_names (rawNames : list json) (sanitizedNames : list name)
    (e : entropy) : result (list name) * entropy :=
  match rawNames with
  | [] => (Ok sanitizedNames, e)
  | item :: rest =>
      match get item (js "raw") with
      | Throw err => (Throw err, e)
      | Ok r =>
          let raw := match r with Some (JStr s) => utils.clean s | _ => [] end in
          if bool_decide (raw = []) then sanitize_names rest sanitizedNames e
          else
            let '(k, e') := utils.createKey raw e in
            let seenKeys := List.map key sanitizedNames in
            if bool_decide (k ∈ seenKeys) then sanitize_names rest sanitizedNames e'
            else sanitize_names rest (sanitizedNames ++ [{| raw := raw; key := k |}]) e'
      end
  end.

(** The names the loop over [rawNames] comes to consider, in the order of
    the file: for each element whose [raw] is a string that is not empty once
    cleaned, the cleaned text with the key [createKey] gives it. *)
Fixpoint candidates (rawNames : list json) : Rand (list name) :=
  match rawNames with
  | [] => ret []
  | item :: rest =>
      let raw :=
        match get item (js "raw") with
        | Ok (Some (JStr s)) => utils.clean s
        | _ => []
        end in
      if bool_decide (raw = []) then candidates rest
      else
        let* k := utils.createKey raw in
        let* more := candidates rest in
        ret ({| raw := raw; key := k |} :: more)
  end.

(** The first of the names of [l] that carry the key [k]. *)
Definition first_with_key (k : jsstring) (l : list name) : option name :=
  head (List.filter (fun n => bool_decide (key n = k)) l).

(** An element of [parsed.history.map(...)]. *)
Record mapped_entry := { m_key : jsvalue; m_ts : jsvalue; m_id : json }.

Fixpoint map_history (items : list json) (e : entropy)
    : result (list mapped_entry) * entropy :=
  match items with
  | [] => (Ok [], e)
  | item :: rest =>
      match get item (js "key"), get item (js "ts"), get item (js "id") with
      | Ok k, Ok t, Ok i =>
          let '(id, e') :=
            match (if truthy i then i else None) with
            | Some v => (v, e)
            | None => let '(u, e') := randomUUID e in (JStr u, e')
            end in
          match map_history rest e' with
          | (Ok out, e'') => (Ok ({| m_key := k; m_ts := t; m_id := id |} :: out), e'')
          | (Throw err, e'') => (Throw err, e'')
          end
      | _, _, _ => (Throw TypeError, e)
      end
  end.

(** The entries that pass the [filter], with the types the test leaves. *)
Definition keep_entry (seenKeys : list jsstring) (m : mapped_entry) : option entry :=
  match m_key m, m_ts m with
  | Some (JStr k), Some (JStr t) =>
      if bool_decide (k ∈ seenKeys) && Date_valid t
      then Some {| hkey := k; hts := t; hid := m_id m |}
      else None
  | _, _ => None
  end.

Definition keep_absent (seenKeys : list jsstring) (v : json) : option jsstring :=
  match v with
  | JStr k => if bool_decide (k ∈ seenKeys) then Some k else None
  | _ => None
  end.

Definition array_items (v : jsvalue) : list json :=
  match v with
  | Some (JArr items) => items
  | _ => []
  end.

(** The settings of the document over the defaults, before any is checked. *)
Definition merged_settings (parsed_settings : jsvalue) : object :=
  spread DEFAULT_SETTINGS (own_properties (nullish parsed_settings (JObj []))).

(** Whether [Number(settings.spinMs)] throws on the settings of a document. *)
Definition spinMs_throws (parsed_settings : jsvalue) : bool :=
  match merged_settings parsed_settings !! js "spinMs" with
  | Some v => ToString_throws v
  | None => false
  end.

(** The settings [importPayload] returns.  [Number(settings.spinMs)] is the
    one conversion made, and an exception of it leaves the function. *)
Definition sanitize_settings (parsed_settings : jsvalue) : result object :=
  let settings := merged_settings parsed_settings in
  match ToNumber (settings !! js "spinMs") with
  | Throw err => Throw err
  | Ok spinMs =>
      let settings :=
        <[js "spinMs" :=
            JNum (if Number_isFinite spinMs then spinMs else DEFAULT_spinMs)]> settings in
      let settings :=
        if negb (includes [js "auto"; js "on"; js "off"] (settings !! js "reducedMotionMode"))
        then <[js "reducedMotionMode" := JStr (js "auto")]> settings
        else settings in
      Ok (if negb (includes [js "auto"; js "light"; js "dark"] (settings !! js "theme"))
          then <[js "theme" := JStr (js "auto")]> settings
          else settings)
  end.

Definition importPayload (json : option json) (e : entropy)
    : result payload * entropy :=
  match parse json with
  | Throw err => (Throw err, e)
  | Ok parsed =>
      if negb (truthy parsed) then (Throw NoData, e)
      else
        let field := prop parsed in
        match sanitize_names (array_items (field (js "names"))) [] e with
        | (Throw err, e1) => (Throw err, e1)
        | (Ok sanitizedNames, e1) =>
            let seenKeys := List.map key sanitizedNames in
            let absentKeys :=
              omap (keep_absent seenKeys) (array_items (field (js "absentKeys"))) in
            match map_history (array_items (field (js "history"))) e1 with
            | (Throw err, e2) => (Throw err, e2)
            | (Ok mapped, e2) =>
                let history := take 20 (omap (keep_entry seenKeys) mapped) in
                match sanitize_settings (field (js "settings")) with
                | Throw err => (Throw err, e2)
                | Ok settings =>
                    (Ok {| p_classKey :=
                             match field (js "classKey") with
                             | Some c => if truthy (Some c) then c else JStr DEFAULT_CLASS_KEY
                             | None => JStr DEFAULT_CLASS_KEY
                             end;
                           p_names := sanitizedNames;
                           p_absentKeys := absentKeys;
                           p_history := history;
                           p_settings := settings |}, e2)
                end
            end
        end
  end.

(** A name that an import derives again as it stands: its text is clean and
    not empty, and its key is the slug of the text, not empty either. *)
Definition rederivable (n : name) : Prop :=
  utils.clean (raw n) = raw n /\ raw n <> []
  /\ utils.slug (raw n) = key n /\ key n <> [].

(** A history entry an import keeps: its key is in the roster, its timestamp
    is a date, and its identifier is truthy and written out as it is. *)
Definition kept_entry (keys : list jsstring) (h : entry) : Prop :=
  hkey h ∈ keys /\ Date_valid (hts h) = true
  /\ truthy (Some (hid h)) = true /\ reparsed (hid h) = hid h.

(** Settings an import leaves alone: a finite [spinMs], the two modes among
    their values, and every property written out as it is. *)
Definition kept_settings (s : object) : Prop :=
  (exists n, s !! js "spinMs" = Some (JNum n) /\ Number_isFinite n = true)
  /\ includes [js "auto"; js "on"; js "off"] (s !! js "reducedMotionMode") = true
  /\ includes [js "auto"; js "light"; js "dark"] (s !! js "theme") = true
  /\ (forall k v, s !! k = Some v -> reparsed v = v).

(** The snapshots an export and import give back. *)
Definition reimportable (d : state.data) : Prop :=
  Forall rederivable (state.names d)
  /\ NoDup (List.map key (state.names d))
  /\ NoDup (state.absentKeys d)
  /\ (forall k, k ∈ state.absentKeys d -> k ∈ List.map key (state.names d))
  /\ Forall (kept_entry (List.map key (state.names d))) (state.history d)
  /\ length (state.history d) <= 20
  /\ kept_settings (state.settings d)
  /\ truthy (Some (state.classKey d)) = true
  /\ reparsed (state.classKey d) = state.classKey d.

End WithHost.
End storage.

(** ** Number builtins of the settings and image handlers *)

Definition Number_isNaN (n : number) : bool :=
  match n with S754_nan => true | _ => false end.

(** The sign of a Number that is not NaN. *)
Definition sign_bit (n : number) : bool :=
  match n with
  | S754_zero s | S754_infinity s | S754_finite s _ _ => s
  | S754_nan => false
  end.

(** [Math.min(a, b)] and [Math.max(a, b)]: NaN if either is NaN, and [-0]
    counts as smaller than [+0]. *)
Definition Math_min (a b : number) : number :=
  match SFcompare a b with
  | Some Lt => a
  | Some Gt => b
  | Some Eq => if sign_bit a then a else b
  | None => S754_nan
  end.

Definition Math_max (a b : number) : number :=
  match SFcompare a b with
  | Some Lt => b
  | Some Gt => a
  | Some Eq => if sign_bit a then b else a
  | None => S754_nan
  end.

(** [a > b] *)
Definition number_gtb (a b : number) : bool :=
  match SFcompare a b with
  | Some Gt => true
  | _ => false
  end.

Fixpoint take_digits (s : jsstring) : jsstring :=
  match s with
  | c :: s' => if is_digit c then c :: take_digits s' else []
  | [] => []
  end.

(** [Number.parseInt(string, 10)]: white space at the start is skipped, one
    sign is read, and the decimal digits that follow are the value; with no
    digit there the result is NaN.  (An implementation may read the digits
    after the twentieth as zeros; here they are read as they are.) *)
Definition Number_parseInt10 (string : jsstring) : number :=
  let trimmed := drop_while is_space string in
  let '(negative, unsigned) :=
    match trimmed with
    | c :: rest =>
        if (c =? cu "-")%N then (true, rest)
        else if (c =? cu "+")%N then (false, rest)
        else (false, trimmed)
    | [] => (false, [])
    end in
  let digits := take_digits unsigned in
  if bool_decide (digits = []) then S754_nan
  else
    let mathInt := decimal_value digits in
    if (mathInt =? 0)%Z then S754_zero negative
    else to_double (if negative then - mathInt else mathInt)%Z.

(** ** ui *)

Module ui.
Section WithHost.
Context {H : Host}.

(** The promise [wheel.spinTo] returned to a draw that awaits it. *)
Inductive spin :=
  | Resolved (selected : option name)
  | InTransition (index : Z).

(** The variables of the [wheel] and [ui] closures, the store, the names
    the list of the page was last rendered for, the draw button and the
    environment the handlers read. *)
Record model := Model {
  data : state.data;
  rendered : list name;
  currentNames : list name;
  spinning : bool;
  isDrawing : bool;
  lastWinnerKey : option jsstring;
  isHydrating : bool;
  currentReduced : bool;
  locked : bool;
  drawBtn_disabled : bool;
  awaiting : option spin;
  crypto : entropy;
}.

Definition with_data (d : state.data) (u : model) : model :=
  {| data := d; rendered := rendered u;
     currentNames := currentNames u; spinning := spinning u;
     isDrawing := isDrawing u; lastWinnerKey := lastWinnerKey u;
     isHydrating := isHydrating u; currentReduced := currentReduced u;
     locked := locked u; drawBtn_disabled := drawBtn_disabled u;
     awaiting := awaiting u; crypto := crypto u |}.

(** [updateButtons]: the value it gives [drawBtn.disabled]. *)
Definition updateButtons (snapshot : state.data) : bool :=
  let present := state.getPresentNames snapshot in
  (length present <=? 1)%nat.

(** [updateSettings] assigns [spinMs], [reducedMotionMode] and [theme] to
    the value of a form field each, which converts them to strings: whether
    one of the conversions throws. *)
Definition updateSettings_throws (settings : object) : bool :=
  existsb
    (fun k =>
       match settings !! k with
       | Some v => ToString_throws v
       | None => false
       end)
    [js "spinMs"; js "reducedMotionMode"; js "theme"].

(** Whether the subscriber throws on a snapshot, and with it the mutator
    that notified. *)
Definition notify_throws (snapshot : state.data) : bool :=
  ToString_throws (state.classKey snapshot)
  || updateSettings_throws (state.settings snapshot).

(** The subscriber registered by [init], run by [notify] after a mutation:
    [handleStateChange] and then [wheel.update].  The first statement of
    [handleStateChange] assigns the class key to the value of a text field,
    which converts it to a string: when that throws, nothing else of the
    subscriber runs.  Otherwise the names list, the winner and the draw
    button are brought up to date; then comes [updateSettings], and when
    that throws the wheel is not updated.  The other rendering and the
    best-effort save are outside the model. *)
Definition notify (u : model) : model :=
  if ToString_throws (state.classKey (data u)) then u
  else
    let present := state.getPresentNames (data u) in
    {| data := data u;
       rendered := state.names (data u);
       currentNames :=
         if updateSettings_throws (state.settings (data u)) then currentNames u
         else present;
       spinning := spinning u;
       isDrawing := isDrawing u;
       lastWinnerKey :=
         match lastWinnerKey u with
         | Some k => if bool_decide (k ∈ List.map key present) then Some k else None
         | None => None
         end;
       isHydrating := isHydrating u;
       currentReduced := currentReduced u;
       locked := locked u;
       drawBtn_disabled := updateButtons (data u);
       awaiting := awaiting u;
       crypto := crypto u |}.

(** A store mutation followed by its notification.  The mutation is made
    before the subscriber runs, so it stays when the subscriber throws.  The
    exception leaves the mutator and the listener that called it; but for
    the import, no listener of the model does anything to the model after
    its mutator, so nothing of it is left out. *)
Definition mutate (o : state.op) (u : model) : model :=
  notify (with_data (state.apply o (data u)) u).

Definition shouldReduceMotion (settings : object) (u : model) : bool :=
  match settings !! js "reducedMotionMode" with
  | Some (JStr m) =>
      if bool_decide (m = js "on") then true
      else if bool_decide (m = js "off") then false
      else currentReduced u
  | _ => currentReduced u
  end.

(** [lockInteractions(lock)] *)
Definition lockInteractions (lock : bool) (u : model) : model :=
  {| data := data u; rendered := rendered u;
     currentNames := currentNames u; spinning := spinning u;
     isDrawing := isDrawing u; lastWinnerKey := lastWinnerKey u;
     isHydrating := isHydrating u; currentReduced := currentReduced u;
     locked := lock;
     drawBtn_disabled := if lock then true else updateButtons (data u);
     awaiting := awaiting u; crypto := crypto u |}.

(** [currentNames[index]] *)
Definition nth_name (l : list name) (index : Z) : option name :=
  if (index <? 0)%Z then None else l !! Z.to_nat index.

(** [wheel.spinTo(index, durationMs, reduceMotion)]: the promise, and the
    new value of [spinning]. *)
Definition spinTo (index : Z) (reduceMotion : bool) (u : model) : spin * bool :=
  if bool_decide (currentNames u = []) then (Resolved None, spinning u)
  else if reduceMotion then (Resolved (nth_name (currentNames u) index), spinning u)
  else if spinning u then (Resolved None, spinning u)
  else (InTransition index, true).

(** [handleDraw] up to its [await]. *)
Definition handleDraw (u : model) : model :=
  if isDrawing u || spinning u then u
  else
    let snapshot := data u in
    let present := state.getPresentNames snapshot in
    if (length present =? 0)%nat then u
    else
      let '(index, e') := rng.index (Z.of_nat (length present)) (crypto u) in
      let reduceMotion := shouldReduceMotion (state.settings snapshot) u in
      let u1 := lockInteractions true u in
      let '(promise, spinning') := spinTo index reduceMotion u1 in
      {| data := data u1; rendered := rendered u1;
         currentNames := currentNames u1; spinning := spinning';
         isDrawing := true; lastWinnerKey := lastWinnerKey u1;
         isHydrating := isHydrating u1; currentReduced := currentReduced u1;
         locked := locked u1; drawBtn_disabled := drawBtn_disabled u1;
         awaiting := Some promise; crypto := e' |}.

(** The [transitionend] event of the wheel, which ends the animation (it is
    also what [stopEarly] dispatches). *)
Definition transitionend (u : model) : model :=
  match awaiting u with
  | Some (InTransition index) =>
      {| data := data u; rendered := rendered u;
         currentNames := currentNames u; spinning := false;
         isDrawing := isDrawing u; lastWinnerKey := lastWinnerKey u;
         isHydrating := isHydrating u; currentReduced := currentReduced u;
         locked := locked u; drawBtn_disabled := drawBtn_disabled u;
         awaiting := Some (Resolved (nth_name (currentNames u) index));
         crypto := crypto u |}
  | _ => u
  end.

(** [handleDraw] from its [await] on, once the promise is resolved; [now]
    is [new Date().toISOString()]. *)
Definition resume (now : jsstring) (u : model) : model :=
  match awaiting u with
  | Some (Resolved selected) =>
      let u1 := lockInteractions false u in
      let u2 :=
        {| data := data u1; rendered := rendered u1;
           currentNames := currentNames u1; spinning := spinning u1;
           isDrawing := false; lastWinnerKey := lastWinnerKey u1;
           isHydrating := isHydrating u1; currentReduced := currentReduced u1;
           locked := locked u1; drawBtn_disabled := drawBtn_disabled u1;
           awaiting := None; crypto := crypto u1 |} in
      match selected with
      | None => u2
      | Some selected =>
          let '(id, e') := randomUUID (crypto u2) in
          let u3 :=
            {| data := data u2; rendered := rendered u2;
               currentNames := currentNames u2; spinning := spinning u2;
               isDrawing := isDrawing u2; lastWinnerKey := Some (key selected);
               isHydrating := isHydrating u2; currentReduced := currentReduced u2;
               locked := locked u2; drawBtn_disabled := drawBtn_disabled u2;
               awaiting := awaiting u2; crypto := e' |} in
          mutate (state.AddHistory {| hkey := key selected; hts := now; hid := JStr id |}) u3
      end
  | _ => u
  end.

(** A whole draw: the request, the end of the animation if one was started,
    and the continuation. *)
Definition draw (now : jsstring) (u : model) : model :=
  resume now (transitionend (handleDraw u)).

(** A click on [drawBtn]: a disabled button dispatches no click. *)
Definition click_drawBtn (u : model) : model :=
  if drawBtn_disabled u then u else handleDraw u.

(** [handleKeyboard] on Enter or z, with the focus outside a form field. *)
Definition keydown_Enter (u : model) : model := handleDraw u.

(** What [reader.onload] of [handleJsonFileChange] shows in its alert. *)
Inductive alert :=
  | ImportSucceeded (count : nat)
  | ImportFailed (e : error).

Definition set_hydrating (b : bool) (u : model) : model :=
  {| data := data u; rendered := rendered u;
     currentNames := currentNames u; spinning := spinning u;
     isDrawing := isDrawing u; lastWinnerKey := lastWinnerKey u;
     isHydrating := b; currentReduced := currentReduced u;
     locked := locked u; drawBtn_disabled := drawBtn_disabled u;
     awaiting := awaiting u; crypto := crypto u |}.

(** [reader.onload] of [handleJsonFileChange], on the outcome of
    [JSON.parse(reader.result)].  What [crypto] gave out stays given out
    when the import throws.  [state.setClassKey] and
    [state.updateFromStorage] throw what their notification throws, with
    the store already changed: the [catch] then shows that error, what
    follows in the [try] is not run and [isHydrating] stays set. *)
Definition handleJsonFileChange (parsed : option json) (u : model) : model * alert :=
  match storage.importPayload parsed (crypto u) with
  | (Throw err, e') =>
      ({| data := data u; rendered := rendered u;
          currentNames := currentNames u; spinning := spinning u;
          isDrawing := isDrawing u; lastWinnerKey := lastWinnerKey u;
          isHydrating := isHydrating u; currentReduced := currentReduced u;
          locked := locked u; drawBtn_disabled := drawBtn_disabled u;
          awaiting := awaiting u; crypto := e' |}, ImportFailed err)
  | (Ok payload, e') =>
      let u1 :=
        {| data := data u; rendered := rendered u;
           currentNames := currentNames u; spinning := spinning u;
           isDrawing := isDrawing u;
           lastWinnerKey :=
             match p_history payload with
             | first :: _ => Some (hkey first)
             | [] => None
             end;
           isHydrating := true; currentReduced := currentReduced u;
           locked := locked u; drawBtn_disabled := drawBtn_disabled u;
           awaiting := awaiting u; crypto := e' |} in
      let u2 := mutate (state.SetClassKey (p_classKey payload)) u1 in
      if notify_throws (data u2) then (u2, ImportFailed TypeError)
      else
        let u3 := mutate (state.UpdateFromStorage payload) u2 in
        if notify_throws (data u3) then (u3, ImportFailed TypeError)
        else (set_hydrating false u3, ImportSucceeded (length (p_names payload)))
  end.

(** [addNamesFromInput], on the lines [sanitizeRawInput] returned. *)
Definition addNames (lines : list jsstring) (u : model) : model :=
  if bool_decide (lines = []) then u
  else
    let snapshot := data u in
    let '(merged, e') := utils.mergeNames (state.names snapshot) lines (crypto u) in
    mutate (state.SetNames merged)
      {| data := data u; rendered := rendered u;
         currentNames := currentNames u; spinning := spinning u;
         isDrawing := isDrawing u; lastWinnerKey := lastWinnerKey u;
         isHydrating := isHydrating u; currentReduced := currentReduced u;
         locked := locked u; drawBtn_disabled := drawBtn_disabled u;
         awaiting := awaiting u; crypto := e' |}.

(** The model once [init] has run on an empty storage. *)
Definition started (reduced : bool) (e : entropy) : model :=
  {| data := state.initial; rendered := []; currentNames := []; spinning := false;
     isDrawing := false; lastWinnerKey := None; isHydrating := false;
     currentReduced := reduced; locked := false; drawBtn_disabled := true;
     awaiting := None; crypto := e |}.

(** [addNamesFromInput], with [value] the text of the names field. *)
Definition addNamesFromInput (value : jsstring) (u : model) : model :=
  addNames (utils.sanitizeRawInput value) u.

(** [handleResetHistory] *)
Definition handleResetHistory (u : model) : model :=
  mutate state.ResetHistory u.

(** [handleAbsentToggle], on a change of a checkbox of the names list whose
    [dataset.key] is [dataset_key]. *)
Definition handleAbsentToggle (dataset_key : option jsstring) (checked : bool)
    (u : model) : model :=
  match dataset_key with
  | Some k =>
      if bool_decide (k = []) then u
      else mutate (state.ToggleAbsent k checked) u
  | None => u
  end.

(** [handleSpinDurationChange], with [value] the text of the duration field. *)
Definition handleSpinDurationChange (value : jsstring) (u : model) : model :=
  let value := Number_parseInt10 value in
  if Number_isNaN value then u
  else
    let clamped := Math_max (to_double 500) (Math_min (to_double 10000) value) in
    mutate (state.SetSettings {[ js "spinMs" := JNum clamped ]}) u.

(** [handleMotionModeChange] and [handleThemeModeChange], with [value] the
    value of the select element. *)
Definition handleMotionModeChange (value : jsstring) (u : model) : model :=
  mutate (state.SetSettings {[ js "reducedMotionMode" := JStr value ]}) u.

Definition handleThemeModeChange (value : jsstring) (u : model) : model :=
  mutate (state.SetSettings {[ js "theme" := JStr value ]}) u.

(** [handleThemeToggle] *)
Definition handleThemeToggle (u : model) : model :=
  let snapshot := data u in
  let next :=
    match state.settings snapshot !! js "theme" with
    | Some (JStr t) => if bool_decide (t = js "dark") then js "light" else js "dark"
    | _ => js "dark"
    end in
  mutate (state.SetSettings {[ js "theme" := JStr next ]}) u.

(** The listener of [mediaReduced]. *)
Definition set_currentReduced (matches : bool) (u : model) : model :=
  {| data := data u; rendered := rendered u;
     currentNames := currentNames u; spinning := spinning u;
     isDrawing := isDrawing u; lastWinnerKey := lastWinnerKey u;
     isHydrating := isHydrating u; currentReduced := matches;
     locked := locked u; drawBtn_disabled := drawBtn_disabled u;
     awaiting := awaiting u; crypto := crypto u |}.

(** The pixel loop of [preprocessImage] on the [data] of the canvas, a
    Uint8ClampedArray holding the red, green, blue and alpha of each pixel,
    each an integer from 0 to 255.  The loop runs while [i < data.length]:
    past the end an element reads as [undefined], which makes the mean NaN
    and the value 0, and a write there is dropped. *)
Definition threshold (r g b : Z) : Z :=
  let avg := SFdiv 53 1024 (to_double (r + g + b)) (to_double 3) in
  if number_gtb avg (to_double 140) then 255%Z else 0%Z.

Fixpoint preprocessImage (data : list Z) : list Z :=
  match data with
  | r :: g :: b :: a :: rest =>
      let value := threshold r g b in
      value :: value :: value :: a :: preprocessImage rest
  | [r; g; b] => let value := threshold r g b in [value; value; value]
  | [_; _] => [0%Z; 0%Z]
  | [_] => [0%Z]
  | [] => []
  end.

(** The events [init] registers a listener for, with what the listener
    reads from the page.  A draw request comes from a click on the draw
    button or from the Enter and z keys; the wheel's [transitionend] is
    dispatched when the animation ends or by [stopEarly]; a loaded file is
    the [onload] of the reader of the import.  The continuation of
    [handleDraw] runs as soon as the promise it awaits is resolved, before
    any other listener, so it is part of the event that resolves it; [now]
    is the time it reads.  Switching the class, which reads [localStorage],
    is not among them. *)
Inductive event :=
  | AddNamesClick (value : jsstring)
  | OcrText (text : jsstring)
  | AbsentChange (i : nat) (checked : bool)
  | JsonFileLoad (parsed : option json)
  | DrawClick (now : jsstring)
  | DrawKey (now : jsstring)
  | WheelTransitionEnd (now : jsstring)
  | ResetHistoryRequest
  | SpinDurationChange (value : jsstring)
  | MotionModeChange (value : jsstring)
  | ThemeModeChange (value : jsstring)
  | ThemeToggleClick
  | MediaReducedChange (matches : bool).

Definition dispatch (ev : event) (u : model) : model :=
  match ev with
  | AddNamesClick value => addNamesFromInput value u
  | OcrText text => addNames (utils.sanitizeRawInput text) u
  | AbsentChange i checked =>
      (* the checkbox of the i-th name of the list on the page *)
      handleAbsentToggle (key <$> rendered u !! i) checked u
  | JsonFileLoad parsed => (handleJsonFileChange parsed u).1
  | DrawClick now => resume now (click_drawBtn u)
  | DrawKey now => resume now (keydown_Enter u)
  | WheelTransitionEnd now => resume now (transitionend u)
  | ResetHistoryRequest => handleResetHistory u
  | SpinDurationChange value => handleSpinDurationChange value u
  | MotionModeChange value => handleMotionModeChange value u
  | ThemeModeChange value => handleThemeModeChange value u
  | ThemeToggleClick => handleThemeToggle u
  | MediaReducedChange matches => set_currentReduced matches u
  end.

Definition events (evs : list event) (u : model) : model :=
  foldl (fun u ev => dispatch ev u) u evs.

(** What the roster, the absence set and the history of a snapshot owe each
    other: the keys of the roster are distinct and have the shape of a key,
    the names are cleaned lines, the absent keys and the keys of the history
    are keys of the roster, and the history holds at most 20 entries. *)
Definition roster_ok (d : state.data) : Prop :=
  NoDup (List.map key (state.names d))
  /\ Forall (fun n => tidy_line (raw n) = true /\ well_formed_key (key n) = true)
       (state.names d)
  /\ NoDup (state.absentKeys d)
  /\ state.absent_ok d
  /\ Forall (fun h => hkey h ∈ List.map key (state.names d)) (state.history d)
  /\ length (state.history d) <= 20.

(** The flags of a draw between two events: either no draw is running and
    nothing is locked, or the wheel is turning for a draw that is awaited,
    with the interactions locked. *)
Definition draw_flags_ok (u : model) : Prop :=
  match awaiting u with
  | None => isDrawing u = false /\ spinning u = false /\ locked u = false
  | Some (InTransition _) =>
      isDrawing u = true /\ spinning u = true /\ locked u = true
  | Some (Resolved _) => False
  end.

(** What the page keeps of the roster even when notifications threw: the
    names of its list and of the wheel carry keys of the roster. *)
Definition page_within_roster (u : model) : Prop :=
  (forall n, n ∈ rendered u -> key n ∈ List.map key (state.names (data u)))
  /\ (forall n, n ∈ currentNames u -> key n ∈ List.map key (state.names (data u))).

(** What the page shows of a snapshot it is up to date with: the list holds
    the roster, the wheel holds the present names, the winner shown is one
    of them, and with no draw running the draw button is as [updateButtons]
    left it. *)
Definition display_ok (u : model) : Prop :=
  rendered u = state.names (data u)
  /\ currentNames u = state.getPresentNames (data u)
  /\ (forall k, lastWinnerKey u = Some k ->
        k ∈ List.map key (state.getPresentNames (data u)))
  /\ (awaiting u = None -> drawBtn_disabled u = updateButtons (data u)).

(** What every listener keeps: a consistent snapshot, settings that
    [updateSettings] can show, the flags of a draw, a page within the
    roster, and a page that shows the snapshot whenever the class key has a
    string. *)
Definition page_ok (u : model) : Prop :=
  roster_ok (data u)
  /\ updateSettings_throws (state.settings (data u)) = false
  /\ draw_flags_ok u
  /\ page_within_roster u
  /\ (ToString_throws (state.classKey (data u)) = false -> display_ok u).

End WithHost.
End ui.

(** * Properties *)

(** ** The random source *)

Section RandomSource.
Local Open Scope Z_scope.

Lemma getRandomValues_range (e : entropy) :
  0 <= (getRandomValues e).1 < 4294967296.
Proof. unfold getRandomValues; simpl. apply Z.mod_pos_bound. lia. Qed.

Lemma getRandomValues_consumes (e : entropy) :
  (getRandomValues e).2 = consume e.
Proof. reflexivity. Qed.

Lemma digits2_pos_size (p : positive) : digits2_pos p = Pos.size p.
Proof. induction p; simpl; congruence. Qed.

Lemma size_log2 (p : positive) : Z.pos (Pos.size p) = Z.log2 (Z.pos p) + 1.
Proof.
  destruct p; simpl; try reflexivity; rewrite Pos2Z.inj_succ; lia.
Qed.

Lemma digits_bounds (m : Z) (d : Z) :
  0 < m -> 2 ^ (d - 1) <= m < 2 ^ d -> 0 < d -> Zdigits2 m = d.
Proof.
  intros Hm Hb Hd. destruct m as [|p|p]; try lia.
  simpl. rewrite digits2_pos_size, size_log2.
  rewrite (Z.log2_unique (Z.pos p) (d - 1)); [lia|lia|].
  replace (Z.succ (d - 1)) with d by lia. exact Hb.
Qed.

Lemma iter_twice {A} (f : A -> A) (n : nat) (x : A) :
  Nat.iter n f (Nat.iter n f x) = Nat.iter (2 * n) f x.
Proof.
  replace (2 * n)%nat with (n + n)%nat by lia. rewrite Nat.iter_add. reflexivity.
Qed.

Lemma iter_pos_nat {A} (f : A -> A) (p : positive) (x : A) :
  SpecFloat.iter_pos f p x = Nat.iter (Pos.to_nat p) f x.
Proof.
  revert x. induction p as [p IH|p IH|]; intros x; cbn [SpecFloat.iter_pos].
  - rewrite !IH, iter_twice, Pos2Nat.inj_xI, <- Nat.iter_succ_r. reflexivity.
  - rewrite !IH, iter_twice, Pos2Nat.inj_xO. reflexivity.
  - reflexivity.
Qed.

Lemma shr_zeros (n : nat) (x : positive) :
  Nat.iter n shr_1 {| shr_m := Z.pos x * 2 ^ Z.of_nat n; shr_r := false; shr_s := false |}
  = {| shr_m := Z.pos x; shr_r := false; shr_s := false |}.
Proof.
  induction n as [|n IH].
  - cbn [Nat.iter nat_rect]. change (2 ^ Z.of_nat 0) with 1. rewrite Z.mul_1_r. reflexivity.
  - rewrite Nat.iter_succ_r.
    replace (Z.pos x * 2 ^ Z.of_nat (S n)) with (Z.pos (xO (Pos.mul x (Z.to_pos (2 ^ Z.of_nat n))))).
    + simpl shr_1. rewrite <- IH. f_equal. f_equal.
      rewrite Pos2Z.inj_mul, Z2Pos.id; [reflexivity|]. apply Z.pow_pos_nonneg; lia.
    + rewrite Pos2Z.inj_xO, Pos2Z.inj_mul, Z2Pos.id by (apply Z.pow_pos_nonneg; lia).
      rewrite Nat2Z.inj_succ, Z.pow_succ_r by lia. lia.
Qed.

Lemma round_exact (s : bool) (x : positive) (t e : Z) :
  2 ^ 52 <= Z.pos x < 2 ^ 53 -> 0 <= t -> -1074 <= e + t <= 971 ->
  binary_round_aux 53 1024 s (Z.pos x * 2 ^ t) e loc_Exact = S754_finite s x (e + t).
Proof.
  intros Hx Ht He.
  assert (Hp : 0 < 2 ^ t) by (apply Z.pow_pos_nonneg; lia).
  assert (Hd : Zdigits2 (Z.pos x * 2 ^ t) = 53 + t).
  { apply digits_bounds; [nia| |lia].
    replace (53 + t - 1) with (52 + t) by lia. rewrite !Z.pow_add_r by lia. nia. }
  assert (Hdx : Zdigits2 (Z.pos x) = 53) by (apply digits_bounds; lia).
  unfold binary_round_aux, shr_fexp. rewrite Hd.
  unfold fexp, emin.
  replace (Z.max (53 + t + e - 53) (3 - 1024 - 53) - e) with t by lia.
  assert (E : shr (shr_record_of_loc (Z.pos x * 2 ^ t) loc_Exact) e t
              = ({| shr_m := Z.pos x; shr_r := false; shr_s := false |}, e + t)).
  { unfold shr, shr_record_of_loc. destruct t as [|p|p]; [| |lia].
    - rewrite Z.mul_1_r, Z.add_0_r. reflexivity.
    - rewrite iter_pos_nat. rewrite <- (positive_nat_Z p) at 1. rewrite shr_zeros. reflexivity. }
  rewrite E. cbn [shr_m loc_of_shr_record round_nearest_even].
  rewrite Hdx.
  replace (Z.max (53 + (e + t) - 53) (3 - 1024 - 53) - (e + t)) with 0 by lia.
  cbn [shr shr_record_of_loc shr_m].
  destruct (Z.leb_spec (e + t) (1024 - 53)); [reflexivity|lia].
Qed.

Lemma log2_digits (z : Z) :
  0 < z -> 2 ^ (Z.log2 z + 1 - 1) <= z < 2 ^ (Z.log2 z + 1).
Proof.
  intros Hz. pose proof (Z.log2_spec z Hz) as S.
  replace (Z.log2 z + 1 - 1) with (Z.log2 z) by lia.
  replace (Z.log2 z + 1) with (Z.succ (Z.log2 z)) by lia. exact S.
Qed.

(** A positive integer below 2^53 is a double: its digits, moved up to fill
    the mantissa. *)
Lemma to_double_pos (z : Z) :
  0 < z < 2 ^ 53 ->
  let d := Z.log2 z + 1 in
  to_double z = S754_finite false (Z.to_pos (z * 2 ^ (53 - d))) (d - 53)
  /\ 2 ^ 52 <= z * 2 ^ (53 - d) < 2 ^ 53.
Proof.
  intros Hz d.
  pose proof (log2_digits z ltac:(lia)) as Hd. fold d in Hd.
  assert (Hd1 : 1 <= d) by (pose proof (Z.log2_nonneg z); lia).
  assert (Hd53 : d <= 53).
  { destruct (Z.le_gt_cases d 53) as [L|G]; [exact L|].
    assert (2 ^ 53 <= 2 ^ (d - 1)) by (apply Z.pow_le_mono_r; lia). lia. }
  assert (Hb : 2 ^ 52 <= z * 2 ^ (53 - d) < 2 ^ 53).
  { assert (E1 : 2 ^ 52 = 2 ^ (d - 1) * 2 ^ (53 - d))
      by (rewrite <- Z.pow_add_r by lia; f_equal; lia).
    assert (E2 : 2 ^ 53 = 2 ^ d * 2 ^ (53 - d))
      by (rewrite <- Z.pow_add_r by lia; f_equal; lia).
    assert (0 < 2 ^ (53 - d)) by (apply Z.pow_pos_nonneg; lia).
    rewrite E1, E2. split; [apply Z.mul_le_mono_nonneg_r; lia|apply Z.mul_lt_mono_pos_r; lia]. }
  split; [|exact Hb].
  destruct z as [|p|p]; try lia.
  unfold to_double, binary_normalize, binary_round.
  rewrite digits2_pos_size, size_log2. fold d.
  unfold fexp, emin, shl_align.
  replace (Z.max (d + 0 - 53) (3 - 1024 - 53) - 0) with (d - 53) by lia.
  destruct (d - 53) as [|q|q] eqn:Eq; try lia.
  - replace (Z.max (d + 0 - 53) (3 - 1024 - 53)) with 0 by lia.
    replace (53 - d) with 0 by lia. rewrite Z.mul_1_r. cbn [Z.to_pos].
    replace (Z.pos p) with (Z.pos p * 2 ^ 0) at 1 by lia.
    replace (53 - d) with 0 in Hb by lia. rewrite Z.mul_1_r in Hb.
    rewrite round_exact by lia. reflexivity.
  - replace (Z.max (d + 0 - 53) (3 - 1024 - 53)) with (Z.neg q) by lia.
    assert (Es : Z.pos (Pos.iter xO p q) = Z.pos p * 2 ^ (53 - d)).
    { change (Pos.iter xO p q) with (shift_pos q p). rewrite shift_pos_correct.
      replace (53 - d) with (Z.pos q) by lia.
      change (Z.pow_pos 2 q) with (2 ^ Z.pos q). apply Z.mul_comm. }
    rewrite <- Es. cbn [Z.to_pos].
    replace (Z.pos (Pos.iter xO p q)) with (Z.pos (Pos.iter xO p q) * 2 ^ 0) at 1 by lia.
    rewrite round_exact; [f_equal; lia| |lia|lia].
    rewrite Es. exact Hb.
Qed.

Lemma to_double_2_32 : to_double (0xffffffff + 1) = S754_finite false 4503599627370496 (-20).
Proof. reflexivity. Qed.

(** Dividing a double by 2^32 lowers its exponent by 32. *)
Lemma SFdiv_2_32 (x : positive) (e : Z) :
  2 ^ 52 <= Z.pos x < 2 ^ 53 -> -52 <= e <= 0 ->
  rng.div (S754_finite false x e) (to_double (0xffffffff + 1))
  = S754_finite false x (e - 32).
Proof.
  intros Hx He. rewrite to_double_2_32.
  unfold rng.div, SFdiv, SFdiv_core_binary.
  rewrite (digits_bounds (Z.pos x) 53) by lia.
  change (Zdigits2 4503599627370496) with 53.
  unfold fexp, emin.
  replace (Z.min (Z.max (53 + e - (53 + -20) - 53) (3 - 1024 - 53)) (e - -20)) with (e - 33) by lia.
  replace (e - -20 - (e - 33)) with 53 by lia.
  cbv iota beta.
  assert (Ed : Z.div_eucl (Z.shiftl (Z.pos x) 53) 4503599627370496 = (Z.pos x * 2 ^ 1, 0)).
  { rewrite Z.shiftl_mul_pow2 by lia.
    pose proof (Z.div_eucl_eq (Z.pos x * 2 ^ 53) 4503599627370496 ltac:(lia)) as E.
    pose proof (Z.mod_pos_bound (Z.pos x * 2 ^ 53) 4503599627370496 ltac:(lia)) as M.
    unfold Z.modulo in M.
    destruct (Z.div_eucl (Z.pos x * 2 ^ 53) 4503599627370496) as [q r].
    change (2 ^ 53) with 9007199254740992 in E. f_equal; lia. }
  rewrite Ed. change (new_location 4503599627370496 0) with loc_Exact.
  change (xorb false false) with false.
  rewrite round_exact by lia. f_equal. lia.
Qed.

(** The code's scaling in binary64 gives the integer quotient of
    [a0 * max] by 2^32 for a 32-bit [a0] and [max] up to 2^21, where the
    product stays below 2^53. *)
Lemma scale_quotient (max a0 : Z) :
  0 <= a0 < 4294967296 -> 0 < max <= 2097152 ->
  rng.scale max a0 = a0 * max / 4294967296.
Proof.
  intros Ha Hmax. unfold rng.scale. cbv zeta.
  assert (Hp : a0 * max < 2 ^ 53) by (change (2 ^ 53) with 9007199254740992; nia).
  assert (Hm53 : max < 2 ^ 53) by (change (2 ^ 53) with 9007199254740992; lia).
  destruct (to_double_pos max ltac:(lia)) as [Em Bm]. cbv zeta in Em, Bm.
  set (dm := Z.log2 max + 1) in *.
  destruct (Z.eq_dec a0 0) as [->|Hne].
  - rewrite Em. reflexivity.
  - assert (Ha53 : a0 < 2 ^ 53) by (change (2 ^ 53) with 9007199254740992; lia).
    destruct (to_double_pos a0 ltac:(lia)) as [Ea Ba]. cbv zeta in Ea, Ba.
    set (da := Z.log2 a0 + 1) in *.
    pose proof (log2_digits a0 ltac:(lia)) as La. fold da in La.
    pose proof (log2_digits max ltac:(lia)) as Lm. fold dm in Lm.
    pose proof (log2_digits (a0 * max) ltac:(nia)) as Lp.
    set (dp := Z.log2 (a0 * max) + 1) in *.
    assert (Hda : 1 <= da) by (pose proof (Z.log2_nonneg a0); lia).
    assert (Hdm : 1 <= dm) by (pose proof (Z.log2_nonneg max); lia).
    assert (Hdp1 : 1 <= dp) by (pose proof (Z.log2_nonneg (a0 * max)); lia).
    assert (Hda53 : da <= 53).
    { destruct (Z.le_gt_cases da 53) as [L|G]; [exact L|].
      assert (2 ^ 53 <= 2 ^ (da - 1)) by (apply Z.pow_le_mono_r; lia). lia. }
    assert (Hdm53 : dm <= 53).
    { destruct (Z.le_gt_cases dm 53) as [L|G]; [exact L|].
      assert (2 ^ 53 <= 2 ^ (dm - 1)) by (apply Z.pow_le_mono_r; lia). lia. }
    assert (Hdp53 : dp <= 53).
    { destruct (Z.le_gt_cases dp 53) as [L|G]; [exact L|].
      assert (2 ^ 53 <= 2 ^ (dp - 1)) by (apply Z.pow_le_mono_r; lia). lia. }
    assert (Hdp : da + dm - 1 <= dp).
    { destruct (Z.le_gt_cases (da + dm - 1) dp) as [L|G]; [exact L|].
      assert (2 ^ dp <= 2 ^ (da + dm - 2)) by (apply Z.pow_le_mono_r; lia).
      assert (2 ^ (da + dm - 2) = 2 ^ (da - 1) * 2 ^ (dm - 1))
        by (rewrite <- Z.pow_add_r by lia; f_equal; lia).
      assert (2 ^ (da - 1) * 2 ^ (dm - 1) <= a0 * max) by (apply Z.mul_le_mono_nonneg; lia).
      lia. }
    rewrite Ea, Em, SFdiv_2_32 by (rewrite ?Z2Pos.id; lia).
    unfold rng.mul. cbn [SFmul]. change (xorb false false) with false.
    destruct (to_double_pos (a0 * max) ltac:(nia)) as [_ Bp]. cbv zeta in Bp. fold dp in Bp.
    set (t := 53 - da - dm + dp).
    assert (Ew : Z.pos (Z.to_pos (a0 * 2 ^ (53 - da)) * Z.to_pos (max * 2 ^ (53 - dm)))
                 = Z.pos (Z.to_pos (a0 * max * 2 ^ (53 - dp))) * 2 ^ t).
    { rewrite Pos2Z.inj_mul, !Z2Pos.id by lia.
      assert (E2 : 2 ^ (53 - da) * 2 ^ (53 - dm) = 2 ^ (53 - dp) * 2 ^ t).
      { rewrite <- !Z.pow_add_r by (unfold t; lia). f_equal. unfold t. lia. }
      replace (a0 * 2 ^ (53 - da) * (max * 2 ^ (53 - dm)))
        with (a0 * max * (2 ^ (53 - da) * 2 ^ (53 - dm))) by ring.
      rewrite E2. ring. }
    rewrite Ew, round_exact by (rewrite ?Z2Pos.id; unfold t; lia).
    unfold rng.Math_floor.
    replace (da - 53 - 32 + (dm - 53) + t) with (dp - 85) by (unfold t; lia).
    destruct (Z.leb_spec 0 (dp - 85)); [lia|].
    rewrite Z2Pos.id by lia.
    replace (- (dp - 85)) with (32 + (53 - dp)) by lia.
    rewrite Z.pow_add_r by lia. change (2 ^ 32) with 4294967296.
    apply Z.div_mul_cancel_r; [lia|].
    apply Z.pow_nonzero; lia.
Qed.

Lemma shr_1_half (r : shr_record) :
  0 <= shr_m r -> shr_m (shr_1 r) = shr_m r / 2.
Proof.
  destruct r as [m b s]. cbn [shr_m]. intros Hm.
  destruct m as [|[p|p|]|p]; try lia; try reflexivity.
  - change (shr_m (shr_1 _)) with (Z.pos p). apply (Z.div_unique _ _ _ 1); lia.
  - change (shr_m (shr_1 _)) with (Z.pos p). apply (Z.div_unique _ _ _ 0); lia.
Qed.

Lemma shr_n_quotient (n : nat) (r : shr_record) :
  0 <= shr_m r -> shr_m (Nat.iter n shr_1 r) = shr_m r / 2 ^ Z.of_nat n.
Proof.
  intros Hm. induction n as [|n IH].
  - cbn [Nat.iter nat_rect]. change (2 ^ Z.of_nat 0) with 1. rewrite Z.div_1_r. reflexivity.
  - cbn [Nat.iter nat_rect]. rewrite shr_1_half.
    + change (nat_rect _ r (fun _ => shr_1) n) with (Nat.iter n shr_1 r). rewrite IH.
      rewrite Nat2Z.inj_succ, Z.pow_succ_r by lia.
      rewrite Z.div_div by (try lia; apply Z.pow_pos_nonneg; lia).
      f_equal. lia.
    + change (nat_rect _ r (fun _ => shr_1) n) with (Nat.iter n shr_1 r). rewrite IH.
      apply Z.div_pos; [exact Hm|apply Z.pow_pos_nonneg; lia].
Qed.

Lemma round_nearest_even_step (m : Z) (l : location) :
  m <= round_nearest_even m l <= m + 1.
Proof.
  destruct l as [|[]]; cbn [round_nearest_even]; try lia.
  destruct (Z.even m); lia.
Qed.

(** Rounding a product of more than 53 digits: the mantissa kept is the
    quotient by [2^s], where [s] digits are dropped, or one more. *)
Lemma round_upper (M e s : Z) :
  0 < s -> 2 ^ (52 + s) <= M < 2 ^ (53 + s) -> -1074 <= e + s -> e + s + 1 <= 971 ->
  exists w e',
    binary_round_aux 53 1024 false M e loc_Exact = S754_finite false w e'
    /\ e + s <= e' <= e + s + 1
    /\ Z.pos w * 2 ^ (e' - (e + s)) <= M / 2 ^ s + 1.
Proof.
  intros Hs HM He1 He2.
  assert (Hp : 0 < 2 ^ s) by (apply Z.pow_pos_nonneg; lia).
  assert (Hd : Zdigits2 M = 53 + s).
  { apply digits_bounds; [lia| |lia]. replace (53 + s - 1) with (52 + s) by lia. exact HM. }
  assert (Hq : 2 ^ 52 <= M / 2 ^ s < 2 ^ 53).
  { rewrite !Z.pow_add_r in HM by lia. split.
    - apply Z.div_le_lower_bound; lia.
    - apply Z.div_lt_upper_bound; lia. }
  unfold binary_round_aux, shr_fexp. rewrite Hd. unfold fexp, emin.
  replace (Z.max (53 + s + e - 53) (3 - 1024 - 53) - e) with s by lia.
  destruct s as [|p|p]; try lia.
  unfold shr at 1. rewrite iter_pos_nat.
  set (r1 := Nat.iter (Pos.to_nat p) shr_1 (shr_record_of_loc M loc_Exact)).
  assert (Hm1 : shr_m r1 = M / 2 ^ Z.pos p).
  { unfold r1. rewrite shr_n_quotient by (cbn; lia). rewrite positive_nat_Z. reflexivity. }
  pose proof (round_nearest_even_step (shr_m r1) (loc_of_shr_record r1)) as Hr.
  set (w0 := round_nearest_even (shr_m r1) (loc_of_shr_record r1)) in *.
  rewrite Hm1 in Hr.
  destruct (Z.eq_dec w0 (2 ^ 53)) as [E|E].
  - rewrite E. change (Zdigits2 (2 ^ 53)) with 54.
    replace (Z.max (54 + (e + Z.pos p) - 53) (3 - 1024 - 53) - (e + Z.pos p)) with 1 by lia.
    cbn [shr shr_record_of_loc SpecFloat.iter_pos]. change (2 ^ 53) with 9007199254740992.
    cbn [shr_1 shr_m].
    destruct (Z.leb_spec (e + Z.pos p + 1) (1024 - 53)); [|lia].
    eexists _, _. split; [reflexivity|]. split; [lia|].
    replace (e + Z.pos p + 1 - (e + Z.pos p)) with 1 by lia.
    change (Z.pos 4503599627370496 * 2 ^ 1) with (2 ^ 53). lia.
  - assert (Hw : 2 ^ 52 <= w0 < 2 ^ 53) by lia.
    rewrite (digits_bounds w0 53) by lia.
    replace (Z.max (53 + (e + Z.pos p) - 53) (3 - 1024 - 53) - (e + Z.pos p)) with 0 by lia.
    cbn [shr shr_record_of_loc shr_m].
    destruct w0 as [|w|w]; try lia.
    destruct (Z.leb_spec (e + Z.pos p) (1024 - 53)); [|lia].
    exists w, (e + Z.pos p). split; [reflexivity|]. split; [lia|].
    rewrite Z.sub_diag. lia.
Qed.

(** The scaled value is below [max] for every [max] a Number holds exactly,
    whether the product of the doubles is exact or rounded. *)
Lemma scale_below (max a0 : Z) :
  0 <= a0 < 4294967296 -> 0 < max < 2 ^ 53 -> rng.scale max a0 < max.
Proof.
  intros Ha Hmax. unfold rng.scale. cbv zeta.
  destruct (to_double_pos max ltac:(lia)) as [Em Bm]. cbv zeta in Em, Bm.
  set (dn := Z.log2 max + 1) in *.
  destruct (Z.eq_dec a0 0) as [->|Hne].
  - rewrite Em. change (0 < max). lia.
  - assert (Ha53 : a0 < 2 ^ 53) by (change (2 ^ 53) with 9007199254740992; lia).
    destruct (to_double_pos a0 ltac:(lia)) as [Ea Ba]. cbv zeta in Ea, Ba.
    set (da := Z.log2 a0 + 1) in *.
    pose proof (log2_digits a0 ltac:(lia)) as La. fold da in La.
    pose proof (log2_digits max ltac:(lia)) as Ln. fold dn in Ln.
    assert (Hda : 1 <= da) by (pose proof (Z.log2_nonneg a0); lia).
    assert (Hdn : 1 <= dn) by (pose proof (Z.log2_nonneg max); lia).
    assert (Hda32 : da <= 32).
    { destruct (Z.le_gt_cases da 32) as [L|G]; [exact L|].
      assert (2 ^ 32 <= 2 ^ (da - 1)) by (apply Z.pow_le_mono_r; lia).
      change (2 ^ 32) with 4294967296 in *. lia. }
    assert (Hdn53 : dn <= 53).
    { destruct (Z.le_gt_cases dn 53) as [L|G]; [exact L|].
      assert (2 ^ 53 <= 2 ^ (dn - 1)) by (apply Z.pow_le_mono_r; lia). lia. }
    rewrite Ea, Em, SFdiv_2_32 by (rewrite ?Z2Pos.id; lia).
    unfold rng.mul. cbn [SFmul]. change (xorb false false) with false.
    set (xa := a0 * 2 ^ (53 - da)) in *. set (ym := max * 2 ^ (53 - dn)) in *.
    rewrite Pos2Z.inj_mul, !Z2Pos.id by lia.
    set (J := 106 - da - dn).
    assert (HJ : 21 <= J) by (unfold J; lia).
    assert (EM : xa * ym = a0 * max * 2 ^ J).
    { unfold xa, ym, J. replace (106 - da - dn) with ((53 - da) + (53 - dn)) by lia.
      rewrite Z.pow_add_r by lia. ring. }
    assert (HM : 2 ^ 104 <= xa * ym < 2 ^ 106).
    { change (2 ^ 104) with (2 ^ 52 * 2 ^ 52). change (2 ^ 106) with (2 ^ 53 * 2 ^ 53).
      split; [apply Z.mul_le_mono_nonneg; lia|apply Z.mul_lt_mono_nonneg; lia]. }
    (* the number [s] of digits dropped *)
    assert (Hs : exists s, 52 <= s <= 53 /\ 2 ^ (52 + s) <= xa * ym < 2 ^ (53 + s)).
    { destruct (Z.lt_ge_cases (xa * ym) (2 ^ 105)) as [L|G].
      - exists 52. split; [lia|]. change (52 + 52) with 104. change (53 + 52) with 105. lia.
      - exists 53. split; [lia|]. change (52 + 53) with 105. change (53 + 53) with 106. lia. }
    destruct Hs as (s & Hs & HMs).
    destruct (round_upper (xa * ym) (da - 53 - 32 + (dn - 53)) s
                ltac:(lia) HMs ltac:(lia) ltac:(lia)) as (w & e' & Er & He' & Hw).
    rewrite Er. set (E := da - 53 - 32 + (dn - 53) + s) in *.
    set (K := - E). assert (HK : 0 <= K) by (unfold K, E; lia).
    assert (Hp_s : 0 < 2 ^ s) by (apply Z.pow_pos_nonneg; lia).
    assert (Hp_J : 0 < 2 ^ J) by (apply Z.pow_pos_nonneg; lia).
    assert (Hp_K : 0 < 2 ^ K) by (apply Z.pow_pos_nonneg; lia).
    assert (EKs : 2 ^ K * 2 ^ s = 2 ^ J * 4294967296).
    { change 4294967296 with (2 ^ 32). rewrite <- !Z.pow_add_r by lia.
      f_equal. unfold K, E, J. lia. }
    (* the mantissa kept, at the exponent [E], is below [max * 2^K] *)
    assert (Hv : Z.pos w * 2 ^ (e' - E) < max * 2 ^ K).
    { assert (B1 : (xa * ym / 2 ^ s + 1) * 2 ^ s <= xa * ym + 2 ^ s).
      { pose proof (Z.mul_div_le (xa * ym) (2 ^ s) Hp_s). lia. }
      assert (B2 : 2 ^ s < max * 2 ^ J).
      { assert (2 ^ s <= 2 ^ 53) by (apply Z.pow_le_mono_r; lia).
        assert (2 ^ 73 <= 2 ^ (dn - 1) * 2 ^ J).
        { rewrite <- Z.pow_add_r by lia. apply Z.pow_le_mono_r; unfold J; lia. }
        assert (2 ^ (dn - 1) * 2 ^ J <= max * 2 ^ J) by (apply Z.mul_le_mono_nonneg_r; lia).
        change (2 ^ 73) with 9444732965739290427392 in *.
        change (2 ^ 53) with 9007199254740992 in *. lia. }
      assert (B3 : a0 * max * 2 ^ J <= max * 2 ^ J * 4294967296 - max * 2 ^ J).
      { assert (a0 * (max * 2 ^ J) <= 4294967295 * (max * 2 ^ J))
          by (apply Z.mul_le_mono_nonneg_r; lia). lia. }
      apply (Z.mul_lt_mono_pos_r (2 ^ s)); [exact Hp_s|].
      assert (Z.pos w * 2 ^ (e' - E) * 2 ^ s <= (xa * ym / 2 ^ s + 1) * 2 ^ s)
        by (apply Z.mul_le_mono_nonneg_r; lia).
      assert (R : max * 2 ^ K * 2 ^ s = max * 2 ^ J * 4294967296)
        by (rewrite <- !Z.mul_assoc, EKs; reflexivity).
      rewrite R. lia. }
    unfold rng.Math_floor.
    assert (Hd : e' = E \/ e' = E + 1) by lia.
    destruct (Z.leb_spec 0 e') as [Hpos|Hneg].
    + (* [0 <= e']: then [K] is 0 or 1 *)
      assert (HeK : e' - E = e' + K) by (unfold K; lia).
      rewrite HeK, Z.pow_add_r in Hv by lia.
      apply (Z.mul_lt_mono_pos_r (2 ^ K)); [exact Hp_K|]. lia.
    + apply Z.div_lt_upper_bound; [apply Z.pow_pos_nonneg; lia|].
      assert (HKe : K = (- e') + (e' - E)) by (unfold K; lia).
      rewrite HKe, Z.pow_add_r in Hv by lia.
      assert (0 < 2 ^ (e' - E)) by (apply Z.pow_pos_nonneg; lia).
      apply (Z.mul_lt_mono_pos_r (2 ^ (e' - E))); [lia|]. lia.
Qed.

Lemma scale_range (max a0 : Z) :
  0 < max <= 2097152 -> 0 <= a0 < 4294967296 -> 0 <= rng.scale max a0 < max.
Proof.
  intros Hmax Ha. rewrite scale_quotient by lia. split.
  - apply Z.div_pos; nia.
  - apply Z.div_lt_upper_bound; nia.
Qed.

Lemma first_raw_spec (bound v a0 : Z) :
  0 < bound -> (rng.first_raw bound v <= a0 <-> v * 4294967296 <= a0 * bound).
Proof.
  intros Hb. unfold rng.first_raw.
  pose proof (Z.div_mod (v * 4294967296 + bound - 1) bound ltac:(lia)) as E.
  pose proof (Z.mod_pos_bound (v * 4294967296 + bound - 1) bound Hb) as M.
  set (q := (v * 4294967296 + bound - 1) / bound) in *.
  set (r := (v * 4294967296 + bound - 1) mod bound) in *.
  split; intros Hle; nia.
Qed.

Lemma scale_hits (bound v a0 : Z) :
  0 < bound <= 2097152 -> 0 <= a0 < 4294967296 ->
  (rng.scale bound a0 = v
   <-> rng.first_raw bound v <= a0 < rng.first_raw bound (v + 1)).
Proof.
  intros Hb Ha. rewrite scale_quotient by lia.
  assert (Hb' : 0 < bound) by lia.
  assert (Hlt : a0 < rng.first_raw bound (v + 1) <-> a0 * bound < (v + 1) * 4294967296).
  { pose proof (first_raw_spec bound (v + 1) a0 Hb'). lia. }
  rewrite Hlt, (first_raw_spec bound v a0 Hb').
  pose proof (Z.div_mod (a0 * bound) 4294967296 ltac:(lia)) as E.
  pose proof (Z.mod_pos_bound (a0 * bound) 4294967296 ltac:(lia)) as M.
  split; intros Hv; [subst v|]; nia.
Qed.

Lemma first_raw_0 (bound : Z) : 0 < bound -> rng.first_raw bound 0 = 0.
Proof. intros Hb. unfold rng.first_raw. apply Z.div_small. lia. Qed.

Lemma first_raw_bound (bound : Z) :
  0 < bound -> rng.first_raw bound bound = 4294967296.
Proof.
  intros Hb. unfold rng.first_raw.
  replace (bound * 4294967296 + bound - 1) with (bound - 1 + 4294967296 * bound) by lia.
  rewrite Z.div_add by lia. rewrite Z.div_small; lia.
Qed.

Lemma first_raw_mono (bound v w : Z) :
  0 < bound -> v <= w -> rng.first_raw bound v <= rng.first_raw bound w.
Proof. intros Hb Hvw. unfold rng.first_raw. apply Z.div_le_mono; lia. Qed.

(** Consecutive thresholds are [2^32 / bound] or one more apart. *)
Lemma first_raw_step (bound v : Z) :
  0 < bound ->
  4294967296 / bound <= rng.first_raw bound (v + 1) - rng.first_raw bound v
    <= 4294967296 / bound + 1.
Proof.
  intros Hb.
  pose proof (Z.div_mod 4294967296 bound ltac:(lia)) as E.
  pose proof (Z.mod_pos_bound 4294967296 bound Hb) as M.
  set (q := 4294967296 / bound) in *. set (r := 4294967296 mod bound) in *.
  assert (F : forall u, rng.first_raw bound u = (u * r + bound - 1) / bound + u * q).
  { intros u. unfold rng.first_raw.
    replace (u * 4294967296 + bound - 1) with (u * r + bound - 1 + (u * q) * bound) by nia.
    apply Z.div_add. lia. }
  rewrite !F.
  assert (L : (v * r + bound - 1) / bound <= ((v + 1) * r + bound - 1) / bound)
    by (apply Z.div_le_mono; lia).
  assert (U : ((v + 1) * r + bound - 1) / bound <= (v * r + bound - 1) / bound + 1).
  { rewrite <- (Z.div_add (v * r + bound - 1) 1 bound) by lia.
    apply Z.div_le_mono; lia. }
  lia.
Qed.

Lemma first_raw_exact (bound v : Z) :
  0 < bound -> 4294967296 mod bound = 0 ->
  rng.first_raw bound v = v * (4294967296 / bound).
Proof.
  intros Hb Hm.
  pose proof (Z.div_mod 4294967296 bound ltac:(lia)) as E. rewrite Hm in E.
  set (q := 4294967296 / bound) in *. unfold rng.first_raw.
  assert (E' : v * 4294967296 = v * q * bound) by (rewrite E at 1; ring).
  replace (v * 4294967296 + bound - 1) with (bound - 1 + (v * q) * bound) by lia.
  rewrite Z.div_add by lia. rewrite Z.div_small; lia.
Qed.

Lemma count_below_succ (p : Z -> bool) (n : N) :
  rng.count_below p (N.succ n)
  = if p (Z.of_N n) then rng.count_below p n + 1 else rng.count_below p n.
Proof. unfold rng.count_below. rewrite N.peano_rect_succ. reflexivity. Qed.

Lemma count_below_ext (p q : Z -> bool) (n : N) :
  (forall a, 0 <= a < Z.of_N n -> p a = q a) ->
  rng.count_below p n = rng.count_below q n.
Proof.
  induction n as [|n IH] using N.peano_ind; intros Hpq; [reflexivity|].
  rewrite !count_below_succ.
  rewrite IH by (intros; apply Hpq; lia).
  rewrite (Hpq (Z.of_N n)) by lia. reflexivity.
Qed.

Lemma count_below_interval (lo hi : Z) (n : N) :
  0 <= lo <= hi ->
  rng.count_below (fun a => (lo <=? a) && (a <? hi)) n
  = Z.max 0 (Z.min (Z.of_N n) hi - lo).
Proof.
  intros Hlo. induction n as [|n IH] using N.peano_ind.
  - unfold rng.count_below. simpl. lia.
  - rewrite count_below_succ, IH.
    destruct (Z.leb_spec lo (Z.of_N n)), (Z.ltb_spec (Z.of_N n) hi); simpl; lia.
Qed.

Lemma index_positive (max : Z) (e : entropy) :
  0 < max ->
  rng.index max e = (rng.scale max (getRandomValues e).1, consume e).
Proof.
  intros Hmax. unfold rng.index.
  destruct (Z.leb_spec max 0); [lia | reflexivity].
Qed.


Lemma index_next_raw (bound a0 : Z) :
  0 < bound -> 0 <= a0 < 4294967296 ->
  (rng.index bound (rng.next_raw a0)).1 = rng.scale bound a0.
Proof.
  intros Hb Ha. rewrite index_positive by exact Hb.
  unfold getRandomValues, rng.next_raw. cbn [fst raw32 used].
  rewrite Z.mod_small by (change (2 ^ 32) with 4294967296; lia). reflexivity.
Qed.

(** The raw values sent to [v] are those of an interval, so they are counted
    by its length. *)
Lemma draws_to_length (bound v : Z) :
  0 <= v < bound -> bound <= 2097152 ->
  rng.draws_to bound v = rng.first_raw bound (v + 1) - rng.first_raw bound v.
Proof.
  intros Hv Hmax. unfold rng.draws_to.
  assert (Hb : 0 < bound) by lia.
  pose proof (first_raw_mono bound 0 v Hb ltac:(lia)) as H0.
  pose proof (first_raw_mono bound v (v + 1) Hb ltac:(lia)) as H1.
  pose proof (first_raw_mono bound (v + 1) bound Hb ltac:(lia)) as H2.
  rewrite first_raw_0 in H0 by lia. rewrite first_raw_bound in H2 by lia.
  rewrite (count_below_ext _
             (fun a => (rng.first_raw bound v <=? a) && (a <? rng.first_raw bound (v + 1)))).
  - rewrite count_below_interval by lia.
    change (Z.of_N 4294967296) with 4294967296. lia.
  - intros a Ha. change (Z.of_N 4294967296) with 4294967296 in Ha.
    rewrite index_next_raw by lia.
    pose proof (scale_hits bound v a ltac:(lia) Ha) as S.
    destruct (Z.eqb_spec (rng.scale bound a) v) as [E|E],
             (Z.leb_spec (rng.first_raw bound v) a),
             (Z.ltb_spec a (rng.first_raw bound (v + 1))); simpl; try reflexivity; lia.
Qed.

(** When every value has the same number of raw draws, the thresholds are
    its multiples. *)
Lemma equal_draws_thresholds (bound c : Z) :
  0 < bound <= 2097152 ->
  (forall v, 0 <= v < bound -> rng.draws_to bound v = c) ->
  forall v, 0 <= v <= bound -> rng.first_raw bound v = v * c.
Proof.
  intros Hb Hc v [Hv0 Hv].
  revert Hv. pattern v. apply natlike_ind; [| |exact Hv0].
  - intros _. rewrite first_raw_0; lia.
  - intros x Hx IH Hx'.
    pose proof (Hc x ltac:(lia)) as D. rewrite draws_to_length in D by lia.
    replace (Z.succ x) with (x + 1) by lia. rewrite IH in D by lia. lia.
Qed.

(** C1, as the code has it, for a bound up to 2^21, where the product of
    the doubles is exact: [index bound] lies in [0, bound); each value of
    that range is returned on [2^32 / bound] raw draws or on one more, and
    all values have the same number of draws exactly when [bound] divides
    2^32; [index 0] is 0. *)
Theorem index_range_and_spread (bound : Z) (e : entropy) :
  1 <= bound <= 2097152 ->
  0 <= (rng.index bound e).1 < bound
  /\ (forall v, 0 <= v < bound ->
        4294967296 / bound <= rng.draws_to bound v <= 4294967296 / bound + 1)
  /\ ((forall v w, 0 <= v < bound -> 0 <= w < bound ->
         rng.draws_to bound v = rng.draws_to bound w)
      <-> 4294967296 mod bound = 0)
  /\ (rng.index 0 e).1 = 0.
Proof.
  intros Hb. assert (Hb' : 0 < bound) by lia.
  split; [|split; [|split]].
  - rewrite index_positive by lia. cbn [fst].
    apply scale_range; [lia | apply getRandomValues_range].
  - intros v Hv. rewrite draws_to_length by lia. apply first_raw_step. lia.
  - split.
    + intros Hall.
      pose proof (equal_draws_thresholds bound (rng.draws_to bound 0) ltac:(lia)
                    (fun v Hv => Hall v 0 Hv ltac:(lia)) bound ltac:(lia)) as T.
      rewrite first_raw_bound in T by lia.
      rewrite T, Z.mul_comm. apply Z.mod_mul. lia.
    + intros Hm v w Hv Hw.
      rewrite !draws_to_length, !first_raw_exact by lia. lia.
  - reflexivity.
Qed.

Lemma index_range_and_spread_witness :
  0 <= (rng.index 10 (rng.next_raw 3000000000)).1 < 10
  /\ (forall v, 0 <= v < 10 ->
        4294967296 / 10 <= rng.draws_to 10 v <= 4294967296 / 10 + 1)
  /\ ((forall v w, 0 <= v < 10 -> 0 <= w < 10 ->
         rng.draws_to 10 v = rng.draws_to 10 w)
      <-> 4294967296 mod 10 = 0)
  /\ (rng.index 0 (rng.next_raw 3000000000)).1 = 0.
Proof.
  apply (index_range_and_spread 10 (rng.next_raw 3000000000)). lia.
Defined.

(** C1 as stated fails at bound 3: of the 2^32 raw draws, 1431655766 give 0
    and 1431655765 give 1. *)
Lemma index_not_uniform_at_3 :
  rng.draws_to 3 0 = 1431655766 /\ rng.draws_to 3 1 = 1431655765.
Proof. rewrite !draws_to_length by lia. split; reflexivity. Qed.

Lemma binary_round_aux_not_negative (m e : Z) (l : location) :
  rng.not_negative (binary_round_aux 53 1024 false m e l).
Proof.
  unfold binary_round_aux.
  destruct (shr_fexp 53 1024 m e l) as [mrs e1].
  destruct (shr_fexp 53 1024 _ e1 loc_Exact) as [mrs2 e2].
  destruct (shr_m mrs2); [reflexivity| |exact I].
  destruct (e2 <=? 1024 - 53); reflexivity.
Qed.

Lemma to_double_not_negative (z : Z) : 0 <= z -> rng.not_negative (to_double z).
Proof.
  intros Hz. destruct z as [|p|p]; [reflexivity| |lia].
  unfold to_double, binary_normalize, binary_round.
  destruct (shl_align _ _ _) as [mz ez]. apply binary_round_aux_not_negative.
Qed.

Lemma div_not_negative (x y : number) :
  rng.not_negative x -> rng.not_negative y -> rng.not_negative (rng.div x y).
Proof.
  destruct x as [sx|sx| |sx mx ex], y as [sy|sy| |sy my ey]; cbn; intros Hx Hy;
    try exact I; subst; try reflexivity.
  destruct (SFdiv_core_binary 53 1024 (Z.pos mx) ex (Z.pos my) ey) as [[mz ez] lz].
  apply binary_round_aux_not_negative.
Qed.

Lemma mul_not_negative (x y : number) :
  rng.not_negative x -> rng.not_negative y -> rng.not_negative (rng.mul x y).
Proof.
  destruct x as [sx|sx| |sx mx ex], y as [sy|sy| |sy my ey]; cbn; intros Hx Hy;
    try exact I; subst; try reflexivity.
  apply binary_round_aux_not_negative.
Qed.

Lemma Math_floor_not_negative (x : number) :
  rng.not_negative x -> 0 <= rng.Math_floor x.
Proof.
  destruct x as [s|s| |s m e]; unfold rng.not_negative, rng.Math_floor;
    intros Hx; try lia. subst s.
  destruct (Z.leb_spec 0 e).
  - assert (0 <= 2 ^ e) by (apply Z.pow_nonneg; lia). nia.
  - apply Z.div_pos; [lia|]. apply Z.pow_pos_nonneg; lia.
Qed.

Lemma scale_not_negative (max a0 : Z) : 0 <= max -> 0 <= a0 -> 0 <= rng.scale max a0.
Proof.
  intros Hmax Ha. unfold rng.scale. cbv zeta.
  apply Math_floor_not_negative, mul_not_negative;
    [apply div_not_negative|]; apply to_double_not_negative; lia.
Qed.


End RandomSource.

(** ** The state store *)

Section StateStore.

Lemma run_snoc (ops : list state.op) (o : state.op) (d : state.data) :
  state.run (ops ++ [o]) d = state.apply o (state.run ops d).
Proof. unfold state.run. rewrite foldl_app. reflexivity. Qed.

Lemma take_cons_take {A} (n : nat) (x : A) (l : list A) :
  take (S n) (x :: take (S n) l) = take (S n) (x :: l).
Proof.
  cbn [take]. f_equal. rewrite take_take. f_equal. lia.
Qed.

(** After at least one [addHistory], the history is the calls' entries, last
    call first, followed by the history there was, cut at 20. *)
Lemma addHistory_run (es : list entry) (d : state.data) :
  es <> [] ->
  state.history (state.run (List.map state.AddHistory es) d)
  = take 20 (reverse es ++ state.history d).
Proof.
  induction es as [|e es IH] using rev_ind; intros Hne; [congruence|].
  rewrite List.map_app. cbn [List.map]. rewrite run_snoc, reverse_snoc.
  cbn [state.apply state.addHistory state.history].
  destruct es as [|e' es'].
  - reflexivity.
  - rewrite IH by discriminate. apply take_cons_take.
Qed.

(** C9: after any sequence of [addHistory] calls the history holds at most 20
    entries, the most recent call's first: it is the entries of the calls in
    reverse order, then the earlier history, cut at 20. *)
Theorem history_bounded_recent_first (e : entry) (es : list entry) (d : state.data) :
  let d' := state.run (List.map state.AddHistory (e :: es)) d in
  state.history d' = take 20 (reverse (e :: es) ++ state.history d)
  /\ length (state.history d') <= 20
  /\ length (state.history (state.run (List.map state.AddHistory es) state.initial)) <= 20.
Proof.
  cbv zeta. rewrite addHistory_run by discriminate.
  split; [reflexivity|]. split.
  - rewrite length_take. lia.
  - destruct es as [|e' es']; [simpl; lia|].
    rewrite addHistory_run by discriminate. rewrite length_take. lia.
Qed.

Lemma setNames_prunes (newNames : list name) (d : state.data) :
  state.absent_ok (state.setNames newNames d).
Proof.
  intros k Hk. cbn [state.setNames state.absentKeys state.names] in *.
  apply list_elem_of_In, filter_In in Hk. destruct Hk as [_ Hk].
  apply bool_decide_eq_true in Hk. exact Hk.
Qed.

Lemma new_Set_elem (k : jsstring) (items : list jsstring) :
  k ∈ new_Set items <-> k ∈ items.
Proof.
  induction items as [|x items IH]; [reflexivity|].
  cbn [new_Set]. rewrite !elem_of_cons, list_elem_of_In, filter_In, <- list_elem_of_In, IH.
  rewrite negb_true_iff, bool_decide_eq_false.
  destruct (decide (k = x)); intuition.
Qed.

Lemma apply_keeps_absent_ok (o : state.op) (d : state.data) :
  state.absent_ok d -> state.respects_roster o d -> state.absent_ok (state.apply o d).
Proof.
  intros Hd Ho. destruct o as [c|p|ns|k b| |e| |s]; cbn [state.apply].
  - exact Hd.
  - intros k Hk. cbn in *. rewrite new_Set_elem in Hk. auto.
  - apply setNames_prunes.
  - intros k' Hk'. cbn in *. destruct b.
    + case_bool_decide; [auto|].
      apply elem_of_app in Hk' as [Hk'|Hk']; [auto|].
      apply list_elem_of_singleton in Hk'. subst k'. exact Ho.
    + apply list_elem_of_In, filter_In in Hk'. destruct Hk' as [Hk' _].
      apply list_elem_of_In in Hk'. auto.
  - intros k Hk. cbn in Hk. apply elem_of_nil in Hk. contradiction.
  - exact Hd.
  - exact Hd.
  - exact Hd.
Qed.

(** C4, as the code has it: [setNames] leaves in the absence set only keys
    of the new roster, whatever the set held; and the invariant survives any
    sequence of mutators in which [toggleAbsent] marks only keys of the
    roster and [updateFromStorage] loads only documents that satisfy it. *)
Theorem absence_invariant (ops : list state.op) (d : state.data) :
  state.absent_ok d ->
  state.all_respect_roster ops d ->
  state.absent_ok (state.run ops d)
  /\ (forall newNames d0, state.absent_ok (state.setNames newNames d0)).
Proof.
  intros Hd Hops. split; [|intros; apply setNames_prunes].
  revert d Hd Hops. induction ops as [|o ops IH]; intros d Hd Hops; [exact Hd|].
  destruct Hops as [Ho Hops]. apply IH; [apply apply_keeps_absent_ok; assumption|exact Hops].
Qed.

Lemma absence_invariant_witness :
  let anna := {| raw := js "Anna"; key := js "anna" |} in
  let bob := {| raw := js "Bob"; key := js "bob" |} in
  let ops := [state.SetNames [anna; bob]; state.ToggleAbsent (js "bob") true;
              state.ToggleAbsent (js "anna") true; state.SetNames [anna];
              state.ToggleAbsent (js "zed") false; state.ClearAbsent] in
  state.absent_ok (state.run ops state.initial)
  /\ (forall newNames d0, state.absent_ok (state.setNames newNames d0)).
Proof.
  apply (absence_invariant
           [state.SetNames [{| raw := js "Anna"; key := js "anna" |};
                            {| raw := js "Bob"; key := js "bob" |}];
            state.ToggleAbsent (js "bob") true;
            state.ToggleAbsent (js "anna") true;
            state.SetNames [{| raw := js "Anna"; key := js "anna" |}];
            state.ToggleAbsent (js "zed") false; state.ClearAbsent]
           state.initial).
  - intros k Hk. cbn in Hk. apply elem_of_nil in Hk. contradiction.
  - cbn [state.all_respect_roster state.respects_roster].
    repeat split; apply (bool_decide_unpack _); vm_compute; exact I.
Defined.

(** C4 as stated fails: [toggleAbsent] on a key that is in no roster entry
    leaves that key in the absence set. *)
Lemma toggleAbsent_unknown_key :
  let d := state.toggleAbsent (js "ghost") true state.initial in
  state.absentKeys d = [js "ghost"] /\ state.names d = [].
Proof. split; reflexivity. Qed.

End StateStore.

(** ** The key deriver *)

Section KeyDeriver.
Context {H : Host}.

Lemma forallb_Forall (f : N -> bool) (s : jsstring) :
  Forall (fun c => f c = true) s -> forallb f s = true.
Proof. induction 1 as [|c s Hc _ IH]; simpl; [reflexivity|]. rewrite Hc, IH. reflexivity. Qed.

Lemma replace_runs_from_chars (p q : N -> bool) (rep : jsstring) (b : bool) (s : jsstring) :
  Forall (fun c => q c = true) rep ->
  Forall (fun c => p c = false -> q c = true) s ->
  Forall (fun c => q c = true) (replace_runs_from p rep b s).
Proof.
  intros Hrep Hs. revert b. induction Hs as [|c s Hc _ IH]; intros b; simpl.
  - constructor.
  - destruct (p c) eqn:Ep.
    + apply Forall_app. split; [destruct b; [constructor|exact Hrep]|apply IH].
    + constructor; [auto|apply IH].
Qed.

Lemma no_hyphen_pair_cons (c d : N) (t : jsstring) :
  no_hyphen_pair (c :: d :: t)
  = negb (is_hyphen c && is_hyphen d) && no_hyphen_pair (d :: t).
Proof. reflexivity. Qed.

(** Collapsing the runs of hyphens leaves no two hyphens in a row, and no
    hyphen at the start when the text before was already a run. *)
Lemma collapse_hyphens_no_pair (b : bool) (s : jsstring) :
  let out := replace_runs_from is_hyphen (js "-") b s in
  no_hyphen_pair out = true /\ (b = true -> is_hyphen_at (head out) = false).
Proof.
  cbv zeta. revert b. induction s as [|c s IH]; intros b.
  - split; [reflexivity|]. intros _. reflexivity.
  - cbn [replace_runs_from]. destruct (is_hyphen c) eqn:Ec.
    + destruct (IH true) as [IH1 IH2]. specialize (IH2 eq_refl).
      destruct b; [split; [exact IH1|intros _; exact IH2]|].
      split; [|discriminate].
      change (js "-" ++ ?t) with (cu "-" :: t).
      destruct (replace_runs_from is_hyphen (js "-") true s) as [|d t] eqn:Et; [reflexivity|].
      rewrite no_hyphen_pair_cons. cbn in IH2. rewrite IH2, IH1, andb_false_r. reflexivity.
    + destruct (IH false) as [IH1 _].
      split; [|intros _; cbn; exact Ec].
      destruct (replace_runs_from is_hyphen (js "-") false s) as [|d t] eqn:Et; [reflexivity|].
      rewrite no_hyphen_pair_cons. rewrite Ec, IH1. reflexivity.
Qed.

Lemma no_hyphen_pair_tail (c : N) (s : jsstring) :
  no_hyphen_pair (c :: s) = true -> no_hyphen_pair s = true.
Proof. destruct s as [|d t]; [reflexivity|]. rewrite no_hyphen_pair_cons. intros E. apply andb_true_iff in E. tauto. Qed.

Lemma drop_leading_hyphen_shape (s : jsstring) :
  no_hyphen_pair s = true ->
  no_hyphen_pair (drop_leading_hyphen s) = true
  /\ is_hyphen_at (head (drop_leading_hyphen s)) = false.
Proof.
  intros Hs. destruct s as [|c s]; [split; reflexivity|].
  cbn [drop_leading_hyphen]. destruct (is_hyphen c) eqn:Ec.
  - split; [eapply no_hyphen_pair_tail; exact Hs|].
    destruct s as [|d t]; [reflexivity|].
    rewrite no_hyphen_pair_cons in Hs. rewrite Ec in Hs. cbn.
    destruct (is_hyphen d); [discriminate|reflexivity].
  - split; [exact Hs|exact Ec].
Qed.

Lemma drop_leading_hyphen_chars (q : N -> bool) (s : jsstring) :
  Forall (fun c => q c = true) s -> Forall (fun c => q c = true) (drop_leading_hyphen s).
Proof.
  intros Hs. destruct Hs as [|c s Hc Hs]; [constructor|].
  cbn. destruct (is_hyphen c); [exact Hs|constructor; assumption].
Qed.

Lemma drop_trailing_hyphen_chars (q : N -> bool) (s : jsstring) :
  Forall (fun c => q c = true) s -> Forall (fun c => q c = true) (drop_trailing_hyphen s).
Proof.
  induction 1 as [|c s Hc Hs IH]; [constructor|].
  cbn [drop_trailing_hyphen]. destruct s as [|d t].
  - destruct (is_hyphen c); constructor; [assumption|constructor].
  - constructor; assumption.
Qed.

Lemma drop_trailing_hyphen_head (s : jsstring) :
  drop_trailing_hyphen s = [] \/ head (drop_trailing_hyphen s) = head s.
Proof.
  destruct s as [|c [|d t]]; [left; reflexivity| |right; reflexivity].
  cbn. destruct (is_hyphen c); [left|right]; reflexivity.
Qed.

Lemma drop_trailing_hyphen_shape (s : jsstring) :
  no_hyphen_pair s = true ->
  no_hyphen_pair (drop_trailing_hyphen s) = true
  /\ is_hyphen_at (last (drop_trailing_hyphen s)) = false.
Proof.
  induction s as [|c s IH]; intros Hp; [split; reflexivity|].
  destruct s as [|d t].
  - cbn [drop_trailing_hyphen]. destruct (is_hyphen c) eqn:Ec; [split; reflexivity|].
    split; [reflexivity|]. change (last [c]) with (Some c). exact Ec.
  - pose proof (no_hyphen_pair_tail _ _ Hp) as Hp'.
    destruct (IH Hp') as [A B].
    rewrite no_hyphen_pair_cons in Hp. apply andb_true_iff in Hp as [Hcd _].
    change (drop_trailing_hyphen (c :: d :: t)) with (c :: drop_trailing_hyphen (d :: t)).
    destruct t as [|d' t'].
    + cbn [drop_trailing_hyphen]. destruct (is_hyphen d) eqn:Ed.
      * destruct (is_hyphen c) eqn:Ec; [discriminate|].
        split; [reflexivity|]. change (last [c]) with (Some c). exact Ec.
      * rewrite no_hyphen_pair_cons, Ed, andb_false_r.
        split; [reflexivity|]. change (last [c; d]) with (Some d). exact Ed.
    + change (drop_trailing_hyphen (d :: d' :: t')) with (d :: drop_trailing_hyphen (d' :: t')) in *.
      split; [|exact B].
      rewrite no_hyphen_pair_cons. rewrite Hcd. exact A.
Qed.

Lemma strip_edge_hyphens_shape (s : jsstring) :
  no_hyphen_pair s = true ->
  Forall (fun c => is_key_char c = true) s ->
  strip_edge_hyphens s <> [] ->
  well_formed_key (strip_edge_hyphens s) = true.
Proof.
  intros Hp Hc Hne. unfold strip_edge_hyphens in *.
  destruct (drop_leading_hyphen_shape s Hp) as [Hp1 Hh1].
  destruct (drop_trailing_hyphen_shape _ Hp1) as [Hp2 Hl2].
  pose proof (drop_trailing_hyphen_chars _ _ (drop_leading_hyphen_chars _ _ Hc)) as Hc2.
  unfold well_formed_key.
  rewrite bool_decide_eq_false_2 by exact Hne.
  rewrite (forallb_Forall _ _ Hc2), Hl2, Hp2.
  destruct (drop_trailing_hyphen_head (drop_leading_hyphen s)) as [E|E]; [contradiction|].
  rewrite E, Hh1. reflexivity.
Qed.

(** A non-empty slug has the shape of a key. *)
Lemma slug_shape (raw : jsstring) :
  utils.slug raw <> [] -> well_formed_key (utils.slug raw) = true.
Proof.
  unfold utils.slug. cbv zeta.
  set (lower := toLocaleLowerCase_cs _).
  set (kept := List.filter _ lower).
  intros Hne. apply strip_edge_hyphens_shape; [| |exact Hne].
  - apply (collapse_hyphens_no_pair false).
  - assert (Hd : Forall (fun c => is_key_char c = true)
                   (replace_runs is_space (js "-") kept)).
    { apply replace_runs_from_chars; [repeat constructor|].
      apply Forall_forall. intros c Hc Hs.
      apply list_elem_of_In, filter_In in Hc as [_ Hc].
      unfold is_key_char. rewrite Hs, orb_false_r in Hc. exact Hc. }
    apply replace_runs_from_chars; [repeat constructor|].
    eapply Forall_impl; [exact Hd|]. intros c Hc _. exact Hc.
Qed.

Lemma hex_digit_class (d : Z) :
  (0 <= d < 16)%Z ->
  is_key_char (hex_digit d) = true
  /\ is_hyphen (hex_digit d) = false
  /\ hex_digit_value (hex_digit d) = d.
Proof.
  intros Hd.
  assert (E : (d = 0 \/ d = 1 \/ d = 2 \/ d = 3 \/ d = 4 \/ d = 5 \/ d = 6 \/ d = 7
               \/ d = 8 \/ d = 9 \/ d = 10 \/ d = 11 \/ d = 12 \/ d = 13 \/ d = 14
               \/ d = 15)%Z) by lia.
  repeat (destruct E as [E|E]; [subst d; repeat split; reflexivity|]).
  subst d; repeat split; reflexivity.
Qed.

Lemma hex_value_app (ds : jsstring) (c : N) :
  hex_value (ds ++ [c]) = (hex_value ds * 16 + hex_digit_value c)%Z.
Proof. unfold hex_value. rewrite foldl_app. reflexivity. Qed.

Lemma hex_digits_S (fuel : nat) (n : Z) (acc : jsstring) :
  hex_digits (S fuel) n acc
  = if (n / 16 =? 0)%Z then hex_digit (n mod 16) :: acc
    else hex_digits fuel (n / 16) (hex_digit (n mod 16) :: acc).
Proof. reflexivity. Qed.

(** The digits [hex_digits] puts before [acc]: at least one, all of them
    hexadecimal, and denoting [n] when the fuel covers the length of [n]. *)
Lemma hex_digits_spec (fuel : nat) (n : Z) (acc : jsstring) :
  exists ds,
    hex_digits (S fuel) n acc = ds ++ acc
    /\ ds <> []
    /\ Forall (fun c => is_key_char c = true /\ is_hyphen c = false) ds
    /\ ((0 <= n < 16 ^ Z.of_nat (S fuel))%Z -> hex_value ds = n).
Proof.
  revert n acc. induction fuel as [|fuel IH]; intros n acc.
  - exists [hex_digit (n mod 16)].
    destruct (hex_digit_class (n mod 16)) as (A & B & C); [apply Z.mod_pos_bound; lia|].
    split; [cbn; destruct (n / 16 =? 0)%Z; reflexivity|].
    split; [discriminate|]. split; [repeat constructor; assumption|].
    intros Hn. cbn. rewrite C. apply Z.mod_small. exact Hn.
  - destruct (hex_digit_class (n mod 16)) as (A & B & C); [apply Z.mod_pos_bound; lia|].
    rewrite hex_digits_S.
    destruct (Z.eqb_spec (n / 16) 0) as [E|E].
    + exists [hex_digit (n mod 16)]. split; [reflexivity|].
      split; [discriminate|]. split; [repeat constructor; assumption|].
      intros Hn. cbn. rewrite C.
      pose proof (Z.div_mod n 16 ltac:(lia)). lia.
    + destruct (IH (n / 16)%Z (hex_digit (n mod 16) :: acc)) as (ds & E1 & E2 & E3 & E4).
      exists (ds ++ [hex_digit (n mod 16)]).
      split; [rewrite E1, <- app_assoc; reflexivity|].
      split; [destruct ds; discriminate|].
      split; [apply Forall_app; split; [exact E3|repeat constructor; assumption]|].
      intros Hn. rewrite hex_value_app, C, E4.
      * pose proof (Z.div_mod n 16 ltac:(lia)). lia.
      * split; [apply Z.div_pos; lia|].
        apply Z.div_lt_upper_bound; [lia|].
        replace (Z.of_nat (S (S fuel))) with (Z.succ (Z.of_nat (S fuel))) in Hn by lia.
        rewrite Z.pow_succ_r in Hn by lia. lia.
Qed.

Lemma no_hyphen_pair_free (s : jsstring) :
  Forall (fun c => is_key_char c = true /\ is_hyphen c = false) s ->
  no_hyphen_pair s = true.
Proof.
  induction 1 as [|c s [_ Hc] _ IH]; [reflexivity|].
  destruct s as [|d t]; [reflexivity|]. rewrite no_hyphen_pair_cons. rewrite Hc, IH. reflexivity.
Qed.

Lemma fallback_shape (n : Z) :
  well_formed_key (js "id-" ++ toString16 n) = true.
Proof.
  unfold toString16.
  destruct (hex_digits_spec 7 n []) as (ds & E & Hne & Hds & _).
  rewrite E, app_nil_r.
  destruct ds as [|c ds]; [contradiction|].
  pose proof (no_hyphen_pair_free _ Hds) as Hp.
  assert (Hl : is_hyphen_at (last (c :: ds)) = false).
  { destruct (last (c :: ds)) as [x|] eqn:El; [|reflexivity].
    apply last_Some_elem_of in El. rewrite Forall_forall in Hds.
    cbn. apply Hds. exact El. }
  assert (Hk : forallb is_key_char (c :: ds) = true).
  { apply forallb_Forall. eapply Forall_impl; [exact Hds|]. intros x Hx. apply Hx. }
  inversion Hds as [|? ? [_ Hc] _]; subst.
  unfold well_formed_key.
  change (js "id-" ++ c :: ds) with (cu "i" :: cu "d" :: cu "-" :: c :: ds).
  rewrite bool_decide_eq_false_2 by discriminate.
  change (last (cu "i" :: cu "d" :: cu "-" :: c :: ds)) with (last (c :: ds)).
  change (forallb is_key_char (cu "i" :: cu "d" :: cu "-" :: c :: ds))
    with (forallb is_key_char (c :: ds)).
  rewrite 3!no_hyphen_pair_cons, Hk, Hl, Hc, Hp. reflexivity.
Qed.

Lemma createKey_slug (raw : jsstring) (e : entropy) :
  utils.slug raw <> [] -> utils.createKey raw e = (utils.slug raw, e).
Proof.
  intros Hne. unfold utils.createKey. cbv zeta.
  rewrite bool_decide_eq_false_2 by exact Hne. reflexivity.
Qed.

Lemma createKey_fallback (raw : jsstring) (e : entropy) :
  utils.slug raw = [] ->
  utils.createKey raw e = (js "id-" ++ toString16 (getRandomValues e).1, consume e).
Proof.
  intros E. unfold utils.createKey. cbv zeta.
  rewrite bool_decide_eq_true_2 by exact E. reflexivity.
Qed.

(** C5, as the code has it: the key is never empty and always has the shape
    of a key; when the slug of the input is not empty the key is that slug,
    whatever the entropy source holds, and no entropy is used; otherwise it
    is [id-] followed by the hexadecimal digits of the raw 32-bit draw. *)
Theorem createKey_shape_and_determinism (raw : jsstring) (e : entropy) :
  well_formed_key (utils.createKey raw e).1 = true
  /\ (utils.slug raw <> [] ->
      forall e2, utils.createKey raw e2 = (utils.slug raw, e2))
  /\ (utils.slug raw = [] ->
      utils.createKey raw e = (js "id-" ++ toString16 (getRandomValues e).1, consume e)
      /\ hex_value (toString16 (getRandomValues e).1) = (getRandomValues e).1).
Proof.
  split; [|split].
  - destruct (decide (utils.slug raw = [])) as [E|E].
    + rewrite createKey_fallback by exact E. apply fallback_shape.
    + rewrite createKey_slug by exact E. apply slug_shape. exact E.
  - intros Hne e2. apply createKey_slug. exact Hne.
  - intros E. split; [apply createKey_fallback; exact E|].
    unfold toString16.
    destruct (hex_digits_spec 7 (getRandomValues e).1 []) as (ds & E1 & _ & _ & E4).
    rewrite E1, app_nil_r. apply E4.
    pose proof (getRandomValues_range e). change (16 ^ Z.of_nat 8)%Z with 4294967296%Z. lia.
Qed.

End KeyDeriver.

(** C5 as stated fails on an input with an empty slug: two calls on ["!"]
    return different keys when the raw draws differ. *)
Lemma createKey_fallback_differs :
  (utils.createKey (H := ascii_host) (js "!") (Entropy (fun _ => 1%Z) (fun _ => []) 0)).1
    = js "id-1"
  /\ (utils.createKey (H := ascii_host) (js "!") (Entropy (fun _ => 2%Z) (fun _ => []) 0)).1
    = js "id-2".
Proof. split; reflexivity. Qed.

(** ** The name set merger *)

Section NameSetMerger.
Context {H : Host}.

(** One [map.set(item.key, item)]. *)
Local Abbreviation step := (fun (m : list (jsstring * name)) (n : name) => utils.map_set (key n) n m).

Lemma merge_loop_incoming (rawNames : list jsstring) (m : list (jsstring * name)) (e : entropy) :
  utils.merge_loop rawNames m e
  = (foldl step m (utils.incoming rawNames e).1, (utils.incoming rawNames e).2).
Proof.
  revert m e. induction rawNames as [|raw rest IH]; intros m e; [reflexivity|].
  cbn [utils.merge_loop utils.incoming].
  destruct (bool_decide (utils.clean raw = [])); [apply IH|].
  unfold bind. destruct (utils.createKey (utils.clean raw) e) as [k e1].
  rewrite IH. destruct (utils.incoming rest e1) as [more e2]. reflexivity.
Qed.

Lemma new_Map_foldl (existing : list name) :
  utils.new_Map (List.map (fun item => (key item, item)) existing) = foldl step [] existing.
Proof.
  unfold utils.new_Map. generalize (@nil (jsstring * name)).
  induction existing as [|n l IH]; intros m; [reflexivity|]. cbn. apply IH.
Qed.

Lemma mergeNames_foldl (existing : list name) (rawNames : list jsstring) (e : entropy) :
  utils.mergeNames existing rawNames e
  = (List.map snd (foldl step [] (existing ++ (utils.incoming rawNames e).1)),
     (utils.incoming rawNames e).2).
Proof.
  unfold utils.mergeNames, bind. rewrite merge_loop_incoming, new_Map_foldl, foldl_app.
  reflexivity.
Qed.

Lemma map_set_keys (k : jsstring) (v : name) (m : list (jsstring * name)) :
  List.map fst (utils.map_set k v m)
  = if bool_decide (k ∈ List.map fst m) then List.map fst m else List.map fst m ++ [k].
Proof.
  induction m as [|[k' v'] m IH]; [reflexivity|].
  cbn [utils.map_set List.map fst]. destruct (decide (k = k')) as [->|Hne].
  - rewrite bool_decide_eq_true_2 by apply list_elem_of_here. reflexivity.
  - cbn [List.map fst]. rewrite IH. repeat case_bool_decide; try reflexivity.
    + exfalso. rewrite elem_of_cons in *. tauto.
    + exfalso. rewrite elem_of_cons in *. tauto.
Qed.

Lemma map_set_entries (k : jsstring) (v : name) (m : list (jsstring * name)) :
  NoDup (List.map fst m) ->
  forall k' v', (k', v') ∈ utils.map_set k v m
    <-> (k' = k /\ v' = v) \/ (k' <> k /\ (k', v') ∈ m).
Proof.
  induction m as [|[k0 v0] m IH]; intros Hnd k' v'.
  - cbn. rewrite list_elem_of_singleton, elem_of_nil.
    split; [intros [= -> ->]; tauto|intros [[-> ->]|[_ []]]; reflexivity].
  - cbn [List.map fst] in Hnd. apply NoDup_cons in Hnd as [Hk0 Hnd].
    cbn [utils.map_set]. destruct (decide (k = k0)) as [->|Hne].
    + rewrite !elem_of_cons. split.
      * intros [[= -> ->]|Hin]; [tauto|]. right. split; [|tauto].
        intros ->. apply Hk0. apply list_elem_of_fmap. exists (k0, v'). split; [reflexivity|exact Hin].
      * intros [[-> ->]|[Hne [[= -> ->]|Hin]]]; [tauto|congruence|tauto].
    + rewrite !elem_of_cons, (IH Hnd). split.
      * intros [[= -> ->]|[[-> ->]|[Hne' Hin]]]; [right; split; [congruence|tauto]|tauto|tauto].
      * intros [[-> ->]|[Hne' [[= -> ->]|Hin]]]; tauto.
Qed.

Lemma new_Set_snoc (ks : list jsstring) (k : jsstring) :
  new_Set (ks ++ [k]) = if bool_decide (k ∈ ks) then new_Set ks else new_Set ks ++ [k].
Proof.
  induction ks as [|x ks IH]; [reflexivity|].
  cbn [app new_Set]. rewrite IH.
  destruct (decide (k = x)) as [->|Hne].
  - rewrite (bool_decide_eq_true_2 (x ∈ x :: ks)) by apply list_elem_of_here.
    case_bool_decide; [reflexivity|].
    rewrite List.filter_app. cbn. rewrite bool_decide_eq_true_2 by reflexivity.
    cbn. rewrite app_nil_r. reflexivity.
  - case_bool_decide as Hin.
    + rewrite bool_decide_eq_true_2 by (apply list_elem_of_further; exact Hin). reflexivity.
    + rewrite bool_decide_eq_false_2 by (rewrite elem_of_cons; tauto).
      rewrite List.filter_app. cbn. rewrite bool_decide_eq_false_2 by exact Hne. reflexivity.
Qed.

Lemma new_Set_NoDup (ks : list jsstring) : NoDup (new_Set ks).
Proof.
  induction ks as [|x ks IH]; [constructor|].
  cbn [new_Set]. apply NoDup_cons. split.
  - rewrite list_elem_of_In, filter_In, bool_decide_eq_true_2 by reflexivity.
    cbn. intros [_ [=]].
  - apply NoDup_ListNoDup, List.NoDup_filter, NoDup_ListNoDup, IH.
Qed.

(** The Map after the entries of [l] were set in order. *)
Lemma foldl_step_spec (l : list name) :
  let m := foldl step [] l in
  List.map fst m = new_Set (List.map key l)
  /\ (forall k v, (k, v) ∈ m <-> utils.last_with_key k l = Some v)
  /\ (forall k v, (k, v) ∈ m -> key v = k).
Proof.
  cbv zeta. induction l as [|n l (IHk & IHv & IHc)] using rev_ind.
  - split; [reflexivity|]. split; [|intros k v Hin; apply elem_of_nil in Hin; contradiction].
    intros k v. cbn. rewrite elem_of_nil. split; [contradiction|discriminate].
  - rewrite foldl_app. cbn [foldl].
    assert (Hnd : NoDup (List.map fst (foldl step [] l))) by (rewrite IHk; apply new_Set_NoDup).
    split; [|split].
    + rewrite map_set_keys, List.map_app. cbn [List.map]. rewrite new_Set_snoc, IHk.
      rewrite (bool_decide_ext _ _ (new_Set_elem (key n) (List.map key l))). reflexivity.
    + intros k v. rewrite (map_set_entries _ _ _ Hnd), IHv.
      unfold utils.last_with_key. rewrite List.filter_app. cbn [List.filter].
      case_bool_decide as Hk.
      * rewrite last_snoc. split; [intros [[-> ->]|[Hne _]]; [reflexivity|congruence]|].
        intros [= ->]. left. split; congruence.
      * rewrite app_nil_r. split; [intros [[-> _]|[_ Hl]]; [congruence|exact Hl]|].
        intros Hl. right. split; [congruence|exact Hl].
    + intros k v Hin. apply (map_set_entries _ _ _ Hnd) in Hin as [[-> ->]|[_ Hin]]; [reflexivity|].
      apply IHc. exact Hin.
Qed.

Lemma map_set_fresh (k : jsstring) (v : name) (m : list (jsstring * name)) :
  k ∉ List.map fst m -> utils.map_set k v m = m ++ [(k, v)].
Proof.
  induction m as [|[k0 v0] m IH]; intros Hk; [reflexivity|].
  cbn [List.map fst] in Hk. rewrite elem_of_cons in Hk.
  cbn [utils.map_set]. rewrite decide_False by tauto.
  cbn [app]. f_equal. apply IH. tauto.
Qed.

Lemma foldl_step_nodup (l : list name) :
  NoDup (List.map key l) -> foldl step [] l = List.map (fun n => (key n, n)) l.
Proof.
  induction l as [|n l IH] using rev_ind; intros Hnd; [reflexivity|].
  rewrite List.map_app in Hnd. apply NoDup_app in Hnd as (Hl & Hn & _).
  rewrite foldl_app, List.map_app, IH by exact Hl. cbn [foldl List.map].
  apply map_set_fresh. rewrite List.map_map. cbn [fst].
  intros Hin. apply (Hn (key n)); [exact Hin|apply list_elem_of_here].
Qed.

Lemma map_set_same (k : jsstring) (v : name) (m : list (jsstring * name)) :
  NoDup (List.map fst m) -> (k, v) ∈ m -> utils.map_set k v m = m.
Proof.
  induction m as [|[k0 v0] m IH]; intros Hnd Hin; [apply elem_of_nil in Hin; contradiction|].
  cbn [List.map fst] in Hnd. apply NoDup_cons in Hnd as [Hk0 Hnd].
  cbn [utils.map_set]. apply elem_of_cons in Hin as [[= -> ->]|Hin].
  - rewrite decide_True by reflexivity. reflexivity.
  - destruct (decide (k = k0)) as [->|Hne].
    + exfalso. apply Hk0. apply list_elem_of_fmap. exists (k0, v). split; [reflexivity|exact Hin].
    + f_equal. apply IH; assumption.
Qed.

Lemma filter_key_nodup (n : name) (l : list name) :
  NoDup (List.map key l) -> n ∈ l ->
  List.filter (fun x => bool_decide (key x = key n)) l = [n].
Proof.
  induction l as [|x l IH]; intros Hnd Hin; [apply elem_of_nil in Hin; contradiction|].
  cbn [List.map] in Hnd. apply NoDup_cons in Hnd as [Hx Hnd].
  assert (Hnone : forall y, key y ∉ List.map key l ->
            List.filter (fun x => bool_decide (key x = key y)) l = []).
  { intros y Hy. clear -Hy. induction l as [|z l IHl]; [reflexivity|].
    cbn. rewrite bool_decide_eq_false_2.
    - apply IHl. intros Hin. apply Hy. apply list_elem_of_further. exact Hin.
    - intros E. apply Hy. rewrite <- E. apply list_elem_of_here. }
  cbn [List.filter]. apply elem_of_cons in Hin as [->|Hin].
  - rewrite bool_decide_eq_true_2 by reflexivity. rewrite Hnone by exact Hx. reflexivity.
  - rewrite bool_decide_eq_false_2; [apply IH; assumption|].
    intros E. apply Hx. rewrite E. apply list_elem_of_fmap. exists n. split; [reflexivity|exact Hin].
Qed.

Lemma mergeNames_keys (existing : list name) (rawNames : list jsstring) (e : entropy) :
  List.map key (utils.mergeNames existing rawNames e).1
  = new_Set (List.map key (existing ++ (utils.incoming rawNames e).1)).
Proof.
  rewrite mergeNames_foldl. cbn [fst].
  destruct (foldl_step_spec (existing ++ (utils.incoming rawNames e).1)) as (Hk & _ & Hc).
  rewrite <- Hk. rewrite List.map_map. apply map_ext_in.
  intros [k v] Hin. apply list_elem_of_In in Hin. cbn. apply Hc. exact Hin.
Qed.

Lemma mergeNames_elem (existing : list name) (rawNames : list jsstring) (e : entropy) (n : name) :
  n ∈ (utils.mergeNames existing rawNames e).1
  <-> utils.last_with_key (key n) (existing ++ (utils.incoming rawNames e).1) = Some n.
Proof.
  rewrite mergeNames_foldl. cbn [fst].
  destruct (foldl_step_spec (existing ++ (utils.incoming rawNames e).1)) as (_ & Hv & Hc).
  rewrite <- Hv. rewrite list_elem_of_fmap. split.
  - intros ([k v] & -> & Hin). cbn. rewrite (Hc _ _ Hin). exact Hin.
  - intros Hin. exists (key n, n). split; [reflexivity|exact Hin].
Qed.

Lemma incoming_single (raw : jsstring) (e : entropy) :
  utils.clean raw <> [] -> utils.slug (utils.clean raw) <> [] ->
  utils.incoming [raw] e
  = ([{| raw := utils.clean raw; key := utils.slug (utils.clean raw) |}], e).
Proof.
  intros Hc Hs. cbn [utils.incoming].
  rewrite bool_decide_eq_false_2 by exact Hc.
  unfold bind. rewrite createKey_slug by exact Hs. reflexivity.
Qed.

(** C7, as the code has it.  The keys of the merged roster are those of the
    existing entries and of the incoming names, each once, in the order of
    their first occurrence (so existing keys stay in place and new ones are
    appended in input order), and each entry is the last one set for its key.
    For a raw name whose key is its non-empty slug, merging it twice leaves
    what the first merge gave: one entry for that key, with the cleaned text
    of the name. *)
Theorem mergeNames_roster (existing : list name) (rawNames : list jsstring)
    (raw : jsstring) (e e1 e2 : entropy) :
  utils.clean raw <> [] ->
  utils.slug (utils.clean raw) <> [] ->
  let news := (utils.incoming rawNames e).1 in
  let r := (utils.mergeNames existing rawNames e).1 in
  let r1 := (utils.mergeNames existing [raw] e1).1 in
  let r2 := (utils.mergeNames r1 [raw] e2).1 in
  let n0 := {| raw := utils.clean raw; key := utils.slug (utils.clean raw) |} in
  NoDup (List.map key r)
  /\ List.map key r = new_Set (List.map key (existing ++ news))
  /\ (forall n, n ∈ r <-> utils.last_with_key (key n) (existing ++ news) = Some n)
  /\ r2 = r1
  /\ List.filter (fun n => bool_decide (key n = key n0)) r2 = [n0].
Proof.
  intros Hc Hs. cbv zeta.
  split; [rewrite mergeNames_keys; apply new_Set_NoDup|].
  split; [apply mergeNames_keys|].
  split; [intros n; apply mergeNames_elem|].
  set (n0 := {| raw := utils.clean raw; key := utils.slug (utils.clean raw) |}).
  set (r1 := (utils.mergeNames existing [raw] e1).1).
  assert (Hnd : NoDup (List.map key r1))
    by (unfold r1; rewrite mergeNames_keys; apply new_Set_NoDup).
  assert (Hin : n0 ∈ r1).
  { unfold r1. apply mergeNames_elem. rewrite incoming_single by assumption.
    unfold utils.last_with_key. rewrite List.filter_app. cbn.
    rewrite bool_decide_eq_true_2 by reflexivity. apply last_snoc. }
  assert (E : (utils.mergeNames r1 [raw] e2).1 = r1).
  { rewrite mergeNames_foldl, incoming_single by assumption. cbn [fst].
    rewrite foldl_app, foldl_step_nodup by exact Hnd. cbn [foldl].
    fold n0. rewrite map_set_same.
    - rewrite List.map_map. cbn. apply List.map_id.
    - rewrite List.map_map. cbn. exact Hnd.
    - apply list_elem_of_fmap. exists n0. split; [reflexivity|exact Hin]. }
  rewrite E. split; [reflexivity|]. apply filter_key_nodup; assumption.
Qed.

End NameSetMerger.

Lemma mergeNames_roster_witness :
  let existing := [{| raw := js "Anna Novakova"; key := js "anna-novakova" |}] in
  let rawNames := [js "Bob"; js "anna   novakova"; js "  "; js "Cyril"] in
  let e := Entropy (fun _ => 0%Z) (fun _ => []) 0 in
  let news := (utils.incoming (H := ascii_host) rawNames e).1 in
  let r := (utils.mergeNames (H := ascii_host) existing rawNames e).1 in
  let r1 := (utils.mergeNames (H := ascii_host) existing [js " Bob "] e).1 in
  let r2 := (utils.mergeNames (H := ascii_host) r1 [js " Bob "] e).1 in
  let n0 := {| raw := js "Bob"; key := js "bob" |} in
  NoDup (List.map key r)
  /\ List.map key r = new_Set (List.map key (existing ++ news))
  /\ (forall n, n ∈ r <-> utils.last_with_key (key n) (existing ++ news) = Some n)
  /\ r2 = r1
  /\ List.filter (fun n => bool_decide (key n = key n0)) r2 = [n0].
Proof.
  apply (mergeNames_roster (H := ascii_host)
           [{| raw := js "Anna Novakova"; key := js "anna-novakova" |}]
           [js "Bob"; js "anna   novakova"; js "  "; js "Cyril"] (js " Bob ")
           (Entropy (fun _ => 0%Z) (fun _ => []) 0)
           (Entropy (fun _ => 0%Z) (fun _ => []) 0)
           (Entropy (fun _ => 0%Z) (fun _ => []) 0)); vm_compute; discriminate.
Defined.

(** C7 as stated fails on a name with an empty slug: merging ["!"] twice
    gives two entries, one for each key drawn. *)
Lemma mergeNames_twice_two_entries :
  let e := Entropy (fun i => Z.of_nat (S i)) (fun _ => []) 0 in
  let r1 := utils.mergeNames (H := ascii_host) [] [js "!"] e in
  let r2 := utils.mergeNames (H := ascii_host) r1.1 [js "!"] r1.2 in
  r1.1 = [{| raw := js "!"; key := js "id-1" |}]
  /\ r2.1 = [{| raw := js "!"; key := js "id-1" |}; {| raw := js "!"; key := js "id-2" |}].
Proof. split; reflexivity. Qed.

(** ** The persistence codec *)

Section PersistenceCodec.
Context {H : Host}.

(** A document whose [version] is not the number 1 does not pass [parse]:
    it throws the version error, or the TypeError of a version that has no
    string. *)
Lemma parse_other_version (members : list (jsstring * json)) :
  storage.is_APP_VERSION (lookup_member (js "version") members) = false ->
  let version := lookup_member (js "version") members in
  storage.parse (Some (JObj members))
  = Throw (if ToString_throws (nullish version (JStr storage.no_version))
           then TypeError else UnsupportedVersion version).
Proof.
  intros Hv. cbn [storage.parse get]. rewrite Hv.
  destruct (ToString_throws _); reflexivity.
Qed.

(** The version test accepts the number 1 and nothing else. *)
Lemma is_APP_VERSION_1 (v : jsvalue) :
  storage.is_APP_VERSION v = true <-> v = Some (JNum (to_double 1)).
Proof.
  split; [|intros ->; reflexivity].
  destruct v as [[| |n| | |]|]; try discriminate.
  unfold storage.is_APP_VERSION, number_eqb, SFeqb.
  destruct n as [s|s| |s m e]; try discriminate; [destruct s; discriminate|].
  change APP_VERSION with (S754_finite false 4503599627370496 (-52)).
  cbn [SFcompare]. destruct s; [discriminate|].
  destruct (Z.compare_spec e (-52)) as [->| |]; try discriminate.
  rewrite Pos.compare_cont_spec. cbn [Pos.switch_Eq].
  destruct (Pos.compare_spec m 4503599627370496) as [->| |]; try discriminate.
  reflexivity.
Qed.


Lemma Ok_inj {A : Type} (a b : A) : Ok a = Ok b -> a = b.
Proof. congruence. Qed.

(** What [importPayload] does guarantee of the settings it returns:
    [spinMs] is a finite number and the two modes are among their values. *)
Lemma sanitize_settings_fields (parsed_settings : jsvalue) (settings : object) :
  storage.sanitize_settings parsed_settings = Ok settings ->
  (exists n, settings !! js "spinMs" = Some (JNum n) /\ Number_isFinite n = true)
  /\ storage.includes [js "auto"; js "on"; js "off"] (settings !! js "reducedMotionMode") = true
  /\ storage.includes [js "auto"; js "light"; js "dark"] (settings !! js "theme") = true.
Proof.
  unfold storage.sanitize_settings. cbv zeta.
  set (s0 := storage.merged_settings _).
  destruct (storage.ToNumber (s0 !! js "spinMs")) as [n|]; [|discriminate].
  intros Heq%Ok_inj. subst settings.
  set (s1 := <[js "spinMs" := _]> s0).
  set (s2 := if negb (storage.includes _ (s1 !! js "reducedMotionMode")) then _ else s1).
  assert (A1 : exists m, s1 !! js "spinMs" = Some (JNum m) /\ Number_isFinite m = true).
  { unfold s1. rewrite lookup_insert_eq.
    destruct (Number_isFinite n) eqn:E; eexists; split; reflexivity || exact E. }
  assert (A2 : s2 !! js "spinMs" = s1 !! js "spinMs").
  { unfold s2. destruct (negb _); [|reflexivity]. rewrite lookup_insert_ne by discriminate. reflexivity. }
  assert (B2 : storage.includes [js "auto"; js "on"; js "off"] (s2 !! js "reducedMotionMode") = true).
  { unfold s2. destruct (storage.includes _ (s1 !! js "reducedMotionMode")) eqn:E; cbn [negb].
    - exact E.
    - rewrite lookup_insert_eq. reflexivity. }
  destruct (storage.includes _ (s2 !! js "theme")) eqn:E; cbn [negb].
  - rewrite A2. auto.
  - rewrite !lookup_insert_ne by discriminate. rewrite lookup_insert_eq, A2. auto.
Qed.

(** C3 fails on the code: a document with [spinMs: 50] comes back from
    [importPayload] with [spinMs] 50, which is outside [500, 10000], where the
    specification has the default 2600. *)
Theorem import_keeps_spinMs_out_of_range (e : entropy) :
  let doc :=
    JObj [(js "version", JNum (to_double 1));
          (js "settings", JObj [(js "spinMs", JNum (to_double 50))])] in
  exists p,
    storage.importPayload (Some doc) e = (Ok p, e)
    /\ p_settings p !! js "spinMs" = Some (JNum (to_double 50)).
Proof. cbv zeta. eexists. split; reflexivity. Qed.

End PersistenceCodec.



Section RoundTrip.
Context {H : Host}.

Lemma map_fixed {A} (f : A -> A) (l : list A) :
  Forall (fun x => f x = x) l -> List.map f l = l.
Proof. induction 1 as [|x l Hx _ IH]; [reflexivity|]. cbn. rewrite Hx, IH. reflexivity. Qed.

Lemma new_Set_id (l : list jsstring) : NoDup l -> new_Set l = l.
Proof.
  induction 1 as [|k l Hk _ IH]; [reflexivity|].
  cbn [new_Set]. rewrite IH. f_equal.
  clear IH. induction l as [|x l IH]; [reflexivity|].
  rewrite not_elem_of_cons in Hk. destruct Hk as [Hkx Hk].
  cbn. rewrite bool_decide_eq_false_2 by congruence. cbn. f_equal. apply IH. exact Hk.
Qed.

(** A snapshot that can be imported again is written to the file as it is. *)
Lemma reparsed_export (d : state.data) :
  storage.reimportable d ->
  storage.reparsed (storage.exportPayload d) = storage.exportPayload d.
Proof.
  intros (_ & _ & _ & _ & Hh & _ & (_ & _ & _ & Hs) & _ & Hc).
  unfold storage.exportPayload. cbn [storage.reparsed List.map fst snd].
  rewrite Hc. change (Number_isFinite APP_VERSION) with true. cbv iota.
  rewrite (map_fixed _ (List.map storage.name_json _)) by (apply Forall_map, Forall_forall; reflexivity).
  rewrite (map_fixed _ (List.map JStr _)) by (apply Forall_map, Forall_forall; reflexivity).
  rewrite (map_fixed _ (List.map storage.entry_json _)).
  2:{ apply Forall_map. eapply Forall_impl; [exact Hh|].
      intros h (_ & _ & _ & Hid). unfold storage.entry_json. cbn. rewrite Hid. reflexivity. }
  rewrite (map_fixed _ (map_to_list _)); [reflexivity|].
  apply Forall_forall. intros [k v] Hin. apply elem_of_map_to_list in Hin.
  cbn. rewrite (Hs k v Hin). reflexivity.
Qed.

Lemma sanitize_names_rederivable (l acc : list name) (e : entropy) :
  Forall storage.rederivable l ->
  NoDup (List.map key (acc ++ l)) ->
  storage.sanitize_names (List.map storage.name_json l) acc e = (Ok (acc ++ l), e).
Proof.
  intros Hl. revert acc. induction Hl as [|n l (Hc & Hr & Hs & Hk) _ IH]; intros acc Hnd.
  - rewrite app_nil_r. reflexivity.
  - cbn [List.map storage.sanitize_names storage.name_json get].
    change (lookup_member (js "raw") _) with (Some (JStr (raw n))).
    cbv beta iota zeta. rewrite Hc, bool_decide_eq_false_2 by exact Hr.
    rewrite createKey_slug by (rewrite Hs; exact Hk). rewrite Hs.
    rewrite bool_decide_eq_false_2.
    + replace {| raw := raw n; key := key n |} with n by (destruct n; reflexivity).
      rewrite IH; rewrite <- app_assoc; [reflexivity|exact Hnd].
    + rewrite List.map_app in Hnd. cbn [List.map] in Hnd.
      apply NoDup_app in Hnd as (_ & Hdis & _).
      intros Hin. apply (Hdis _ Hin). apply list_elem_of_here.
Qed.

Lemma keep_absent_all (keys l : list jsstring) :
  (forall k, k ∈ l -> k ∈ keys) ->
  omap (storage.keep_absent keys) (List.map JStr l) = l.
Proof.
  induction l as [|k l IH]; intros Hl; [reflexivity|].
  cbn [List.map omap list_omap storage.keep_absent].
  rewrite bool_decide_eq_true_2 by (apply Hl, list_elem_of_here).
  f_equal. apply IH. intros k' Hk'. apply Hl, list_elem_of_further, Hk'.
Qed.

Lemma map_history_kept (keys : list jsstring) (l : list entry) (e : entropy) :
  Forall (storage.kept_entry keys) l ->
  exists mapped,
    storage.map_history (List.map storage.entry_json l) e = (Ok mapped, e)
    /\ omap (storage.keep_entry keys) mapped = l.
Proof.
  induction 1 as [|h l (Hk & Hd & Ht & _) _ (mapped & IH1 & IH2)].
  - exists []. split; reflexivity.
  - eexists. cbn [List.map storage.map_history storage.entry_json get].
    change (lookup_member (js "key") _) with (Some (JStr (hkey h))).
    change (lookup_member (js "ts") _) with (Some (JStr (hts h))).
    change (lookup_member (js "id") _) with (Some (hid h)).
    rewrite Ht, IH1. split; [reflexivity|].
    cbn [omap list_omap storage.keep_entry storage.m_key storage.m_ts storage.m_id].
    rewrite bool_decide_eq_true_2 by exact Hk. rewrite Hd. cbn [andb].
    rewrite IH2. destruct h; reflexivity.
Qed.

Lemma members_object_to_list (s : object) : members_object (map_to_list s) = s.
Proof.
  unfold members_object.
  rewrite (list_to_map_proper (reverse (map_to_list s)) (map_to_list s)).
  - apply list_to_map_to_list.
  - rewrite reverse_Permutation. apply NoDup_fst_map_to_list.
  - apply reverse_Permutation.
Qed.

Lemma lookup_DEFAULT_SETTINGS (k : jsstring) :
  is_Some (DEFAULT_SETTINGS !! k) ->
  k = js "spinMs" \/ k = js "reducedMotionMode" \/ k = js "theme".
Proof.
  unfold DEFAULT_SETTINGS. intros [v Hv].
  apply lookup_insert_Some in Hv as [ [ <- _ ] | [_ Hv] ]; [tauto|].
  apply lookup_insert_Some in Hv as [ [ <- _ ] | [_ Hv] ]; [tauto|].
  apply lookup_insert_Some in Hv as [ [ <- _ ] | [_ Hv] ]; [tauto|].
  rewrite lookup_empty in Hv. discriminate.
Qed.

Lemma includes_Some (allowed : list jsstring) (v : jsvalue) :
  storage.includes allowed v = true -> is_Some v.
Proof. destruct v; [eauto|discriminate]. Qed.

Lemma spread_DEFAULT_kept (s : object) :
  storage.kept_settings s -> spread DEFAULT_SETTINGS s = s.
Proof.
  intros ((n & Hq & _) & Hm & Ht & _). unfold spread. apply map_eq. intros k.
  rewrite lookup_union. destruct (s !! k) as [v|] eqn:Ek.
  - destruct (DEFAULT_SETTINGS !! k); reflexivity.
  - destruct (DEFAULT_SETTINGS !! k) as [v|] eqn:Ed; [|reflexivity].
    exfalso. apply includes_Some in Hm, Ht.
    destruct (lookup_DEFAULT_SETTINGS k) as [ -> | [ -> | -> ] ]; [eauto| | |].
    + congruence.
    + rewrite Ek in Hm. destruct Hm; discriminate.
    + rewrite Ek in Ht. destruct Ht; discriminate.
Qed.

Lemma sanitize_settings_kept (s : object) :
  storage.kept_settings s ->
  storage.sanitize_settings (Some (JObj (map_to_list s))) = Ok s.
Proof.
  intros Hs. unfold storage.sanitize_settings, storage.merged_settings.
  cbn [nullish own_properties]. rewrite members_object_to_list, spread_DEFAULT_kept by exact Hs.
  destruct Hs as ((n & Hq & Hfin) & Hm & Ht & _).
  cbv zeta. rewrite Hq. unfold storage.ToNumber, storage.Number.
  cbn [ToString_throws storage.Number_of]. rewrite Hfin.
  rewrite (insert_id s _ _ Hq). rewrite Hm. cbn [negb]. rewrite Ht. reflexivity.
Qed.

Lemma parse_export (d : state.data) :
  storage.parse (Some (storage.exportPayload d)) = Ok (Some (storage.exportPayload d)).
Proof. reflexivity. Qed.

(** C6, as the code has it: a snapshot whose names an import derives again
    as they stand, whose other parts an import keeps, and whose class key,
    history identifiers and settings values are written to the file as they
    are, is read back from its export file as it was written, and replaces
    the store with itself. *)
Theorem export_import_round_trip (d d0 : state.data) (e : entropy) :
  storage.reimportable d ->
  let file := storage.reparsed (storage.exportPayload d) in
  let p := {| p_classKey := state.classKey d; p_names := state.names d;
              p_absentKeys := state.absentKeys d; p_history := state.history d;
              p_settings := state.settings d |} in
  storage.importPayload (Some file) e = (Ok p, e)
  /\ state.updateFromStorage p (state.setClassKey (p_classKey p) d0) = d.
Proof.
  intros Hd. cbv zeta. rewrite reparsed_export by exact Hd.
  destruct Hd as (Hn & Hnd & Had & Ha & Hh & Hlen & Hs & Hct & _).
  split.
  - unfold storage.importPayload. rewrite parse_export.
    change (truthy (Some (storage.exportPayload d))) with true. cbv beta iota zeta. cbn [negb].
    change (prop (Some (storage.exportPayload d)) (js "names"))
      with (Some (JArr (List.map storage.name_json (state.names d)))).
    change (prop (Some (storage.exportPayload d)) (js "absentKeys"))
      with (Some (JArr (List.map JStr (state.absentKeys d)))).
    change (prop (Some (storage.exportPayload d)) (js "history"))
      with (Some (JArr (List.map storage.entry_json (state.history d)))).
    change (prop (Some (storage.exportPayload d)) (js "settings"))
      with (Some (JObj (map_to_list (state.settings d)))).
    change (prop (Some (storage.exportPayload d)) (js "classKey"))
      with (Some (state.classKey d)).
    cbn [storage.array_items].
    rewrite (sanitize_names_rederivable _ [] e Hn Hnd). cbn [app].
    destruct (map_history_kept _ _ e Hh) as (mapped & E1 & E2).
    rewrite E1, E2, keep_absent_all by exact Ha.
    rewrite take_ge by exact Hlen.
    rewrite sanitize_settings_kept by exact Hs.
    rewrite Hct. reflexivity.
  - unfold state.updateFromStorage, state.setClassKey.
    cbn [p_classKey p_names p_absentKeys p_history p_settings state.classKey].
    rewrite Hct, new_Set_id, spread_DEFAULT_kept by assumption.
    destruct d; reflexivity.
Qed.

End RoundTrip.

Lemma export_import_round_trip_witness :
  let d :=
    {| state.classKey := JStr (js "3b");
       state.names := [{| raw := js "Anna Novakova"; key := js "anna-novakova" |};
                       {| raw := js "Bob"; key := js "bob" |}];
       state.absentKeys := [js "bob"];
       state.history := [{| hkey := js "anna-novakova";
                            hts := js "2024-05-17T09:30:00.000Z";
                            hid := JStr (js "6f1c") |}];
       state.settings := <[js "spinMs" := JNum (to_double 900)]> DEFAULT_SETTINGS |} in
  let e := Entropy (fun _ => 7%Z) (fun _ => js "u") 0 in
  let file := storage.reparsed (storage.exportPayload d) in
  let p := {| p_classKey := state.classKey d; p_names := state.names d;
              p_absentKeys := state.absentKeys d; p_history := state.history d;
              p_settings := state.settings d |} in
  storage.importPayload (H := ascii_host) (Some file) e = (Ok p, e)
  /\ state.updateFromStorage p (state.setClassKey (p_classKey p) state.initial) = d.
Proof.
  apply (export_import_round_trip (H := ascii_host)).
  unfold storage.reimportable, storage.kept_settings.
  cbn [state.names state.absentKeys state.history state.settings state.classKey].
  repeat split.
  - unfold storage.rederivable. apply (bool_decide_unpack _). vm_compute. exact I.
  - apply (bool_decide_unpack _). vm_compute. exact I.
  - apply (bool_decide_unpack _). vm_compute. exact I.
  - intros k Hk. apply list_elem_of_singleton in Hk. subst k.
    apply (bool_decide_unpack _). vm_compute. exact I.
  - constructor; [|constructor].
    unfold storage.kept_entry. cbn [hkey hts hid].
    split; [apply (bool_decide_unpack _); vm_compute; exact I|].
    split; [vm_compute; reflexivity|]. split; reflexivity.
  - vm_compute. lia.
  - eexists. split; reflexivity.
  - intros k v Hkv. unfold DEFAULT_SETTINGS in Hkv.
    repeat (apply lookup_insert_Some in Hkv as [ [_ <- ] | [_ Hkv] ]; [reflexivity|]).
    rewrite lookup_empty in Hkv. discriminate.
Defined.

(** C6 as stated fails on a snapshot the store produces: after ["!"] is
    added, the roster holds the key [id-1] that was drawn for it, and the
    import of the export draws [id-2]. *)
Lemma round_trip_redraws_fallback_key :
  let u := ui.addNames (H := ascii_host) [js "!"]
             (ui.started false (Entropy (fun i => Z.of_nat (S i)) (fun _ => js "u") 0)) in
  let d := ui.data u in
  state.names d = [{| raw := js "!"; key := js "id-1" |}]
  /\ exists p e',
       storage.importPayload (H := ascii_host)
         (Some (storage.reparsed (storage.exportPayload d))) (ui.crypto u) = (Ok p, e')
       /\ p_names p = [{| raw := js "!"; key := js "id-2" |}].
Proof. cbv zeta. split; [reflexivity|]. eexists _, _. split; vm_compute; reflexivity. Qed.

(** ** The draw controller *)

Section DrawController.
Context {H : Host}.

(** A draw request while a draw is in progress changes nothing. *)
Lemma handleDraw_in_progress (u : ui.model) :
  ui.isDrawing u || ui.spinning u = true -> ui.handleDraw u = u.
Proof. intros E. unfold ui.handleDraw. rewrite E. reflexivity. Qed.

(** A draw request with nobody present changes nothing. *)
Lemma handleDraw_nobody_present (u : ui.model) :
  state.getPresentNames (ui.data u) = [] -> ui.handleDraw u = u.
Proof.
  intros E. unfold ui.handleDraw. rewrite E.
  destruct (ui.isDrawing u || ui.spinning u); reflexivity.
Qed.

(** The draw button, as [updateButtons] leaves it, takes no click with fewer
    than two names present. *)
Lemma click_drawBtn_below_two (u : ui.model) :
  ui.drawBtn_disabled u = ui.updateButtons (ui.data u) ->
  length (state.getPresentNames (ui.data u)) < 2 ->
  ui.click_drawBtn u = u.
Proof.
  intros Hb Hlen. unfold ui.click_drawBtn. rewrite Hb. unfold ui.updateButtons.
  destruct (Nat.leb_spec (length (state.getPresentNames (ui.data u))) 1); [reflexivity|lia].
Qed.

End DrawController.

(** C2 fails on the code: with one name present the draw button is disabled
    and a click does nothing, but the keyboard shortcut calls [handleDraw],
    which only stops when nobody is present: the draw runs and the history
    gains an entry, with or without reduced motion. *)
Theorem keyboard_draw_with_one_present (reduced : bool) :
  let e := Entropy (fun _ => 3000000000%Z) (fun _ => js "0b7e") 0 in
  let now := js "2024-05-17T09:30:00.000Z" in
  let u := ui.addNames (H := ascii_host) [js "Anna"] (ui.started reduced e) in
  let u' := ui.resume now (ui.transitionend (ui.keydown_Enter u)) in
  length (state.getPresentNames (ui.data u)) = 1
  /\ ui.isDrawing u = false /\ ui.spinning u = false
  /\ ui.drawBtn_disabled u = true /\ ui.click_drawBtn u = u
  /\ state.history (ui.data u) = []
  /\ state.history (ui.data u')
     = [{| hkey := js "anna"; hts := now; hid := JStr (js "0b7e") |}]
  /\ ui.lastWinnerKey u' = Some (js "anna").
Proof. destruct reduced; vm_compute; repeat split; reflexivity. Qed.

(** ** The lines of the names field *)

Section InputLines.
Context {H : Host}.

Lemma split_lines_cons (c : N) (rest : jsstring) :
  split_lines (c :: rest)
  = if (c =? 10)%N then [] :: split_lines rest
    else
      match rest with
      | d :: rest' =>
          if ((c =? 13) && (d =? 10))%N then [] :: split_lines rest'
          else
            match split_lines rest with
            | piece :: more => (c :: piece) :: more
            | [] => [[c]]
            end
      | [] => [[c]]
      end.
Proof. destruct rest; reflexivity. Qed.

Lemma split_lines_not_nil (text : jsstring) : split_lines text <> [].
Proof.
  destruct text as [|c rest]; [discriminate|].
  rewrite split_lines_cons. destruct (c =? 10)%N; [discriminate|].
  destruct rest as [|d rest']; [discriminate|].
  destruct ((c =? 13) && (d =? 10))%N; [discriminate|].
  destruct (split_lines (d :: rest')); discriminate.
Qed.

(** The pieces of a text that continues after a separator. *)
Lemma split_lines_app (n : nat) (s : jsstring) :
  length s <= n ->
  (last s <> Some 13%N -> forall t,
     split_lines (s ++ 10%N :: t) = split_lines s ++ split_lines t)
  /\ (forall t,
        split_lines (s ++ 13%N :: 10%N :: t) = split_lines s ++ split_lines t).
Proof.
  revert s. induction n as [|n IH]; intros s Hn.
  - destruct s; [|cbn in Hn; lia]. split; intros; reflexivity.
  - destruct s as [|c s']; [split; intros; reflexivity|].
    cbn [length] in Hn.
    destruct (IH s' ltac:(lia)) as [IHlf IHcr].
    assert (Hlast : last (c :: s') <> Some 13%N -> s' <> [] -> last s' <> Some 13%N).
    { intros Hl Hne. destruct s'; [contradiction|exact Hl]. }
    split.
    + intros Hl t. cbn [app]. rewrite !split_lines_cons.
      destruct (N.eqb_spec c 10) as [->|Hc].
      * cbn [app]. f_equal. destruct s' as [|d s'']; [reflexivity|].
        apply IHlf. apply Hlast; [exact Hl|discriminate].
      * destruct s' as [|d s''].
        -- cbn [app]. assert (Hc13 : c <> 13%N) by (intros ->; apply Hl; reflexivity).
           apply N.eqb_neq in Hc13. rewrite Hc13. cbn [andb].
           rewrite split_lines_cons. reflexivity.
        -- cbn [app]. destruct ((c =? 13) && (d =? 10))%N eqn:Ecd.
           ++ cbn [app]. f_equal.
              destruct (IH s'' ltac:(cbn in Hn; lia)) as [IHlf' _].
              destruct s'' as [|x s3]; [reflexivity|].
              apply IHlf'. exact Hl.
           ++ change (d :: s'' ++ 10%N :: t) with ((d :: s'') ++ 10%N :: t).
              rewrite IHlf by (apply Hlast; [exact Hl|discriminate]).
              pose proof (split_lines_not_nil (d :: s'')) as Hne.
              destruct (split_lines (d :: s'')); [contradiction|reflexivity].
    + intros t. cbn [app]. rewrite !split_lines_cons.
      destruct (N.eqb_spec c 10) as [->|Hc].
      * cbn [app]. f_equal. apply IHcr.
      * destruct s' as [|d s''].
        -- cbn [app]. rewrite andb_false_r.
           rewrite split_lines_cons. cbn. reflexivity.
        -- cbn [app]. destruct ((c =? 13) && (d =? 10))%N eqn:Ecd.
           ++ cbn [app]. f_equal.
              destruct (IH s'' ltac:(cbn in Hn; lia)) as [_ IHcr']. apply IHcr'.
           ++ change (d :: s'' ++ 13%N :: 10%N :: t) with ((d :: s'') ++ 13%N :: 10%N :: t).
              rewrite IHcr.
              pose proof (split_lines_not_nil (d :: s'')) as Hne.
              destruct (split_lines (d :: s'')); [contradiction|reflexivity].
Qed.

Lemma sanitizeRawInput_pieces (pieces more : list jsstring) :
  List.filter (fun line => negb (bool_decide (line = [])))
    (List.map utils.clean (pieces ++ more))
  = List.filter (fun line => negb (bool_decide (line = []))) (List.map utils.clean pieces)
    ++ List.filter (fun line => negb (bool_decide (line = []))) (List.map utils.clean more).
Proof. rewrite List.map_app, List.filter_app. reflexivity. Qed.

(** X1: The lines read from a text made of two parts with a line break between
    them are the lines of the first part followed by those of the second:
    nothing is merged or dropped across the break, and a line that occurs in
    both parts occurs twice.  The break is a line feed after a part that
    does not end in a carriage return, or a carriage return and a line
    feed. *)
Theorem sanitizeRawInput_joined (s t : jsstring) :
  (last s <> Some 13%N ->
   utils.sanitizeRawInput (s ++ 10%N :: t)
   = utils.sanitizeRawInput s ++ utils.sanitizeRawInput t)
  /\ utils.sanitizeRawInput (s ++ 13%N :: 10%N :: t)
     = utils.sanitizeRawInput s ++ utils.sanitizeRawInput t.
Proof.
  destruct (split_lines_app (length s) s (le_n _)) as [Hlf Hcr].
  unfold utils.sanitizeRawInput. split.
  - intros Hl. rewrite Hlf by exact Hl. apply sanitizeRawInput_pieces.
  - rewrite Hcr. apply sanitizeRawInput_pieces.
Qed.

Lemma no_space_pair_cons (c : N) (s : jsstring) :
  no_space_pair (c :: s)
  = negb (is_space c && is_space_at (head s)) && no_space_pair s.
Proof. destruct s as [|d t]; [cbn; rewrite andb_false_r; reflexivity|reflexivity]. Qed.

Lemma no_space_pair_snoc (s : jsstring) (c : N) :
  no_space_pair (s ++ [c])
  = no_space_pair s && negb (is_space_at (last s) && is_space c).
Proof.
  induction s as [|d s IH].
  - cbn. reflexivity.
  - cbn [app]. rewrite !no_space_pair_cons, IH.
    destruct s as [|x s'].
    + cbn. destruct (is_space d), (is_space c); reflexivity.
    + change (last (d :: x :: s')) with (last (x :: s')).
      cbn [app head]. rewrite andb_assoc. reflexivity.
Qed.

Lemma no_space_pair_reverse (s : jsstring) :
  no_space_pair (reverse s) = no_space_pair s.
Proof.
  induction s as [|c s IH]; [reflexivity|].
  rewrite reverse_cons, no_space_pair_snoc, no_space_pair_cons, IH, last_reverse.
  rewrite (andb_comm (is_space c)). apply andb_comm.
Qed.

Lemma drop_while_shape (p : N -> bool) (s : jsstring) :
  (exists pre, s = pre ++ drop_while p s)
  /\ match head (drop_while p s) with Some c => p c = false | None => True end
  /\ (drop_while p s = [] \/ last (drop_while p s) = last s).
Proof.
  induction s as [|c s ([pre E] & Hh & Hl)]; [split; [exists []; reflexivity|split; [exact I|left; reflexivity]]|].
  cbn [drop_while]. destruct (p c) eqn:Ep.
  - split; [exists (c :: pre); cbn; f_equal; exact E|]. split; [exact Hh|].
    destruct Hl as [Hl|Hl]; [left; exact Hl|].
    destruct s; [left; reflexivity|right; exact Hl].
  - split; [exists []; reflexivity|]. split; [exact Ep|right; reflexivity].
Qed.

Lemma no_space_pair_suffix (pre s : jsstring) :
  no_space_pair (pre ++ s) = true -> no_space_pair s = true.
Proof.
  induction pre as [|c pre IH]; [auto|].
  cbn [app]. rewrite no_space_pair_cons. intros E.
  apply andb_true_iff in E as [_ E]. auto.
Qed.

(** Collapsing the runs of white space leaves single U+0020 characters. *)
Lemma collapse_spaces_shape (b : bool) (s : jsstring) :
  let out := replace_runs_from is_space (js " ") b s in
  no_space_pair out = true
  /\ (b = true -> is_space_at (head out) = false)
  /\ Forall (fun c => is_space c = true -> c = 32%N) out.
Proof.
  cbv zeta. revert b. induction s as [|c s IH]; intros b.
  - split; [reflexivity|]. split; [reflexivity|constructor].
  - cbn [replace_runs_from]. destruct (is_space c) eqn:Ec.
    + destruct (IH true) as (IH1 & IH2 & IH3). specialize (IH2 eq_refl).
      destruct b; [split; [exact IH1|split; [intros _; exact IH2|exact IH3]]|].
      change (js " " ++ ?t) with (32%N :: t).
      split; [|split; [discriminate|constructor; [reflexivity|exact IH3]]].
      rewrite no_space_pair_cons, IH2, IH1, andb_false_r. reflexivity.
    + destruct (IH false) as (IH1 & _ & IH3).
      split; [|split; [intros _; cbn; exact Ec|constructor; [congruence|exact IH3]]].
      rewrite no_space_pair_cons, Ec, IH1. reflexivity.
Qed.

Lemma trim_shape (s : jsstring) :
  no_space_pair s = true ->
  Forall (fun c => is_space c = true -> c = 32%N) s ->
  trim s <> [] -> tidy_line (trim s) = true.
Proof.
  intros Hp Hc Hne. unfold trim in *.
  set (w := drop_while is_space s) in *.
  set (z := drop_while is_space (reverse w)) in *.
  destruct (drop_while_shape is_space s) as ([pre Es] & Hhw & _). fold w in Es, Hhw.
  destruct (drop_while_shape is_space (reverse w)) as ([pre' Ez] & Hhz & Hlz).
  fold z in Ez, Hhz, Hlz.
  assert (Hpw : no_space_pair w = true)
    by (apply (no_space_pair_suffix pre); rewrite <- Es; exact Hp).
  assert (Hpz : no_space_pair z = true).
  { apply (no_space_pair_suffix pre'). rewrite <- Ez, no_space_pair_reverse. exact Hpw. }
  assert (Hcw : Forall (fun c => is_space c = true -> c = 32%N) w).
  { rewrite Es in Hc. apply Forall_app in Hc. tauto. }
  assert (Hcz : Forall (fun c => is_space c = true -> c = 32%N) z).
  { apply Forall_reverse in Hcw. rewrite Ez in Hcw. apply Forall_app in Hcw. tauto. }
  unfold tidy_line.
  rewrite bool_decide_eq_false_2 by exact Hne.
  rewrite no_space_pair_reverse, Hpz, head_reverse, last_reverse.
  assert (Hf : forallb (fun c => negb (is_space c) || (c =? 32)%N) (reverse z) = true).
  { apply forallb_forall. intros c Hin. rewrite <- list_elem_of_In, elem_of_reverse in Hin.
    rewrite Forall_forall in Hcz. specialize (Hcz c Hin).
    destruct (is_space c); [rewrite Hcz by reflexivity|]; reflexivity. }
  rewrite Hf.
  assert (Hl : is_space_at (last z) = false).
  { destruct Hlz as [Hz|Hz].
    - exfalso. apply Hne. rewrite Hz. reflexivity.
    - rewrite Hz, last_reverse. destruct (head w); [exact Hhw|reflexivity]. }
  assert (Hh : is_space_at (head z) = false)
    by (destruct (head z); [exact Hhz|reflexivity]).
  rewrite Hl, Hh. reflexivity.
Qed.

(** A cleaned line that is not empty is tidy. *)
Lemma clean_tidy (line : jsstring) :
  utils.clean line <> [] -> tidy_line (utils.clean line) = true.
Proof.
  intros Hne. unfold utils.clean in *.
  destruct (collapse_spaces_shape false (normalize_NFC line)) as (A & _ & C).
  apply trim_shape; assumption.
Qed.

(** X2: Every line [sanitizeRawInput] returns is tidy: it is not empty, it
    holds no white space but single U+0020 characters between other
    characters (so no line break, tab or run of spaces), and none at its
    ends; and there is at most one line for each piece of the text. *)
Theorem sanitizeRawInput_tidy (text : jsstring) :
  Forall (fun line => tidy_line line = true) (utils.sanitizeRawInput text)
  /\ length (utils.sanitizeRawInput text) <= length (split_lines text).
Proof.
  unfold utils.sanitizeRawInput. split.
  - apply Forall_forall. intros line Hin.
    apply list_elem_of_In, filter_In in Hin as [Hin Hne].
    apply in_map_iff in Hin as (piece & <- & _).
    apply clean_tidy. apply negb_true_iff, bool_decide_eq_false in Hne. exact Hne.
  - etransitivity; [apply List.filter_length_le|]. rewrite List.length_map. reflexivity.
Qed.

End InputLines.

(** ** The store: presence, counting and what no operation undoes *)

Section StorePresence.

Lemma present_elem (d : state.data) (n : name) :
  n ∈ state.getPresentNames d <-> n ∈ state.names d /\ key n ∉ state.absentKeys d.
Proof.
  unfold state.getPresentNames.
  rewrite list_elem_of_In, filter_In, <- list_elem_of_In, negb_true_iff, bool_decide_eq_false.
  reflexivity.
Qed.

Lemma filter_other_elem (k x : jsstring) (l : list jsstring) :
  x ∈ List.filter (fun k' => negb (bool_decide (k' = k))) l <-> x ∈ l /\ x <> k.
Proof.
  rewrite list_elem_of_In, filter_In, <- list_elem_of_In, negb_true_iff, bool_decide_eq_false.
  reflexivity.
Qed.

Lemma filter_other_absent (k : jsstring) (l : list jsstring) :
  k ∉ l -> List.filter (fun k' => negb (bool_decide (k' = k))) l = l.
Proof.
  induction l as [|x l IH]; intros Hk; [reflexivity|].
  rewrite not_elem_of_cons in Hk. destruct Hk as [Hx Hk].
  cbn. rewrite bool_decide_eq_false_2 by congruence. cbn. f_equal. apply IH. exact Hk.
Qed.

Lemma toggleAbsent_elem (k x : jsstring) (isAbsent : bool) (d : state.data) :
  x ∈ state.absentKeys (state.toggleAbsent k isAbsent d)
  <-> if isAbsent then x ∈ state.absentKeys d \/ x = k
      else x ∈ state.absentKeys d /\ x <> k.
Proof.
  cbn [state.toggleAbsent state.absentKeys]. destruct isAbsent.
  - case_bool_decide as Hk.
    + split; [tauto|]. intros [Hx| ->]; assumption.
    + rewrite elem_of_app, list_elem_of_singleton. reflexivity.
  - apply filter_other_elem.
Qed.

(** X3: [toggleAbsent] is the insertion and the removal of a key in the absence
    set.  After it a name of the roster is present exactly when its key is
    the one toggled and [isAbsent] is false, or its key is another one and it
    was present; the roster is left alone; a toggle made twice is the toggle
    made once; and marking a key that was not absent and unmarking it gives
    the absence set back. *)
Theorem toggleAbsent_presence (k : jsstring) (isAbsent : bool) (d : state.data) :
  (forall n, n ∈ state.getPresentNames (state.toggleAbsent k isAbsent d)
     <-> n ∈ state.names d
         /\ (if bool_decide (key n = k) then isAbsent = false
             else key n ∉ state.absentKeys d))
  /\ state.names (state.toggleAbsent k isAbsent d) = state.names d
  /\ state.toggleAbsent k isAbsent (state.toggleAbsent k isAbsent d)
     = state.toggleAbsent k isAbsent d
  /\ (k ∉ state.absentKeys d ->
      state.absentKeys (state.toggleAbsent k false (state.toggleAbsent k true d))
      = state.absentKeys d).
Proof.
  split; [|split; [reflexivity|split]].
  - intros n. rewrite present_elem, toggleAbsent_elem.
    change (state.names (state.toggleAbsent k isAbsent d)) with (state.names d).
    case_bool_decide as Hk; destruct isAbsent; intuition congruence.
  - unfold state.toggleAbsent at 1 3. cbn [state.classKey state.names state.history state.settings].
    f_equal. destruct isAbsent.
    + cbn [state.toggleAbsent state.absentKeys].
      destruct (decide (k ∈ state.absentKeys d)) as [Hk|Hk].
      * rewrite !(bool_decide_eq_true_2 _ Hk). reflexivity.
      * rewrite (bool_decide_eq_false_2 _ Hk).
        rewrite bool_decide_eq_true_2; [reflexivity|].
        rewrite elem_of_app, list_elem_of_singleton. tauto.
    + cbn [state.toggleAbsent state.absentKeys].
      apply filter_other_absent. rewrite filter_other_elem. tauto.
  - intros Hk. cbn [state.toggleAbsent state.absentKeys].
    rewrite bool_decide_eq_false_2 by exact Hk.
    rewrite List.filter_app. cbn. rewrite bool_decide_eq_true_2 by reflexivity.
    cbn. rewrite app_nil_r. apply filter_other_absent. exact Hk.
Qed.

Lemma filter_split_length {A} (f : A -> bool) (l : list A) :
  length (List.filter f l) + length (List.filter (fun x => negb (f x)) l) = length l.
Proof.
  induction l as [|x l IH]; [reflexivity|].
  cbn. destruct (f x); cbn; lia.
Qed.

(** X4: With distinct keys in the roster and an absence set that marks names of
    the roster only, the names present and the keys marked absent add up to
    the roster: every name is either present or counted once as absent. *)
Theorem present_absent_count (d : state.data) :
  NoDup (List.map key (state.names d)) ->
  NoDup (state.absentKeys d) ->
  state.absent_ok d ->
  length (state.getPresentNames d) + length (state.absentKeys d) = length (state.names d)
  /\ sublist (state.getPresentNames d) (state.names d).
Proof.
  intros Hn Ha Hok. split.
  - rewrite <- (filter_split_length (fun n => negb (bool_decide (key n ∈ state.absentKeys d)))
                 (state.names d)).
    unfold state.getPresentNames. f_equal.
    set (marked := List.filter _ (state.names d)).
    assert (Hm : forall n, n ∈ marked <-> n ∈ state.names d /\ key n ∈ state.absentKeys d).
    { intros n. unfold marked.
      rewrite list_elem_of_In, filter_In, <- list_elem_of_In, negb_involutive, bool_decide_eq_true.
      reflexivity. }
    rewrite <- (List.length_map key marked).
    apply Permutation_length, NoDup_Permutation.
    + exact Ha.
    + apply (NoDup_fmap_2_strong key).
      * intros x y Hx Hy E. apply Hm in Hx as [Hx _]. apply Hm in Hy as [Hy _].
        clear -Hn Hx Hy E.
        induction (state.names d) as [|z l IH]; [apply elem_of_nil in Hx; contradiction|].
        cbn in Hn. apply NoDup_cons in Hn as [Hz Hn].
        apply elem_of_cons in Hx as [->|Hx], Hy as [->|Hy]; try reflexivity.
        -- exfalso. apply Hz. rewrite E. apply list_elem_of_fmap. eauto.
        -- exfalso. apply Hz. rewrite <- E. apply list_elem_of_fmap. eauto.
        -- apply IH; assumption.
      * unfold marked. apply NoDup_ListNoDup, List.NoDup_filter, NoDup_ListNoDup.
        clear -Hn. induction (state.names d) as [|z l IH]; [constructor|].
        cbn in Hn. apply NoDup_cons in Hn as [Hz Hn]. apply NoDup_cons. split; [|auto].
        intros Hin. apply Hz. apply list_elem_of_fmap. eauto.
    + intros k. rewrite list_elem_of_fmap. split.
      * intros Hk. destruct (proj1 (list_elem_of_fmap _ _ _) (Hok k Hk)) as (n & -> & Hin).
        exists n. split; [reflexivity|]. apply Hm. tauto.
      * intros (n & -> & Hin). apply Hm in Hin. tauto.
  - unfold state.getPresentNames. clear.
    induction (state.names d) as [|z l IH]; [constructor|].
    cbn. destruct (negb _); [apply sublist_skip|apply sublist_cons]; exact IH.
Qed.

Lemma apply_keeps_defaults (o : state.op) (d : state.data) :
  truthy (Some (state.classKey d)) = true ->
  (forall k, is_Some (DEFAULT_SETTINGS !! k) -> is_Some (state.settings d !! k)) ->
  truthy (Some (state.classKey (state.apply o d))) = true
  /\ (forall k, is_Some (DEFAULT_SETTINGS !! k) ->
        is_Some (state.settings (state.apply o d) !! k)).
Proof.
  intros Hc Hs. destruct o as [c|p|ns|k b| |e| |s]; cbn [state.apply]; try (split; assumption).
  - split; [|exact Hs]. cbn [state.setClassKey state.classKey].
    destruct (truthy (Some c)) eqn:E; [exact E|reflexivity].
  - split; [exact Hc|]. intros k Hk.
    cbn [state.updateFromStorage state.settings]. unfold spread.
    apply lookup_union_is_Some. right. exact Hk.
  - split; [exact Hc|]. intros k Hk.
    cbn [state.setSettings state.settings]. unfold spread.
    apply lookup_union_is_Some. right. apply Hs. exact Hk.
Qed.

(** X5: Whatever operations the store has gone through since it was created,
    its class key is truthy (never null, undefined or the empty string) and
    its settings still have the three properties [spinMs],
    [reducedMotionMode] and [theme]. *)
Theorem store_keeps_defaults (ops : list state.op) :
  let d := state.run ops state.initial in
  truthy (Some (state.classKey d)) = true
  /\ is_Some (state.settings d !! js "spinMs")
  /\ is_Some (state.settings d !! js "reducedMotionMode")
  /\ is_Some (state.settings d !! js "theme").
Proof.
  cbv zeta.
  assert (Hinv : truthy (Some (state.classKey (state.run ops state.initial))) = true
                 /\ (forall k, is_Some (DEFAULT_SETTINGS !! k) ->
                       is_Some (state.settings (state.run ops state.initial) !! k))).
  { induction ops as [|o ops IH] using rev_ind.
    - split; [reflexivity|]. intros k Hk. exact Hk.
    - rewrite run_snoc. apply apply_keeps_defaults; apply IH. }
  destruct Hinv as [Hc Hs].
  split; [exact Hc|]. repeat split; apply Hs; eexists; reflexivity.
Qed.

End StorePresence.

Lemma present_absent_count_witness :
  let anna := {| raw := js "Anna"; key := js "anna" |} in
  let bob := {| raw := js "Bob"; key := js "bob" |} in
  let cyril := {| raw := js "Cyril"; key := js "cyril" |} in
  let d := state.toggleAbsent (js "bob") true
             (state.setNames [anna; bob; cyril] state.initial) in
  length (state.getPresentNames d) + length (state.absentKeys d) = length (state.names d)
  /\ sublist (state.getPresentNames d) (state.names d).
Proof.
  apply (present_absent_count
           (state.toggleAbsent (js "bob") true
              (state.setNames [{| raw := js "Anna"; key := js "anna" |};
                               {| raw := js "Bob"; key := js "bob" |};
                               {| raw := js "Cyril"; key := js "cyril" |}] state.initial))).
  - apply (bool_decide_unpack _). vm_compute. exact I.
  - apply (bool_decide_unpack _). vm_compute. exact I.
  - intros k Hk. apply list_elem_of_singleton in Hk. subst k.
    apply (bool_decide_unpack _). vm_compute. exact I.
Defined.

(** ** What an import accepts and what it returns *)

Section ImportSanitizer.
Context {H : Host}.

Lemma createKey_well_formed (raw : jsstring) (e : entropy) :
  well_formed_key (utils.createKey raw e).1 = true.
Proof.
  destruct (decide (utils.slug raw = [])) as [E|E].
  - rewrite createKey_fallback by exact E. apply fallback_shape.
  - rewrite createKey_slug by exact E. apply slug_shape. exact E.
Qed.

(** X6: [migrate] is a projection onto the documents of the current version:
    applied again it changes nothing; it returns [null] for a falsy payload
    and for nothing else; any other payload comes back as a document whose
    [version] is the current one, and as itself if it already was one. *)
Theorem migrate_normal_form (payload : jsvalue) :
  storage.migrate (storage.migrate payload) = storage.migrate payload
  /\ (storage.migrate payload = Some JNull <-> truthy payload = false)
  /\ (truthy payload = true ->
      storage.is_APP_VERSION (prop (storage.migrate payload) (js "version")) = true)
  /\ (truthy payload = true ->
      storage.is_APP_VERSION (prop payload (js "version")) = true ->
      storage.migrate payload = payload).
Proof.
  unfold storage.migrate.
  destruct (truthy payload) eqn:Et; cbn [negb].
  - destruct payload as [p|]; [|discriminate].
    destruct (storage.is_APP_VERSION (prop (Some p) (js "version"))) eqn:Ev.
    + rewrite Et. cbn [negb]. rewrite Ev.
      repeat split; intros; try reflexivity; try discriminate.
      match goal with Hx : Some p = Some JNull |- _ => injection Hx as -> end.
      discriminate Et.
    + repeat split; intros; try reflexivity; discriminate.
  - repeat split; intros; try reflexivity; discriminate.
Qed.

Lemma get_outcome (item : json) (k : jsstring) :
  (item = JNull /\ get item k = Throw TypeError)
  \/ (item <> JNull /\ exists v, get item k = Ok v).
Proof. destruct item; [left; split; reflexivity|right; split; [discriminate|eexists; reflexivity]..]. Qed.

Lemma null_in_or_not (l : list json) : JNull ∈ l \/ JNull ∉ l.
Proof.
  induction l as [|item rest [IH|IH]]; [right; apply not_elem_of_nil|left; apply list_elem_of_further, IH|].
  destruct item; try (right; rewrite not_elem_of_cons; split; [discriminate|exact IH]).
  left. apply list_elem_of_here.
Qed.

(** The loop over [names] stops with a TypeError on a [null] element and on
    nothing else. *)
Lemma sanitize_names_outcome (l : list json) (acc : list name) (e : entropy) :
  (JNull ∉ l -> exists names e', storage.sanitize_names l acc e = (Ok names, e'))
  /\ (JNull ∈ l -> exists e', storage.sanitize_names l acc e = (Throw TypeError, e')).
Proof.
  revert acc e. induction l as [|item rest IH]; intros acc e.
  - split; [intros _; eexists _, _; reflexivity|]. intros Hin. apply elem_of_nil in Hin. contradiction.
  - cbn [storage.sanitize_names].
    destruct (get_outcome item (js "raw")) as [[-> E]|[Hne [r E]]]; rewrite E.
    + split; [|intros _; eexists; reflexivity].
      intros Hn. exfalso. apply Hn. apply list_elem_of_here.
    + assert (Hrest : forall acc' e0,
                (JNull ∉ (item :: rest) ->
                 exists names e', storage.sanitize_names rest acc' e0 = (Ok names, e'))
                /\ (JNull ∈ (item :: rest) ->
                    exists e', storage.sanitize_names rest acc' e0 = (Throw TypeError, e'))).
      { intros acc' e0. destruct (IH acc' e0) as [A B]. split.
        - intros Hn. apply A. rewrite not_elem_of_cons in Hn. tauto.
        - intros Hin. apply B. apply elem_of_cons in Hin as [Hin|Hin]; [congruence|exact Hin]. }
      cbv zeta. case_bool_decide; [apply Hrest|].
      destruct (utils.createKey _ e) as [k e1].
      case_bool_decide; apply Hrest.
Qed.

Lemma map_history_outcome (l : list json) (e : entropy) :
  (JNull ∉ l -> exists mapped e', storage.map_history l e = (Ok mapped, e'))
  /\ (JNull ∈ l -> exists e', storage.map_history l e = (Throw TypeError, e')).
Proof.
  revert e. induction l as [|item rest IH]; intros e.
  - split; [intros _; eexists _, _; reflexivity|]. intros Hin. apply elem_of_nil in Hin. contradiction.
  - cbn [storage.map_history].
    destruct (get_outcome item (js "key")) as [[-> E]|[Hne [k E]]]; rewrite E.
    + split; [|intros _; eexists; reflexivity].
      intros Hn. exfalso. apply Hn. apply list_elem_of_here.
    + destruct (get_outcome item (js "ts")) as [[-> _]|[_ [t E2]]]; [contradiction|]. rewrite E2.
      destruct (get_outcome item (js "id")) as [[-> _]|[_ [i E3]]]; [contradiction|]. rewrite E3.
      destruct (match (if truthy i then i else None) with
                | Some v => (v, e)
                | None => let '(u, e') := randomUUID e in (JStr u, e')
                end) as [id e1].
      destruct (IH e1) as [A B]. split.
      * intros Hn. rewrite not_elem_of_cons in Hn.
        destruct (A ltac:(tauto)) as (mapped & e2 & ->). eexists _, _. reflexivity.
      * intros Hin. apply elem_of_cons in Hin as [Hin|Hin]; [congruence|].
        destruct (B Hin) as (e2 & ->). eexists. reflexivity.
Qed.

(** A document of the current version passes [parse] as it is. *)
Lemma parse_current_version (ms : list (jsstring * json)) :
  lookup_member (js "version") ms = Some (JNum (to_double 1)) ->
  storage.parse (Some (JObj ms)) = Ok (Some (JObj ms)).
Proof.
  intros Hv. cbn [storage.parse get]. rewrite Hv.
  change (storage.is_APP_VERSION (Some (JNum (to_double 1)))) with true. cbv iota.
  unfold storage.migrate. cbn [truthy negb prop get]. rewrite Hv. reflexivity.
Qed.

Lemma parse_outcome (parsed : option json) :
  (exists ms, parsed = Some (JObj ms)
     /\ lookup_member (js "version") ms = Some (JNum (to_double 1))
     /\ storage.parse parsed = Ok (Some (JObj ms)))
  \/ (exists err, storage.parse parsed = Throw err /\ err <> NoData).
Proof.
  destruct parsed as [p|]; [|right; eexists; split; [reflexivity|discriminate]].
  destruct p as [| | | |items|ms];
    try (right; eexists; split; [reflexivity|discriminate]).
  destruct (storage.is_APP_VERSION (lookup_member (js "version") ms)) eqn:Ev.
  - apply is_APP_VERSION_1 in Ev. left. exists ms.
    split; [reflexivity|]. split; [exact Ev|]. apply parse_current_version. exact Ev.
  - right. rewrite (parse_other_version ms Ev). cbv zeta.
    destruct (ToString_throws _); eexists; (split; [reflexivity|discriminate]).
Qed.

(** [Number(settings.spinMs)] is the one thing that stops the settings. *)
Lemma sanitize_settings_outcome (parsed_settings : jsvalue) :
  if storage.spinMs_throws parsed_settings
  then storage.sanitize_settings parsed_settings = Throw TypeError
  else exists settings, storage.sanitize_settings parsed_settings = Ok settings.
Proof.
  unfold storage.spinMs_throws, storage.sanitize_settings. cbv zeta.
  destruct (storage.merged_settings parsed_settings !! js "spinMs") as [v|];
    [|eexists; reflexivity].
  unfold storage.ToNumber, storage.Number.
  destruct (ToString_throws v); [reflexivity|eexists; reflexivity].
Qed.

(** X7: An import succeeds exactly on an object whose [version] is the number 1,
    whose [names] and [history] arrays hold no [null], and whose [spinMs],
    once the settings are laid over the defaults, converts to a Number
    without throwing; on an object of that version that fails one of the
    three it throws a TypeError; and the error for a document without data
    is never thrown, since [parse] returns the object it was given or
    throws. *)
Theorem importPayload_accepts (parsed : option json) (e : entropy) :
  ((exists p e', storage.importPayload parsed e = (Ok p, e'))
   <-> exists ms, parsed = Some (JObj ms)
         /\ lookup_member (js "version") ms = Some (JNum (to_double 1))
         /\ (JNull ∉ storage.array_items (lookup_member (js "names") ms))
         /\ (JNull ∉ storage.array_items (lookup_member (js "history") ms))
         /\ storage.spinMs_throws (lookup_member (js "settings") ms) = false)
  /\ (forall ms, parsed = Some (JObj ms) ->
        lookup_member (js "version") ms = Some (JNum (to_double 1)) ->
        JNull ∈ storage.array_items (lookup_member (js "names") ms)
        \/ JNull ∈ storage.array_items (lookup_member (js "history") ms)
        \/ storage.spinMs_throws (lookup_member (js "settings") ms) = true ->
        exists e', storage.importPayload parsed e = (Throw TypeError, e'))
  /\ (forall e', storage.importPayload parsed e <> (Throw NoData, e')).
Proof.
  unfold storage.importPayload.
  destruct (parse_outcome parsed) as [(ms & -> & Hv & Ep)|(err & Ep & Hnd)]; rewrite Ep.
  - cbn [truthy negb prop get]. cbv iota.
    set (names := storage.array_items (lookup_member (js "names") ms)).
    set (hist := storage.array_items (lookup_member (js "history") ms)).
    pose proof (sanitize_settings_outcome (lookup_member (js "settings") ms)) as Hset.
    destruct (sanitize_names_outcome names [] e) as [An Bn].
    assert (Hm : forall e1, (JNull ∉ hist ->
                   exists mapped e', storage.map_history hist e1 = (Ok mapped, e'))
                 /\ (JNull ∈ hist ->
                     exists e', storage.map_history hist e1 = (Throw TypeError, e')))
      by (intros e1; apply map_history_outcome).
    destruct (null_in_or_not names) as [Hn|Hn].
    + destruct (Bn Hn) as (e1 & ->).
      split; [|split; [intros; eexists; reflexivity|discriminate]].
      split; [intros (p & e' & [=])|].
      intros (ms' & [= <-] & _ & Hn' & _). contradiction.
    + destruct (An Hn) as (sanitized & e1 & ->).
      destruct (null_in_or_not hist) as [Hh|Hh].
      * destruct (proj2 (Hm e1) Hh) as (e2 & ->).
        split; [|split; [intros; eexists; reflexivity|discriminate]].
        split; [intros (p & e' & [=])|].
        intros (ms' & [= <-] & _ & _ & Hh' & _). contradiction.
      * destruct (proj1 (Hm e1) Hh) as (mapped & e2 & ->).
        destruct (storage.spinMs_throws (lookup_member (js "settings") ms)) eqn:Es.
        -- rewrite Hset.
           split; [|split; [intros; eexists; reflexivity|discriminate]].
           split; [intros (p & e' & [=])|].
           intros (ms' & [= <-] & _ & _ & _ & Es'). congruence.
        -- destruct Hset as (settings & ->).
           split; [|split; [|discriminate]].
           ++ split; [intros _; exists ms; auto|]. intros _. eexists _, _. reflexivity.
           ++ intros ms' [= <-] _ [Hc|[Hc|Hc]]; [contradiction|contradiction|congruence].
  - split; [|split].
    + split; [intros (p & e' & [=])|].
      intros (ms & -> & Hv & _). rewrite parse_current_version in Ep by exact Hv. discriminate.
    + intros ms -> Hv _. rewrite parse_current_version in Ep by exact Hv. discriminate.
    + intros e' [= ->]. contradiction.
Qed.

Lemma classKey_or_default (v : jsvalue) :
  truthy (Some match v with
               | Some c => if truthy (Some c) then c else JStr DEFAULT_CLASS_KEY
               | None => JStr DEFAULT_CLASS_KEY
               end) = true.
Proof.
  destruct v as [c|]; [|reflexivity].
  destruct (truthy (Some c)) eqn:Ec; [exact Ec|reflexivity].
Qed.

(** The names collected so far stay distinct by key, tidy and well keyed. *)
Lemma sanitize_names_shape (l : list json) (acc names : list name) (e e' : entropy) :
  storage.sanitize_names l acc e = (Ok names, e') ->
  NoDup (List.map key acc) ->
  Forall (fun n => tidy_line (raw n) = true /\ well_formed_key (key n) = true) acc ->
  NoDup (List.map key names)
  /\ Forall (fun n => tidy_line (raw n) = true /\ well_formed_key (key n) = true) names.
Proof.
  revert acc e. induction l as [|item rest IH]; intros acc e.
  - cbn. intros [= <- <-]. auto.
  - cbn [storage.sanitize_names]. destruct (get item (js "raw")) as [r|err]; [|discriminate].
    cbv zeta. set (line := match r with Some (JStr s) => utils.clean s | _ => [] end).
    case_bool_decide as Hl; [apply IH|].
    pose proof (createKey_well_formed line e) as Hk.
    destruct (utils.createKey line e) as [k e1]. cbn [fst] in Hk.
    case_bool_decide as Hs; [apply IH|].
    intros E Hnd Hf. apply (IH _ _ E).
    + rewrite List.map_app. cbn [List.map key]. apply NoDup_app. split; [exact Hnd|].
      split; [|apply NoDup_singleton].
      intros x Hx Hx'. apply list_elem_of_singleton in Hx'. subst x. contradiction.
    + apply Forall_app. split; [exact Hf|]. constructor; [|constructor].
      cbn [raw key]. split; [|exact Hk].
      unfold line in *. destruct r as [[| | |s| |]|]; try contradiction.
      apply clean_tidy. exact Hl.
Qed.

Lemma importPayload_shape (parsed : option json) (e e' : entropy) (p : payload) :
  storage.importPayload parsed e = (Ok p, e') ->
  NoDup (List.map key (p_names p))
  /\ Forall (fun n => tidy_line (raw n) = true /\ well_formed_key (key n) = true) (p_names p)
  /\ (forall k, k ∈ p_absentKeys p -> k ∈ List.map key (p_names p))
  /\ Forall (fun h => hkey h ∈ List.map key (p_names p) /\ Date_valid (hts h) = true)
       (p_history p)
  /\ length (p_history p) <= 20
  /\ (exists n, p_settings p !! js "spinMs" = Some (JNum n) /\ Number_isFinite n = true)
  /\ storage.includes [js "auto"; js "on"; js "off"]
       (p_settings p !! js "reducedMotionMode") = true
  /\ storage.includes [js "auto"; js "light"; js "dark"] (p_settings p !! js "theme") = true
  /\ truthy (Some (p_classKey p)) = true.
Proof.
  unfold storage.importPayload.
  destruct (storage.parse parsed) as [doc|err]; [|discriminate].
  destruct (negb (truthy doc)); [discriminate|]. cbv zeta.
  destruct (storage.sanitize_names _ [] e) as [[names|err] e1] eqn:En; [|discriminate].
  destruct (storage.map_history _ e1) as [[mapped|err] e2]; [|discriminate].
  destruct (storage.sanitize_settings _) as [settings|err] eqn:Es; [|discriminate].
  intros [= <- <-]. cbn [p_names p_absentKeys p_history p_settings p_classKey].
  destruct (sanitize_names_shape _ _ _ _ _ En) as [Hnd Hf]; [constructor|constructor|].
  split; [exact Hnd|]. split; [exact Hf|]. split; [|split; [|split]].
  - intros k Hk. apply list_elem_of_omap in Hk as (v & _ & Hv).
    destruct v; try discriminate. cbn in Hv.
    case_bool_decide; [|discriminate]. injection Hv as <-. assumption.
  - apply Forall_take, Forall_forall. intros h Hh.
    apply list_elem_of_omap in Hh as (m & _ & Hm).
    unfold storage.keep_entry in Hm.
    destruct (storage.m_key m) as [[| | |k| |]|]; try discriminate.
    destruct (storage.m_ts m) as [[| | |t| |]|]; try discriminate.
    destruct (bool_decide _ && Date_valid t) eqn:Eb; [|discriminate].
    injection Hm as <-. cbn [hkey hts].
    apply andb_true_iff in Eb as [Eb Ed]. apply bool_decide_eq_true in Eb. auto.
  - rewrite length_take. lia.
  - destruct (sanitize_settings_fields _ _ Es) as (A & B & C).
    split; [exact A|]. split; [exact B|]. split; [exact C|].
    apply classKey_or_default.
Qed.


(** X8: What [importPayload] returns is a consistent document: names distinct
    by key, each a tidy line with a key of the shape [createKey] gives;
    absent keys and history entries that refer to those names only; at most
    20 history entries, each with a timestamp that is a date; settings with
    a finite [spinMs] and the two modes among their values; and a truthy
    class key. *)
Theorem importPayload_sanitized (parsed : option json) (e e' : entropy) (p : payload) :
  storage.importPayload parsed e = (Ok p, e') ->
  NoDup (List.map key (p_names p))
  /\ Forall (fun n => tidy_line (raw n) = true /\ well_formed_key (key n) = true) (p_names p)
  /\ (forall k, k ∈ p_absentKeys p -> k ∈ List.map key (p_names p))
  /\ Forall (fun h => hkey h ∈ List.map key (p_names p) /\ Date_valid (hts h) = true)
       (p_history p)
  /\ length (p_history p) <= 20
  /\ (exists n, p_settings p !! js "spinMs" = Some (JNum n) /\ Number_isFinite n = true)
  /\ storage.includes [js "auto"; js "on"; js "off"]
       (p_settings p !! js "reducedMotionMode") = true
  /\ storage.includes [js "auto"; js "light"; js "dark"] (p_settings p !! js "theme") = true
  /\ truthy (Some (p_classKey p)) = true.
Proof. apply importPayload_shape. Qed.

End ImportSanitizer.

Lemma importPayload_sanitized_witness :
  let doc :=
    JObj [(js "version", JNum (to_double 1));
          (js "names", JArr [JObj [(js "raw", JStr (js " Anna   Novakova "))];
                             JObj [(js "raw", JStr (js "anna novakova"))];
                             JStr (js "Bob"); JObj [(js "raw", JStr (js "!"))]]);
          (js "absentKeys", JArr [JStr (js "anna-novakova"); JStr (js "bob"); JNull]);
          (js "history", JArr [JObj [(js "key", JStr (js "anna-novakova"));
                                     (js "ts", JStr (js "2024-05-17T09:30:00.000Z"))];
                               JObj [(js "key", JStr (js "bob"));
                                     (js "ts", JStr (js "2024-05-17T09:30:00.000Z"))]]);
          (js "settings", JObj [(js "spinMs", JStr (js "900")); (js "theme", JStr (js "blue"))])] in
  let e := Entropy (fun _ => 7%Z) (fun _ => js "u") 0 in
  exists p e',
    storage.importPayload (H := ascii_host) (Some doc) e = (Ok p, e')
    /\ p_names p = [{| raw := js "Anna Novakova"; key := js "anna-novakova" |};
                    {| raw := js "!"; key := js "id-7" |}]
    /\ NoDup (List.map key (p_names p))
    /\ Forall (fun n => tidy_line (raw n) = true /\ well_formed_key (key n) = true) (p_names p)
    /\ (forall k, k ∈ p_absentKeys p -> k ∈ List.map key (p_names p))
    /\ Forall (fun h => hkey h ∈ List.map key (p_names p)
                        /\ Date_valid (Host := ascii_host) (hts h) = true)
         (p_history p)
    /\ length (p_history p) <= 20
    /\ (exists n, p_settings p !! js "spinMs" = Some (JNum n) /\ Number_isFinite n = true)
    /\ storage.includes [js "auto"; js "on"; js "off"]
         (p_settings p !! js "reducedMotionMode") = true
    /\ storage.includes [js "auto"; js "light"; js "dark"] (p_settings p !! js "theme") = true
    /\ truthy (Some (p_classKey p)) = true.
Proof.
  intros doc e. eexists _, _. split; [vm_compute; reflexivity|].
  split; [reflexivity|].
  eapply (importPayload_sanitized (H := ascii_host) (Some doc) e).
  vm_compute. reflexivity.
Defined.

(** ** Duplicates in an imported roster *)

Section ImportDuplicates.
Context {H : Host}.

(** One [sanitizedNames.push], made unless the key was seen. *)
Local Abbreviation keep_first :=
  (fun (acc : list name) (n : name) =>
     if bool_decide (key n ∈ List.map key acc) then acc else acc ++ [n]).

Lemma sanitize_names_candidates (l : list json) (acc names : list name) (e e' : entropy) :
  storage.sanitize_names l acc e = (Ok names, e') ->
  names = foldl keep_first acc (storage.candidates l e).1
  /\ e' = (storage.candidates l e).2.
Proof.
  revert acc e. induction l as [|item rest IH]; intros acc e.
  - cbn. intros [= <- <-]. auto.
  - cbn [storage.sanitize_names storage.candidates].
    destruct (get item (js "raw")) as [r|err]; [|discriminate].
    cbv zeta.
    set (line := match r with Some (JStr s) => utils.clean s | _ => [] end).
    replace (match Ok r with Ok (Some (JStr s)) => utils.clean s | _ => [] end)
      with line by (destruct r as [[| | |s| |]|]; reflexivity).
    case_bool_decide as Hl; [apply IH|].
    unfold bind, ret. destruct (utils.createKey line e) as [k e1].
    case_bool_decide as Hs; intros E; apply IH in E as [E1 E2];
      destruct (storage.candidates rest e1) as [more e2]; cbn [fst snd foldl key] in *.
    + rewrite (bool_decide_eq_true_2 _ Hs). auto.
    + rewrite (bool_decide_eq_false_2 _ Hs). auto.
Qed.

Lemma first_with_key_snoc (k : jsstring) (l : list name) (n : name) :
  storage.first_with_key k (l ++ [n])
  = match storage.first_with_key k l with
    | Some x => Some x
    | None => if bool_decide (key n = k) then Some n else None
    end.
Proof.
  unfold storage.first_with_key. rewrite List.filter_app. cbn [List.filter].
  destruct (List.filter _ l) as [|x t]; [|reflexivity].
  cbn. destruct (bool_decide (key n = k)); reflexivity.
Qed.

Lemma first_with_key_none (k : jsstring) (l : list name) :
  storage.first_with_key k l = None <-> k ∉ List.map key l.
Proof.
  unfold storage.first_with_key. induction l as [|x l IH].
  - cbn. split; [intros _; apply not_elem_of_nil|reflexivity].
  - cbn [List.filter List.map]. rewrite not_elem_of_cons. case_bool_decide as Hk.
    + cbn. split; [discriminate|]. intros [Hne _]. congruence.
    + rewrite IH. split; [intros Hn; split; [congruence|exact Hn]|tauto].
Qed.

Lemma first_with_key_key (k : jsstring) (l : list name) (n : name) :
  storage.first_with_key k l = Some n -> key n = k.
Proof.
  unfold storage.first_with_key. intros Hh. apply head_Some_elem_of in Hh.
  apply list_elem_of_In, filter_In in Hh as [_ Hh]. apply bool_decide_eq_true in Hh. exact Hh.
Qed.

(** The names kept when each candidate is pushed unless its key was seen. *)
Lemma keep_first_spec (c : list name) :
  let names := foldl keep_first [] c in
  List.map key names = new_Set (List.map key c)
  /\ (forall n, n ∈ names <-> storage.first_with_key (key n) c = Some n).
Proof.
  cbv zeta. induction c as [|n c [IHk IHe]] using rev_ind.
  - split; [reflexivity|]. intros n. cbn. rewrite elem_of_nil. split; [contradiction|discriminate].
  - rewrite foldl_app. cbn [foldl].
    assert (Hseen : key n ∈ List.map key (foldl keep_first [] c) <-> key n ∈ List.map key c)
      by (rewrite IHk; apply new_Set_elem).
    split.
    + rewrite List.map_app. cbn [List.map]. rewrite new_Set_snoc.
      rewrite (bool_decide_ext _ _ Hseen).
      case_bool_decide; [exact IHk|]. rewrite List.map_app, IHk. reflexivity.
    + intros x. rewrite first_with_key_snoc.
      case_bool_decide as Hin.
      * rewrite IHe. apply Hseen in Hin.
        destruct (storage.first_with_key (key x) c) as [y|] eqn:Ey; [reflexivity|].
        split; [discriminate|]. case_bool_decide as Hk; [|discriminate].
        intros _. apply first_with_key_none in Ey. rewrite <- Hk in Ey. contradiction.
      * rewrite elem_of_app, list_elem_of_singleton, IHe.
        rewrite Hseen in Hin. apply first_with_key_none in Hin.
        destruct (storage.first_with_key (key x) c) as [y|] eqn:Ey.
        -- split; [intros [E| ->]; [exact E|congruence]|auto].
        -- case_bool_decide as Hk.
           ++ split; [intros [E| ->]; [discriminate|reflexivity]|intros [= ->]; auto].
           ++ split; [intros [E| ->]; [discriminate|contradiction]|discriminate].
Qed.

Lemma keep_first_sublist (acc c : list name) :
  sublist (foldl keep_first acc c) (acc ++ c).
Proof.
  revert acc. induction c as [|n c IH]; intros acc.
  - rewrite app_nil_r. reflexivity.
  - cbn [foldl]. case_bool_decide.
    + etransitivity; [apply IH|]. apply sublist_app; [reflexivity|]. apply sublist_cons. reflexivity.
    + etransitivity; [apply IH|]. rewrite <- app_assoc. reflexivity.
Qed.

(** X20: An import never overwrites a name: when several elements of the
    file's [names] clean to texts with the same key, the roster returned
    holds the first of them, at the place of that first occurrence, where
    [mergeNames] would hold the last.  The keys returned are the keys of the
    candidates, each once, in the order of their first occurrence. *)
Theorem importPayload_first_wins (ms : list (jsstring * json)) (e e' : entropy) (p : payload) :
  storage.importPayload (Some (JObj ms)) e = (Ok p, e') ->
  let c := (storage.candidates (storage.array_items (lookup_member (js "names") ms)) e).1 in
  List.map key (p_names p) = new_Set (List.map key c)
  /\ (forall n, n ∈ p_names p <-> storage.first_with_key (key n) c = Some n)
  /\ sublist (p_names p) c.
Proof.
  intros E. cbv zeta.
  unfold storage.importPayload in E.
  destruct (parse_outcome (Some (JObj ms))) as [(ms' & [= <-] & Hv & Ep)|(err & Ep & _)];
    rewrite Ep in E; [|discriminate].
  cbn [truthy negb prop get] in E. cbv iota in E.
  destruct (storage.sanitize_names _ [] e) as [[names|err] e1] eqn:En; [|discriminate].
  destruct (storage.map_history _ e1) as [[mapped|err] e2]; [|discriminate].
  destruct (storage.sanitize_settings _) as [settings|err]; [|discriminate].
  injection E as <- _. cbn [p_names].
  apply sanitize_names_candidates in En as [-> _].
  destruct (keep_first_spec (storage.candidates
              (storage.array_items (lookup_member (js "names") ms)) e).1) as [A B].
  split; [exact A|]. split; [exact B|]. apply (keep_first_sublist []).
Qed.

End ImportDuplicates.

Lemma importPayload_first_wins_witness :
  let ms :=
    [(js "version", JNum (to_double 1));
     (js "names", JArr [JObj [(js "raw", JStr (js "Anna Novakova"))];
                        JObj [(js "raw", JStr (js "Bob"))];
                        JNum (to_double 3);
                        JObj [(js "raw", JStr (js "anna   NOVAKOVA"))]])] in
  let e := Entropy (fun _ => 7%Z) (fun _ => js "u") 0 in
  exists p e',
    storage.importPayload (H := ascii_host) (Some (JObj ms)) e = (Ok p, e')
    /\ p_names p = [{| raw := js "Anna Novakova"; key := js "anna-novakova" |};
                    {| raw := js "Bob"; key := js "bob" |}]
    /\ let c := (storage.candidates (H := ascii_host)
                   (storage.array_items (lookup_member (js "names") ms)) e).1 in
       List.map key (p_names p) = new_Set (List.map key c)
       /\ (forall n, n ∈ p_names p <-> storage.first_with_key (key n) c = Some n)
       /\ sublist (p_names p) c.
Proof.
  intros ms e. eexists _, _. split; [vm_compute; reflexivity|].
  split; [reflexivity|].
  eapply (importPayload_first_wins (H := ascii_host) ms e). vm_compute. reflexivity.
Defined.

(** ** The page: what every handler keeps *)

Section Page.
Context {H : Host}.

Lemma nth_name_elem (l : list name) (index : Z) (n : name) :
  ui.nth_name l index = Some n -> n ∈ l.
Proof.
  unfold ui.nth_name. destruct (index <? 0)%Z; [discriminate|].
  apply list_elem_of_lookup_2.
Qed.

Lemma present_sub_names (d : state.data) (n : name) :
  n ∈ state.getPresentNames d -> n ∈ state.names d.
Proof. rewrite present_elem. tauto. Qed.

Lemma key_elem (n : name) (l : list name) : n ∈ l -> key n ∈ List.map key l.
Proof. intros Hn. apply list_elem_of_fmap. exists n. split; [reflexivity|exact Hn]. Qed.

(** The names the loop of [mergeNames] creates are tidy and well keyed. *)
Lemma incoming_shape (rawNames : list jsstring) (e : entropy) :
  Forall (fun n => tidy_line (raw n) = true /\ well_formed_key (key n) = true)
    (utils.incoming rawNames e).1.
Proof.
  revert e. induction rawNames as [|line rest IH]; intros e; [constructor|].
  cbn [utils.incoming]. case_bool_decide as Hl; [apply IH|].
  unfold bind. pose proof (createKey_well_formed (utils.clean line) e) as Hk.
  destruct (utils.createKey (utils.clean line) e) as [k e1]. cbn [fst] in Hk.
  specialize (IH e1). destruct (utils.incoming rest e1) as [more e2]. cbn [fst] in *.
  constructor; [|exact IH]. split; [apply clean_tidy; exact Hl|exact Hk].
Qed.

Lemma mergeNames_from (existing : list name) (rawNames : list jsstring) (e : entropy) (n : name) :
  n ∈ (utils.mergeNames existing rawNames e).1 ->
  n ∈ existing \/ n ∈ (utils.incoming rawNames e).1.
Proof.
  intros Hn. apply mergeNames_elem in Hn. unfold utils.last_with_key in Hn.
  apply last_Some_elem_of, list_elem_of_In, filter_In in Hn as [Hn _].
  apply list_elem_of_In, elem_of_app in Hn. exact Hn.
Qed.

Lemma mergeNames_keeps_keys (existing : list name) (rawNames : list jsstring) (e : entropy)
    (k : jsstring) :
  k ∈ List.map key existing -> k ∈ List.map key (utils.mergeNames existing rawNames e).1.
Proof.
  intros Hk. rewrite mergeNames_keys, new_Set_elem, List.map_app, elem_of_app. tauto.
Qed.

Lemma filter_all {A} (f : A -> bool) (l : list A) :
  (forall x, x ∈ l -> f x = true) -> List.filter f l = l.
Proof.
  induction l as [|x l IH]; intros Hf; [reflexivity|].
  cbn. rewrite Hf by apply list_elem_of_here. f_equal.
  apply IH. intros y Hy. apply Hf, list_elem_of_further, Hy.
Qed.

Lemma roster_ok_merged (d : state.data) (rawNames : list jsstring) (e : entropy) :
  ui.roster_ok d ->
  ui.roster_ok (state.setNames (utils.mergeNames (state.names d) rawNames e).1 d).
Proof.
  intros (Hn & Hs & Ha & Hok & Hh & Hl).
  unfold ui.roster_ok. cbn [state.setNames state.names state.absentKeys state.history].
  split; [rewrite mergeNames_keys; apply new_Set_NoDup|].
  split.
  { apply Forall_forall. intros n Hin. apply mergeNames_from in Hin as [Hin|Hin].
    - rewrite Forall_forall in Hs. apply Hs, Hin.
    - pose proof (incoming_shape rawNames e) as Hi. rewrite Forall_forall in Hi. apply Hi, Hin. }
  split; [apply NoDup_ListNoDup, List.NoDup_filter, NoDup_ListNoDup, Ha|].
  split; [apply setNames_prunes|].
  split; [|exact Hl].
  eapply Forall_impl; [exact Hh|]. intros h. apply mergeNames_keeps_keys.
Qed.

Lemma roster_ok_toggle (d : state.data) (k : jsstring) (isAbsent : bool) :
  ui.roster_ok d -> k ∈ List.map key (state.names d) ->
  ui.roster_ok (state.toggleAbsent k isAbsent d).
Proof.
  intros (Hn & Hs & Ha & Hok & Hh & Hl) Hk.
  unfold ui.roster_ok. cbn [state.toggleAbsent state.names state.history].
  split; [exact Hn|]. split; [exact Hs|]. split; [|split; [|split; assumption]].
  - cbn [state.toggleAbsent state.absentKeys]. destruct isAbsent.
    + case_bool_decide as Hin; [exact Ha|].
      apply NoDup_app. split; [exact Ha|]. split; [|apply NoDup_singleton].
      intros x Hx Hx'. apply list_elem_of_singleton in Hx'. subst x. contradiction.
    + apply NoDup_ListNoDup, List.NoDup_filter, NoDup_ListNoDup, Ha.
  - intros x Hx. apply toggleAbsent_elem in Hx. cbn [state.names].
    destruct isAbsent; [destruct Hx as [Hx| ->]; [auto|exact Hk]|destruct Hx; auto].
Qed.

Lemma roster_ok_import (parsed : option json) (e e' : entropy) (p : payload) (d : state.data) :
  storage.importPayload parsed e = (Ok p, e') ->
  ui.roster_ok (state.updateFromStorage p d).
Proof.
  intros E. destruct (importPayload_shape _ _ _ _ E) as (A & B & C & D & F & _).
  unfold ui.roster_ok. cbn [state.updateFromStorage state.names state.absentKeys state.history].
  split; [exact A|]. split; [exact B|]. split; [apply new_Set_NoDup|].
  split; [|split; [|exact F]].
  - intros k Hk. cbn [state.updateFromStorage state.names state.absentKeys] in Hk |- *.
    rewrite new_Set_elem in Hk. apply C, Hk.
  - eapply Forall_impl; [exact D|]. intros h Hh. apply Hh.
Qed.

Lemma roster_ok_addHistory (d : state.data) (h : entry) :
  ui.roster_ok d -> hkey h ∈ List.map key (state.names d) ->
  ui.roster_ok (state.addHistory h d).
Proof.
  intros (Hn & Hs & Ha & Hok & Hh & Hl) Hk.
  unfold ui.roster_ok. cbn [state.addHistory state.names state.absentKeys state.history].
  repeat (split; [assumption|]). split.
  - apply Forall_take. constructor; assumption.
  - rewrite length_take. lia.
Qed.

(** A notification changes neither the store nor the flags of a draw. *)
Lemma notify_data (u : ui.model) : ui.data (ui.notify u) = ui.data u.
Proof. unfold ui.notify. destruct (ToString_throws _); reflexivity. Qed.

Lemma mutate_data (o : state.op) (u : ui.model) :
  ui.data (ui.mutate o u) = state.apply o (ui.data u).
Proof. unfold ui.mutate. rewrite notify_data. reflexivity. Qed.

Lemma notify_flags (u : ui.model) :
  ui.awaiting (ui.notify u) = ui.awaiting u
  /\ ui.isDrawing (ui.notify u) = ui.isDrawing u
  /\ ui.spinning (ui.notify u) = ui.spinning u
  /\ ui.locked (ui.notify u) = ui.locked u
  /\ ui.currentReduced (ui.notify u) = ui.currentReduced u
  /\ ui.crypto (ui.notify u) = ui.crypto u.
Proof. unfold ui.notify. destruct (ToString_throws _); repeat split; reflexivity. Qed.

(** The class key the store ends up with has a string if the one assigned
    has: the default it takes for a falsy one is a string. *)
Lemma setClassKey_throws (k : json) (d : state.data) :
  ToString_throws (state.classKey (state.setClassKey k d)) = ToString_throws k.
Proof.
  cbn [state.setClassKey state.classKey].
  destruct (truthy (Some k)) eqn:Et; [reflexivity|].
  destruct k; try reflexivity; discriminate.
Qed.

Lemma present_keys_sub (d : state.data) (n : name) :
  n ∈ state.getPresentNames d -> key n ∈ List.map key (state.names d).
Proof. intros Hn. apply key_elem, present_sub_names, Hn. Qed.

(** Settings that can be shown stay so when a Number or a string is put
    in. *)
Lemma updateSettings_insert (s : object) (k : jsstring) (v : json) :
  ui.updateSettings_throws s = false -> ToString_throws v = false ->
  ui.updateSettings_throws (<[k := v]> s) = false.
Proof.
  unfold ui.updateSettings_throws. cbn [existsb]. rewrite !orb_false_iff.
  intros (A & B & C & _) Hv.
  assert (Hk : forall k', match s !! k' with Some w => ToString_throws w | None => false end = false ->
                 match <[k := v]> s !! k' with Some w => ToString_throws w | None => false end
                 = false).
  { intros k' Hk'. destruct (decide (k = k')) as [->|Hne].
    - rewrite lookup_insert_eq. exact Hv.
    - rewrite lookup_insert_ne by exact Hne. exact Hk'. }
  auto.
Qed.

Lemma setSettings_shown (d : state.data) (k : jsstring) (v : json) :
  ui.updateSettings_throws (state.settings d) = false -> ToString_throws v = false ->
  ui.updateSettings_throws (state.settings (state.setSettings {[ k := v ]} d)) = false.
Proof.
  intros Hs Hv. cbn [state.setSettings state.settings]. unfold spread.
  rewrite <- insert_union_singleton_l. apply updateSettings_insert; assumption.
Qed.

(** The settings of an imported document can be shown. *)
Lemma import_settings_shown (parsed : option json) (e e' : entropy) (p : payload) :
  storage.importPayload parsed e = (Ok p, e') ->
  ui.updateSettings_throws (spread DEFAULT_SETTINGS (p_settings p)) = false.
Proof.
  intros E. destruct (importPayload_shape _ _ _ _ E)
    as (_ & _ & _ & _ & _ & (n & Hn) & Hm & Ht & _).
  assert (Hin : forall allowed k, storage.includes allowed (p_settings p !! k) = true ->
            match spread DEFAULT_SETTINGS (p_settings p) !! k with
            | Some w => ToString_throws w
            | None => false
            end = false).
  { intros allowed k Hk. unfold spread.
    destruct (p_settings p !! k) as [[| | |m| |]|] eqn:Ek; try discriminate.
    rewrite (lookup_union_Some_l _ _ _ _ Ek). reflexivity. }
  unfold ui.updateSettings_throws. cbn [existsb]. rewrite !orb_false_iff.
  split; [|split; [eapply Hin, Hm|split; [eapply Hin, Ht|reflexivity]]].
  unfold spread. rewrite (lookup_union_Some_l _ _ _ _ (proj1 Hn)). reflexivity.
Qed.

(** A notification that does not throw brings the page up to date. *)
Lemma notify_fresh_page_ok (u : ui.model) :
  ToString_throws (state.classKey (ui.data u)) = false ->
  ui.updateSettings_throws (state.settings (ui.data u)) = false ->
  ui.roster_ok (ui.data u) -> ui.draw_flags_ok u ->
  ui.page_ok (ui.notify u).
Proof.
  intros Et Hs Hr Hf. unfold ui.notify. rewrite Et, Hs. cbv zeta.
  unfold ui.page_ok, ui.draw_flags_ok, ui.page_within_roster, ui.display_ok in *.
  cbn [ui.data ui.rendered ui.currentNames ui.lastWinnerKey ui.awaiting ui.isDrawing
       ui.spinning ui.locked ui.drawBtn_disabled].
  split; [exact Hr|]. split; [exact Hs|]. split; [exact Hf|]. split.
  - split; [intros n; apply key_elem|intros n; apply present_keys_sub].
  - intros _. split; [reflexivity|]. split; [reflexivity|]. split; [|reflexivity].
    intros k. destruct (ui.lastWinnerKey u) as [k0|]; [|discriminate].
    case_bool_decide as Hk; [|discriminate]. intros [= <-]. exact Hk.
Qed.

(** A notification keeps the invariant whether it throws or not, when the
    page was within the roster before it. *)
Lemma notify_page_ok (u : ui.model) :
  ui.roster_ok (ui.data u) ->
  ui.updateSettings_throws (state.settings (ui.data u)) = false ->
  ui.draw_flags_ok u -> ui.page_within_roster u ->
  ui.page_ok (ui.notify u).
Proof.
  intros Hr Hs Hf Hw.
  destruct (ToString_throws (state.classKey (ui.data u))) eqn:Et.
  - unfold ui.notify. rewrite Et. unfold ui.page_ok.
    split; [exact Hr|]. split; [exact Hs|]. split; [exact Hf|]. split; [exact Hw|].
    rewrite Et. discriminate.
  - apply notify_fresh_page_ok; assumption.
Qed.

(** A mutation that keeps the keys of the roster keeps the invariant. *)
Lemma mutate_page_ok (o : state.op) (u : ui.model) :
  ui.page_ok u ->
  ui.roster_ok (state.apply o (ui.data u)) ->
  ui.updateSettings_throws (state.settings (state.apply o (ui.data u))) = false ->
  (forall k, k ∈ List.map key (state.names (ui.data u)) ->
             k ∈ List.map key (state.names (state.apply o (ui.data u)))) ->
  ui.page_ok (ui.mutate o u).
Proof.
  intros (_ & _ & Hf & [Hw1 Hw2] & _) Hr Hs Hk. unfold ui.mutate. apply notify_page_ok.
  - exact Hr.
  - exact Hs.
  - exact Hf.
  - split; intros n Hn; apply Hk; [apply Hw1|apply Hw2]; exact Hn.
Qed.

(** The continuation of a draw whose promise is resolved. *)
Lemma resume_resolved (now : jsstring) (v : ui.model) (sel : option name) :
  ui.awaiting v = Some (ui.Resolved sel) ->
  ui.spinning v = false ->
  ui.roster_ok (ui.data v) ->
  ui.updateSettings_throws (state.settings (ui.data v)) = false ->
  ui.page_within_roster v ->
  (ToString_throws (state.classKey (ui.data v)) = false -> ui.display_ok v) ->
  (forall n, sel = Some n -> n ∈ ui.currentNames v) ->
  ui.page_ok (ui.resume now v).
Proof.
  intros Ea Es Hr Hs Hw Hd Hsel. unfold ui.resume. rewrite Ea.
  destruct sel as [n|].
  - cbv zeta. destruct (randomUUID _) as [id e']. unfold ui.mutate.
    apply notify_page_ok.
    + cbn [ui.with_data ui.data ui.lockInteractions state.apply].
      apply roster_ok_addHistory; [exact Hr|].
      cbn [hkey]. apply (proj2 Hw). auto.
    + exact Hs.
    + unfold ui.draw_flags_ok.
      cbn [ui.with_data ui.lockInteractions ui.awaiting ui.isDrawing ui.spinning ui.locked].
      auto.
    + destruct Hw as [Hw1 Hw2]. split; intros m Hm; [apply Hw1|apply Hw2]; exact Hm.
  - unfold ui.page_ok, ui.draw_flags_ok, ui.page_within_roster, ui.display_ok in *.
    cbn [ui.lockInteractions ui.data ui.rendered ui.currentNames ui.lastWinnerKey
         ui.awaiting ui.isDrawing ui.spinning ui.locked ui.drawBtn_disabled].
    split; [exact Hr|]. split; [exact Hs|]. split; [auto|]. split; [exact Hw|].
    intros Et. destruct (Hd Et) as (A & B & C & _).
    split; [exact A|]. split; [exact B|]. split; [exact C|reflexivity].
Qed.

(** A continuation with nothing to continue changes nothing. *)
Lemma resume_nothing (now : jsstring) (u : ui.model) :
  ui.draw_flags_ok u -> ui.resume now u = u.
Proof.
  unfold ui.draw_flags_ok, ui.resume.
  destruct (ui.awaiting u) as [[sel|i]|]; [contradiction|reflexivity|reflexivity].
Qed.

Lemma handleDraw_resume_ok (now : jsstring) (u : ui.model) :
  ui.page_ok u -> ui.page_ok (ui.resume now (ui.handleDraw u)).
Proof.
  intros Hp. pose proof Hp as (Hr & Hs & Hf & Hw & Hd).
  unfold ui.handleDraw.
  destruct (ui.isDrawing u || ui.spinning u) eqn:Eg;
    [rewrite resume_nothing by exact Hf; exact Hp|].
  apply orb_false_iff in Eg as [Ei Es].
  destruct (length (state.getPresentNames (ui.data u)) =? 0)%nat;
    [rewrite resume_nothing by exact Hf; exact Hp|].
  destruct (rng.index _ (ui.crypto u)) as [index e'].
  assert (Hd' : ToString_throws (state.classKey (ui.data u)) = false ->
                ui.rendered u = state.names (ui.data u)
                /\ ui.currentNames u = state.getPresentNames (ui.data u)
                /\ (forall k, ui.lastWinnerKey u = Some k ->
                      k ∈ List.map key (state.getPresentNames (ui.data u)))).
  { intros Et. destruct (Hd Et) as (A & B & C & _). auto. }
  unfold ui.spinTo.
  cbn [ui.lockInteractions ui.currentNames ui.spinning].
  case_bool_decide as Hnil.
  - eapply resume_resolved;
      unfold ui.page_within_roster, ui.display_ok;
      cbn [ui.awaiting ui.spinning ui.currentNames ui.rendered ui.data
           ui.lockInteractions ui.lastWinnerKey];
      [reflexivity|exact Es|exact Hr|exact Hs|exact Hw| |discriminate].
    intros Et. destruct (Hd' Et) as (A & B & C).
    split; [exact A|]. split; [exact B|]. split; [exact C|discriminate].
  - match goal with
    | |- context [ui.shouldReduceMotion ?s ?v] => destruct (ui.shouldReduceMotion s v)
    end.
    + eapply resume_resolved;
        unfold ui.page_within_roster, ui.display_ok;
        cbn [ui.awaiting ui.spinning ui.currentNames ui.rendered ui.data
             ui.lockInteractions ui.lastWinnerKey];
        [reflexivity|exact Es|exact Hr|exact Hs|exact Hw| | ].
      * intros Et. destruct (Hd' Et) as (A & B & C).
        split; [exact A|]. split; [exact B|]. split; [exact C|discriminate].
      * intros n [= Hn]. apply nth_name_elem in Hn. exact Hn.
    + rewrite Es. unfold ui.resume. cbn [ui.awaiting].
      unfold ui.page_ok, ui.draw_flags_ok, ui.page_within_roster, ui.display_ok.
      cbn [ui.lockInteractions ui.data ui.rendered ui.currentNames ui.lastWinnerKey
           ui.awaiting ui.isDrawing ui.spinning ui.locked ui.drawBtn_disabled].
      split; [exact Hr|]. split; [exact Hs|]. split; [auto|]. split; [exact Hw|].
      intros Et. destruct (Hd' Et) as (A & B & C).
      split; [exact A|]. split; [exact B|]. split; [exact C|discriminate].
Qed.

Lemma started_ok (reduced : bool) (e : entropy) : ui.page_ok (ui.started reduced e).
Proof.
  unfold ui.page_ok, ui.roster_ok, ui.draw_flags_ok, ui.page_within_roster, ui.display_ok.
  cbn [ui.started ui.data ui.rendered ui.currentNames ui.lastWinnerKey ui.awaiting
       ui.isDrawing ui.spinning ui.locked ui.drawBtn_disabled
       state.initial state.names state.absentKeys state.history state.settings
       List.map length].
  split.
  { split; [constructor|]. split; [constructor|]. split; [constructor|].
    split; [|split; [constructor|lia]].
    intros k Hk. apply elem_of_nil in Hk. contradiction. }
  split; [reflexivity|]. split; [auto|]. split.
  { split; intros n Hn; apply elem_of_nil in Hn; contradiction. }
  intros _. split; [reflexivity|]. split; [reflexivity|]. split; [discriminate|reflexivity].
Qed.

(** The invariant does not read the random source, the hydration flag or
    the motion preference of the system. *)
Lemma page_ok_ext (u v : ui.model) :
  ui.data v = ui.data u -> ui.rendered v = ui.rendered u ->
  ui.currentNames v = ui.currentNames u -> ui.spinning v = ui.spinning u ->
  ui.isDrawing v = ui.isDrawing u -> ui.lastWinnerKey v = ui.lastWinnerKey u ->
  ui.locked v = ui.locked u -> ui.drawBtn_disabled v = ui.drawBtn_disabled u ->
  ui.awaiting v = ui.awaiting u ->
  ui.page_ok u -> ui.page_ok v.
Proof.
  unfold ui.page_ok, ui.draw_flags_ok, ui.page_within_roster, ui.display_ok.
  intros -> -> -> -> -> -> -> -> ->. exact (fun Hp => Hp).
Qed.

Lemma addNames_ok (lines : list jsstring) (u : ui.model) :
  ui.page_ok u -> ui.page_ok (ui.addNames lines u).
Proof.
  intros Hp. unfold ui.addNames. case_bool_decide; [exact Hp|].
  pose proof (roster_ok_merged (ui.data u) lines (ui.crypto u) (proj1 Hp)) as Hm.
  pose proof (fun k => mergeNames_keeps_keys (state.names (ui.data u)) lines (ui.crypto u) k)
    as Hk.
  destruct (utils.mergeNames _ lines (ui.crypto u)) as [merged e']. cbn [fst] in Hm, Hk.
  apply mutate_page_ok.
  - eapply page_ok_ext; [..|exact Hp]; reflexivity.
  - exact Hm.
  - exact (proj1 (proj2 Hp)).
  - exact Hk.
Qed.

Lemma mutate_same_roster (o : state.op) (u : ui.model) :
  match o with
  | state.SetClassKey _ | state.ResetHistory => True
  | state.SetSettings partial =>
      exists k v, partial = {[ k := v ]} /\ ToString_throws v = false
  | _ => False
  end ->
  ui.page_ok u -> ui.page_ok (ui.mutate o u).
Proof.
  intros Ho Hp. apply mutate_page_ok; [exact Hp| | |].
  - destruct Hp as ((Hn & Hs & Ha & Hok & Hh & Hl) & _).
    destruct o; try contradiction; unfold ui.roster_ok; cbn; repeat split; try assumption.
    + constructor.
    + lia.
  - pose proof (proj1 (proj2 Hp)) as Hs.
    destruct o; try contradiction; try exact Hs.
    destruct Ho as (k0 & v0 & -> & Hv). apply setSettings_shown; assumption.
  - destruct o; try contradiction; intros key0 Hkey0; exact Hkey0.
Qed.

(** An import: the class key is assigned and notified first, and the
    document replaces the roster only if that notification did not throw. *)
Lemma handleJsonFileChange_ok (parsed : option json) (u : ui.model) :
  ui.page_ok u -> ui.page_ok (ui.handleJsonFileChange parsed u).1.
Proof.
  intros Hp. unfold ui.handleJsonFileChange.
  destruct (storage.importPayload parsed (ui.crypto u)) as [[p|err] e'] eqn:Ei; cbn [fst].
  - cbv zeta.
    set (u1 := ui.Model _ _ _ _ _ _ _ _ _ _ _ _).
    assert (H2 : ui.page_ok (ui.mutate (state.SetClassKey (p_classKey p)) u1)).
    { destruct Hp as (Hr & Hs & Hf & Hw & _). unfold ui.mutate. apply notify_page_ok.
      - destruct Hr as (Hn & Hs' & Ha & Hok & Hh & Hl).
        unfold ui.roster_ok; cbn; repeat split; assumption.
      - exact Hs.
      - exact Hf.
      - exact Hw. }
    set (u2 := ui.mutate (state.SetClassKey (p_classKey p)) u1) in *.
    destruct (ui.notify_throws (ui.data u2)) eqn:Et; cbn [fst]; [exact H2|].
    apply orb_false_iff in Et as [Et _].
    assert (H3 : ui.page_ok (ui.mutate (state.UpdateFromStorage p) u2)).
    { unfold ui.mutate. apply notify_fresh_page_ok.
      - exact Et.
      - cbn [ui.with_data ui.data state.apply state.updateFromStorage state.settings].
        eapply import_settings_shown. exact Ei.
      - cbn [ui.with_data ui.data state.apply]. eapply roster_ok_import. exact Ei.
      - exact (proj1 (proj2 (proj2 H2))). }
    destruct (ui.notify_throws _); cbn [fst]; [exact H3|].
    eapply page_ok_ext; [..|exact H3]; reflexivity.
  - eapply page_ok_ext; [..|exact Hp]; reflexivity.
Qed.

(** Every listener keeps the invariant of the page. *)
Lemma dispatch_ok (ev : ui.event) (u : ui.model) :
  ui.page_ok u -> ui.page_ok (ui.dispatch ev u).
Proof.
  intros Hp. destruct ev as [value|text|i checked|parsed|now|now|now| |value|value|value| |b];
    cbn [ui.dispatch].
  - apply addNames_ok; assumption.
  - apply addNames_ok; assumption.
  - unfold ui.handleAbsentToggle.
    destruct (ui.rendered u !! i) as [n|] eqn:En; cbn [fmap option_fmap option_map];
      [|exact Hp].
    case_bool_decide; [exact Hp|].
    apply mutate_page_ok;
      [exact Hp| |exact (proj1 (proj2 Hp))|intros k Hk; exact Hk].
    apply roster_ok_toggle; [exact (proj1 Hp)|].
    destruct Hp as (_ & _ & _ & [Hw _] & _). apply Hw. eapply list_elem_of_lookup_2, En.
  - apply handleJsonFileChange_ok. exact Hp.
  - unfold ui.click_drawBtn. destruct (ui.drawBtn_disabled u).
    + rewrite resume_nothing by exact (proj1 (proj2 (proj2 Hp))). exact Hp.
    + apply handleDraw_resume_ok; assumption.
  - apply handleDraw_resume_ok; assumption.
  - pose proof Hp as (Hr & Hs & Hf & Hw & Hd). unfold ui.transitionend.
    unfold ui.draw_flags_ok in Hf.
    destruct (ui.awaiting u) as [[sel|j]|] eqn:Ea; [contradiction| |].
    + eapply resume_resolved;
        unfold ui.page_within_roster, ui.display_ok;
        cbn [ui.awaiting ui.spinning ui.currentNames ui.rendered ui.data ui.lastWinnerKey];
        [reflexivity|reflexivity|exact Hr|exact Hs|exact Hw| | ].
      * intros Et. destruct (Hd Et) as (A & B & C & _).
        split; [exact A|]. split; [exact B|]. split; [exact C|discriminate].
      * intros n [= Hn]. apply nth_name_elem in Hn. exact Hn.
    + unfold ui.resume. rewrite Ea. exact Hp.
  - unfold ui.handleResetHistory. apply mutate_same_roster; [exact I|assumption].
  - unfold ui.handleSpinDurationChange. cbv zeta.
    destruct (Number_isNaN _); [exact Hp|].
    apply mutate_same_roster; [eexists _, _; split; reflexivity|assumption].
  - unfold ui.handleMotionModeChange.
    apply mutate_same_roster; [eexists _, _; split; reflexivity|assumption].
  - unfold ui.handleThemeModeChange.
    apply mutate_same_roster; [eexists _, _; split; reflexivity|assumption].
  - unfold ui.handleThemeToggle. cbv zeta.
    apply mutate_same_roster; [eexists _, _; split; reflexivity|assumption].
  - eapply page_ok_ext; [..|exact Hp]; reflexivity.
Qed.

Lemma events_ok (evs : list ui.event) (reduced : bool) (e : entropy) :
  ui.page_ok (ui.events evs (ui.started reduced e)).
Proof.
  induction evs as [|ev evs IH] using rev_ind; [apply started_ok|].
  unfold ui.events in *. rewrite foldl_app. cbn [foldl]. apply dispatch_ok; apply IH.
Qed.

(** X9: Whatever the listeners of the page have run since it started on an
    empty storage (names added or read from an image, checkboxes changed,
    files imported, draws requested, ended and stopped, history reset,
    settings changed), the snapshot is consistent: the keys of the roster
    are distinct and have the shape of a key, the names are tidy lines, the
    absence set and the history refer to names of the roster only, and the
    history holds at most 20 entries. *)
Theorem page_keeps_roster_consistent (evs : list ui.event) (reduced : bool) (e : entropy) :
  ui.roster_ok (ui.data (ui.events evs (ui.started reduced e))).
Proof. apply events_ok. Qed.

(** X10: Between any two events the flags of a draw agree: either no draw is
    running and nothing is locked, or one draw is awaited with the wheel
    turning and the interactions locked.  The settings are values the
    settings fields can show, and the names on the list of the page and on
    the wheel carry keys of the roster.  And while the class key has a
    string the page shows the snapshot: the list holds the roster, the
    wheel holds exactly the present names, the winner shown is the key of a
    present name, and with no draw running the draw button is enabled
    exactly when two or more names are present.  After an import of a class
    key without a string the notifications throw, and the list, the wheel
    and the draw button are not brought up to date while that class key
    stays. *)
Theorem page_shows_snapshot (evs : list ui.event) (reduced : bool) (e : entropy) :
  let u := ui.events evs (ui.started reduced e) in
  ui.draw_flags_ok u
  /\ ui.updateSettings_throws (state.settings (ui.data u)) = false
  /\ ui.page_within_roster u
  /\ (ToString_throws (state.classKey (ui.data u)) = false -> ui.display_ok u).
Proof.
  cbv zeta. destruct (events_ok evs reduced e) as (_ & Hs & Hf & Hw & Hd). auto.
Qed.

End Page.

(** ** A draw, an import and an addition, from start to end *)

Section Outcomes.
Context {H : Host}.

(** X11: A draw requested while no draw is running, with at least one name
    present, ends the same way with and without the animation: the name at
    the index drawn among the present names wins; one entry for it, with
    the time and a fresh identifier, is put at the front of the history,
    which is cut at 20; that name is the winner shown; the roster, the
    absence set and the settings are untouched; two values were taken from
    [crypto]; and the page is unlocked, with the draw button enabled exactly
    when two or more names are present.  The names list of the page is
    rendered again, unless the class key has no string. *)
Theorem draw_outcome (now : jsstring) (u : ui.model) :
  ui.isDrawing u = false -> ui.spinning u = false ->
  ui.currentNames u = state.getPresentNames (ui.data u) ->
  state.getPresentNames (ui.data u) <> [] ->
  (Z.of_nat (length (state.getPresentNames (ui.data u))) < 2 ^ 53)%Z ->
  let present := state.getPresentNames (ui.data u) in
  let index := (rng.index (Z.of_nat (length present)) (ui.crypto u)).1 in
  exists winner,
    present !! Z.to_nat index = Some winner
    /\ ui.draw now u
       = {| ui.data :=
              state.addHistory
                {| hkey := key winner; hts := now;
                   hid := JStr (uuids (ui.crypto u) (S (used (ui.crypto u)))) |}
                (ui.data u);
            ui.rendered :=
              if ToString_throws (state.classKey (ui.data u)) then ui.rendered u
              else state.names (ui.data u);
            ui.currentNames := present;
            ui.spinning := false;
            ui.isDrawing := false;
            ui.lastWinnerKey := Some (key winner);
            ui.isHydrating := ui.isHydrating u;
            ui.currentReduced := ui.currentReduced u;
            ui.locked := false;
            ui.drawBtn_disabled := ui.updateButtons (ui.data u);
            ui.awaiting := None;
            ui.crypto := consume (consume (ui.crypto u)) |}.
Proof.
  intros Ei Es Ec Hne Hlen. cbv zeta.
  set (present := state.getPresentNames (ui.data u)) in *.
  assert (Hpos : (0 < Z.of_nat (length present))%Z) by (destruct present; [contradiction|cbn; lia]).
  rewrite index_positive by exact Hpos. cbn [fst].
  set (index := rng.scale (Z.of_nat (length present)) (getRandomValues (ui.crypto u)).1).
  assert (Hi : (0 <= index < Z.of_nat (length present))%Z).
  { split.
    - apply scale_not_negative; [lia|apply getRandomValues_range].
    - apply scale_below; [apply getRandomValues_range|lia]. }
  destruct (lookup_lt_is_Some_2 present (Z.to_nat index) ltac:(lia)) as [winner Hw].
  exists winner. split; [exact Hw|].
  assert (Hsel : ui.nth_name present index = Some winner).
  { unfold ui.nth_name. destruct (Z.ltb_spec index 0); [lia|exact Hw]. }
  assert (Hk : key winner ∈ List.map key present)
    by (apply key_elem; eapply list_elem_of_lookup_2, Hw).
  unfold ui.draw, ui.handleDraw. rewrite Ei, Es. cbn [orb]. fold present.
  destruct (Nat.eqb_spec (length present) 0) as [E0|_]; [lia|].
  rewrite index_positive by exact Hpos. fold index.
  unfold ui.spinTo. cbn [ui.lockInteractions ui.currentNames ui.spinning].
  rewrite Ec, Es. rewrite bool_decide_eq_false_2 by exact Hne.
  assert (Hend : forall v,
            ui.awaiting v = Some (ui.Resolved (Some winner)) ->
            ui.data v = ui.data u -> ui.spinning v = false ->
            ui.isHydrating v = ui.isHydrating u -> ui.currentReduced v = ui.currentReduced u ->
            ui.crypto v = consume (ui.crypto u) ->
            ui.rendered v = ui.rendered u -> ui.currentNames v = present ->
            ui.resume now v
            = {| ui.data :=
                   state.addHistory
                     {| hkey := key winner; hts := now;
                        hid := JStr (uuids (ui.crypto u) (S (used (ui.crypto u)))) |}
                     (ui.data u);
                 ui.rendered :=
                   if ToString_throws (state.classKey (ui.data u)) then ui.rendered u
                   else state.names (ui.data u);
                 ui.currentNames := present; ui.spinning := false; ui.isDrawing := false;
                 ui.lastWinnerKey := Some (key winner); ui.isHydrating := ui.isHydrating u;
                 ui.currentReduced := ui.currentReduced u; ui.locked := false;
                 ui.drawBtn_disabled := ui.updateButtons (ui.data u);
                 ui.awaiting := None; ui.crypto := consume (consume (ui.crypto u)) |}).
  { intros v Ea Ed Esv Eh Er Ecr Ern Ecn. unfold ui.resume. rewrite Ea.
    cbn [ui.lockInteractions ui.crypto ui.data]. rewrite Ecr.
    unfold randomUUID, ui.mutate, ui.notify.
    cbn [ui.with_data ui.lockInteractions ui.data ui.lastWinnerKey ui.currentNames
         ui.rendered ui.spinning ui.isDrawing ui.isHydrating ui.currentReduced ui.locked
         ui.drawBtn_disabled ui.awaiting ui.crypto state.apply consume uuids used raw32].
    rewrite Ed, Esv, Eh, Er, Ern, Ecn.
    change (state.classKey (state.addHistory _ (ui.data u))) with (state.classKey (ui.data u)).
    destruct (ToString_throws (state.classKey (ui.data u))); [reflexivity|].
    change (state.getPresentNames (state.addHistory _ (ui.data u))) with present.
    rewrite bool_decide_eq_true_2 by exact Hk.
    destruct (ui.updateSettings_throws _); reflexivity. }
  match goal with
  | |- context [ui.shouldReduceMotion ?s ?v] => destruct (ui.shouldReduceMotion s v)
  end.
  - unfold ui.transitionend. cbn [ui.awaiting]. apply Hend; try reflexivity.
    cbn [ui.awaiting]. rewrite Hsel. reflexivity.
  - unfold ui.transitionend. cbn [ui.awaiting]. apply Hend; try reflexivity.
    cbn [ui.awaiting ui.currentNames]. rewrite Hsel. reflexivity.
Qed.

(** X12: What the file handler does with a document the import returned,
    on a page whose settings the settings fields can show.  When the class
    key of the document has a string, the store holds the document under
    that class key, the page is up to date with it and reports the number
    of names read; the winner shown is the key of the newest imported
    history entry only if that key was the key of a present name before the
    import and is one after it, and otherwise no winner is shown, as when
    the roster was empty before.  When the class key has no string, the
    notification of the class key throws: the store has the new class key
    and nothing else of the document, the page is as it was but for the
    winner, which is set to the newest imported key unchecked, the
    hydration flag stays set, and the alert reports the TypeError. *)
Theorem import_outcome (parsed : option json) (u : ui.model) (p : payload) (e' : entropy) :
  storage.importPayload parsed (ui.crypto u) = (Ok p, e') ->
  ui.updateSettings_throws (state.settings (ui.data u)) = false ->
  let before := List.map key (state.getPresentNames (ui.data u)) in
  let u' := (ui.handleJsonFileChange parsed u).1 in
  let after := List.map key (state.getPresentNames (ui.data u')) in
  if ToString_throws (p_classKey p) then
    ui.handleJsonFileChange parsed u
    = ({| ui.data := state.setClassKey (p_classKey p) (ui.data u);
          ui.rendered := ui.rendered u;
          ui.currentNames := ui.currentNames u;
          ui.spinning := ui.spinning u;
          ui.isDrawing := ui.isDrawing u;
          ui.lastWinnerKey :=
            match p_history p with
            | newest :: _ => Some (hkey newest)
            | [] => None
            end;
          ui.isHydrating := true;
          ui.currentReduced := ui.currentReduced u;
          ui.locked := ui.locked u;
          ui.drawBtn_disabled := ui.drawBtn_disabled u;
          ui.awaiting := ui.awaiting u;
          ui.crypto := e' |}, ui.ImportFailed TypeError)
  else
    ui.data u' = state.updateFromStorage p (state.setClassKey (p_classKey p) (ui.data u))
    /\ (ui.handleJsonFileChange parsed u).2 = ui.ImportSucceeded (length (p_names p))
    /\ ui.rendered u' = state.names (ui.data u')
    /\ ui.currentNames u' = state.getPresentNames (ui.data u')
    /\ ui.drawBtn_disabled u' = ui.updateButtons (ui.data u')
    /\ ui.isHydrating u' = false
    /\ ui.crypto u' = e'
    /\ ui.lastWinnerKey u'
       = match p_history p with
         | newest :: _ =>
             if bool_decide (hkey newest ∈ before) && bool_decide (hkey newest ∈ after)
             then Some (hkey newest) else None
         | [] => None
         end
    /\ (state.getPresentNames (ui.data u) = [] -> ui.lastWinnerKey u' = None).
Proof.
  intros E Hs. cbv zeta.
  pose proof (import_settings_shown _ _ _ _ E) as Hs'.
  unfold ui.handleJsonFileChange. rewrite E. cbv zeta.
  rewrite (mutate_data (state.SetClassKey (p_classKey p))).
  rewrite (mutate_data (state.UpdateFromStorage p)).
  rewrite (mutate_data (state.SetClassKey (p_classKey p))).
  unfold ui.notify_throws.
  cbn [ui.data state.apply state.updateFromStorage state.settings state.classKey].
  change (state.settings (state.setClassKey (p_classKey p) (ui.data u)))
    with (state.settings (ui.data u)).
  rewrite Hs, Hs'. rewrite !setClassKey_throws, !orb_false_r.
  destruct (ToString_throws (p_classKey p)) eqn:Et.
  - unfold ui.mutate, ui.notify. cbn [ui.with_data ui.data state.apply].
    rewrite setClassKey_throws, Et. reflexivity.
  - cbn [fst snd]. unfold ui.set_hydrating, ui.mutate, ui.notify.
    cbn [ui.with_data ui.data state.apply].
    rewrite setClassKey_throws, Et.
    cbn [ui.with_data ui.data ui.rendered ui.currentNames ui.lastWinnerKey
         ui.drawBtn_disabled ui.isHydrating ui.crypto state.apply].
    change (state.classKey (state.updateFromStorage p
              (state.setClassKey (p_classKey p) (ui.data u))))
      with (state.classKey (state.setClassKey (p_classKey p) (ui.data u))).
    rewrite setClassKey_throws, Et.
    change (state.settings (state.updateFromStorage p
              (state.setClassKey (p_classKey p) (ui.data u))))
      with (spread DEFAULT_SETTINGS (p_settings p)).
    rewrite Hs'.
    cbn [ui.with_data ui.data ui.rendered ui.currentNames ui.lastWinnerKey
         ui.drawBtn_disabled ui.isHydrating ui.crypto state.apply].
    change (state.getPresentNames (state.setClassKey (p_classKey p) (ui.data u)))
      with (state.getPresentNames (ui.data u)).
    repeat (split; [reflexivity|]).
    split.
    + destruct (p_history p) as [|newest rest]; [reflexivity|].
      destruct (bool_decide (hkey newest ∈ List.map key (state.getPresentNames (ui.data u))));
        reflexivity.
    + intros ->. destruct (p_history p) as [|newest rest]; reflexivity.
Qed.

(** X13: Adding names never changes who is marked absent: with an absence set
    that marks names of the roster only, the set, the history, the settings
    and the class key are as before, every key of the roster is still a key
    of the roster, and every name that was present still has a present name
    under its key. *)
Theorem addNames_keeps_marks (lines : list jsstring) (u : ui.model) :
  state.absent_ok (ui.data u) ->
  let d := ui.data u in
  let d' := ui.data (ui.addNames lines u) in
  state.absentKeys d' = state.absentKeys d
  /\ state.history d' = state.history d
  /\ state.settings d' = state.settings d
  /\ state.classKey d' = state.classKey d
  /\ (forall k, k ∈ List.map key (state.names d) -> k ∈ List.map key (state.names d'))
  /\ (forall k, k ∈ List.map key (state.getPresentNames d) ->
        k ∈ List.map key (state.getPresentNames d')).
Proof.
  intros Hok. cbv zeta. unfold ui.addNames.
  case_bool_decide; [repeat split; auto|].
  pose proof (fun k => mergeNames_keeps_keys (state.names (ui.data u)) lines (ui.crypto u) k) as Hkeep.
  destruct (utils.mergeNames _ lines (ui.crypto u)) as [merged e']. cbn [fst] in Hkeep.
  rewrite mutate_data.
  cbn [ui.data state.apply state.setNames
       state.absentKeys state.history state.settings state.classKey state.names].
  assert (Ea : List.filter (fun k => bool_decide (k ∈ List.map key merged))
                 (state.absentKeys (ui.data u)) = state.absentKeys (ui.data u)).
  { apply filter_all. intros k Hk. apply bool_decide_eq_true_2, Hkeep, Hok, Hk. }
  split; [exact Ea|]. repeat (split; [reflexivity|]). split; [exact Hkeep|].
  intros k Hk. apply list_elem_of_fmap in Hk as (n & -> & Hn).
  apply present_elem in Hn as [Hn Ha].
  destruct (proj1 (list_elem_of_fmap _ _ _) (Hkeep _ (key_elem _ _ Hn))) as (n' & En & Hn').
  rewrite En. apply key_elem, present_elem.
  cbn [state.setNames state.names state.absentKeys].
  rewrite Ea, <- En. split; [exact Hn'|exact Ha].
Qed.

End Outcomes.

Lemma draw_outcome_witness :
  let e := Entropy (fun _ => 3000000000%Z) (fun _ => js "0b7e") 0 in
  let now := js "2024-05-17T09:30:00.000Z" in
  let u := ui.addNames (H := ascii_host) [js "Anna"; js "Bob"; js "Cyril"] (ui.started false e) in
  let present := state.getPresentNames (ui.data u) in
  let index := (rng.index (Z.of_nat (length present)) (ui.crypto u)).1 in
  exists winner,
    present !! Z.to_nat index = Some winner
    /\ ui.draw now u
       = {| ui.data :=
              state.addHistory
                {| hkey := key winner; hts := now;
                   hid := JStr (uuids (ui.crypto u) (S (used (ui.crypto u)))) |}
                (ui.data u);
            ui.rendered :=
              if ToString_throws (state.classKey (ui.data u)) then ui.rendered u
              else state.names (ui.data u);
            ui.currentNames := present;
            ui.spinning := false;
            ui.isDrawing := false;
            ui.lastWinnerKey := Some (key winner);
            ui.isHydrating := ui.isHydrating u;
            ui.currentReduced := ui.currentReduced u;
            ui.locked := false;
            ui.drawBtn_disabled := ui.updateButtons (ui.data u);
            ui.awaiting := None;
            ui.crypto := consume (consume (ui.crypto u)) |}.
Proof.
  intros e now u.
  apply (draw_outcome now u); try reflexivity.
  vm_compute. discriminate.
Defined.

Lemma import_outcome_witness :
  let doc :=
    JObj [(js "version", JNum (to_double 1));
          (js "classKey", JObj [(js "toString", JNull)]);
          (js "names", JArr [JObj [(js "raw", JStr (js "Anna"))];
                             JObj [(js "raw", JStr (js "Bob"))]]);
          (js "history", JArr [JObj [(js "key", JStr (js "bob"));
                                     (js "ts", JStr (js "2024-05-17T09:30:00.000Z"));
                                     (js "id", JStr (js "6f1c"))]])] in
  let u := ui.started false (Entropy (fun _ => 7%Z) (fun _ => js "u") 0) in
  exists p e',
    storage.importPayload (H := ascii_host) (Some doc) (ui.crypto u) = (Ok p, e')
    /\ p_classKey p = JObj [(js "toString", JNull)]
    /\ ui.handleJsonFileChange (H := ascii_host) (Some doc) u
       = ({| ui.data := state.setClassKey (p_classKey p) (ui.data u);
             ui.rendered := ui.rendered u;
             ui.currentNames := ui.currentNames u;
             ui.spinning := ui.spinning u;
             ui.isDrawing := ui.isDrawing u;
             ui.lastWinnerKey :=
               match p_history p with
               | newest :: _ => Some (hkey newest)
               | [] => None
               end;
             ui.isHydrating := true;
             ui.currentReduced := ui.currentReduced u;
             ui.locked := ui.locked u;
             ui.drawBtn_disabled := ui.drawBtn_disabled u;
             ui.awaiting := ui.awaiting u;
             ui.crypto := e' |}, ui.ImportFailed TypeError).
Proof.
  intros doc u. eexists _, _. split; [vm_compute; reflexivity|].
  split; [reflexivity|].
  match goal with
  | |- context [state.setClassKey (p_classKey ?p) _] =>
      exact (import_outcome (H := ascii_host) (Some doc) u p _ eq_refl eq_refl)
  end.
Defined.

Lemma addNames_keeps_marks_witness :
  let e := Entropy (fun _ => 7%Z) (fun _ => js "u") 0 in
  let u := ui.mutate (state.ToggleAbsent (js "bob") true)
             (ui.addNames (H := ascii_host) [js "Anna"; js "Bob"] (ui.started false e)) in
  let d := ui.data u in
  let d' := ui.data (ui.addNames (H := ascii_host) [js "bob"; js "Cyril"] u) in
  state.absentKeys d' = state.absentKeys d
  /\ state.history d' = state.history d
  /\ state.settings d' = state.settings d
  /\ state.classKey d' = state.classKey d
  /\ (forall k, k ∈ List.map key (state.names d) -> k ∈ List.map key (state.names d'))
  /\ (forall k, k ∈ List.map key (state.getPresentNames d) ->
        k ∈ List.map key (state.getPresentNames d')).
Proof.
  intros e u.
  apply (addNames_keeps_marks (H := ascii_host) [js "bob"; js "Cyril"] u).
  intros k Hk. apply list_elem_of_singleton in Hk. subst k.
  apply (bool_decide_unpack _). vm_compute. exact I.
Defined.

(** ** The settings handlers *)

Section SettingsHandlers.
Local Open Scope Z_scope.

(** The sign given to [binary_round_aux] only labels its result. *)
Lemma binary_round_aux_sign (m e : Z) (l : location) :
  binary_round_aux 53 1024 true m e l = SFopp (binary_round_aux 53 1024 false m e l).
Proof.
  unfold binary_round_aux.
  destruct (shr_fexp 53 1024 m e l) as [mrs e1].
  destruct (shr_fexp 53 1024 _ e1 loc_Exact) as [mrs2 e2].
  destruct (shr_m mrs2); [reflexivity| |reflexivity].
  destruct (e2 <=? 1024 - 53); reflexivity.
Qed.

Lemma to_double_opp (p : positive) : to_double (Z.neg p) = SFopp (to_double (Z.pos p)).
Proof.
  unfold to_double, binary_normalize, binary_round.
  destruct (shl_align _ _ _) as [mz ez]. apply binary_round_aux_sign.
Qed.

(** Rounding an integer of more than 53 digits gives an exponent that is at
    least the number of digits dropped, or overflows. *)
Lemma round_dropping (M e s : Z) :
  0 < s -> 2 ^ (52 + s) <= M < 2 ^ (53 + s) -> -1074 <= e + s ->
  match binary_round_aux 53 1024 false M e loc_Exact with
  | S754_infinity false => True
  | S754_finite false w e' => e + s <= e'
  | _ => False
  end.
Proof.
  intros Hs HM He1.
  assert (Hp : 0 < 2 ^ s) by (apply Z.pow_pos_nonneg; lia).
  assert (Hd : Zdigits2 M = 53 + s).
  { apply digits_bounds; [lia| |lia]. replace (53 + s - 1) with (52 + s) by lia. exact HM. }
  assert (Hq : 2 ^ 52 <= M / 2 ^ s < 2 ^ 53).
  { rewrite !Z.pow_add_r in HM by lia. split.
    - apply Z.div_le_lower_bound; lia.
    - apply Z.div_lt_upper_bound; lia. }
  unfold binary_round_aux, shr_fexp. rewrite Hd. unfold fexp, emin.
  replace (Z.max (53 + s + e - 53) (3 - 1024 - 53) - e) with s by lia.
  destruct s as [|p|p]; try lia.
  unfold shr at 1. rewrite iter_pos_nat.
  set (r1 := Nat.iter (Pos.to_nat p) shr_1 (shr_record_of_loc M loc_Exact)).
  assert (Hm1 : shr_m r1 = M / 2 ^ Z.pos p).
  { unfold r1. rewrite shr_n_quotient by (cbn; lia). rewrite positive_nat_Z. reflexivity. }
  pose proof (round_nearest_even_step (shr_m r1) (loc_of_shr_record r1)) as Hr.
  set (w0 := round_nearest_even (shr_m r1) (loc_of_shr_record r1)) in *.
  rewrite Hm1 in Hr.
  destruct (Z.eq_dec w0 (2 ^ 53)) as [E|E].
  - rewrite E. change (Zdigits2 (2 ^ 53)) with 54.
    replace (Z.max (54 + (e + Z.pos p) - 53) (3 - 1024 - 53) - (e + Z.pos p)) with 1 by lia.
    cbn [shr shr_record_of_loc SpecFloat.iter_pos]. change (2 ^ 53) with 9007199254740992.
    cbn [shr_1 shr_m].
    destruct (Z.leb_spec (e + Z.pos p + 1) (1024 - 53)); [lia|exact I].
  - assert (Hw : 2 ^ 52 <= w0 < 2 ^ 53) by lia.
    rewrite (digits_bounds w0 53) by lia.
    replace (Z.max (53 + (e + Z.pos p) - 53) (3 - 1024 - 53) - (e + Z.pos p)) with 0 by lia.
    cbn [shr shr_record_of_loc shr_m].
    destruct w0 as [|w|w]; try lia.
    destruct (Z.leb_spec (e + Z.pos p) (1024 - 53)); [lia|exact I].
Qed.

(** An integer from 2^53 on is a Number with a positive exponent, or
    Infinity. *)
Lemma to_double_big (z : Z) :
  2 ^ 53 <= z ->
  to_double z = S754_infinity false
  \/ exists w e', to_double z = S754_finite false w e' /\ 1 <= e'.
Proof.
  intros Hz.
  assert (Hz0 : 0 < z) by (change (2 ^ 53) with 9007199254740992 in Hz; lia).
  pose proof (log2_digits z Hz0) as Hd. set (d := Z.log2 z + 1) in *.
  assert (Hd54 : 54 <= d).
  { destruct (Z.le_gt_cases 54 d) as [L|G]; [exact L|].
    assert (2 ^ d <= 2 ^ 53) by (apply Z.pow_le_mono_r; lia). lia. }
  destruct z as [|p|p]; try lia.
  unfold to_double, binary_normalize, binary_round.
  rewrite digits2_pos_size, size_log2. fold d.
  unfold fexp, emin, shl_align.
  replace (Z.max (d + 0 - 53) (3 - 1024 - 53) - 0) with (d - 53) by lia.
  destruct (d - 53) as [|q|q] eqn:Eq; try lia.
  pose proof (round_dropping (Z.pos p) 0 (Z.pos q)) as R.
  destruct (binary_round_aux 53 1024 false (Z.pos p) 0 loc_Exact) as [sg|sg| |sg w e'].
  - exfalso. apply R; try lia.
    rewrite <- Eq. replace (52 + (d - 53)) with (d - 1) by lia.
    replace (53 + (d - 53)) with d by lia. exact Hd.
  - destruct sg.
    + exfalso. apply R; try lia.
      rewrite <- Eq. replace (52 + (d - 53)) with (d - 1) by lia.
      replace (53 + (d - 53)) with d by lia. exact Hd.
    + left. reflexivity.
  - exfalso. apply R; try lia.
    rewrite <- Eq. replace (52 + (d - 53)) with (d - 1) by lia.
    replace (53 + (d - 53)) with d by lia. exact Hd.
  - destruct sg.
    + exfalso. apply R; try lia.
      rewrite <- Eq. replace (52 + (d - 53)) with (d - 1) by lia.
      replace (53 + (d - 53)) with d by lia. exact Hd.
    + right. exists w, e'. split; [reflexivity|].
      assert (0 + Z.pos q <= e'); [|lia]. apply R; try lia.
      rewrite <- Eq. replace (52 + (d - 53)) with (d - 1) by lia.
      replace (53 + (d - 53)) with d by lia. exact Hd.
Qed.

(** Comparing the Numbers of two positive integers below 2^53 compares the
    integers. *)
Lemma SFcompare_to_double (a b : Z) :
  0 < a < 2 ^ 53 -> 0 < b < 2 ^ 53 ->
  SFcompare (to_double a) (to_double b) = Some (a ?= b).
Proof.
  intros Ha Hb.
  destruct (to_double_pos a Ha) as [Ea Ba]. destruct (to_double_pos b Hb) as [Eb Bb].
  cbv zeta in *. rewrite Ea, Eb.
  pose proof (log2_digits a ltac:(lia)) as La. pose proof (log2_digits b ltac:(lia)) as Lb.
  set (da := Z.log2 a + 1) in *. set (db := Z.log2 b + 1) in *.
  cbn [SFcompare]. f_equal.
  destruct (Z.compare_spec (da - 53) (db - 53)) as [E|L|G].
  - assert (Ed : da = db) by lia. rewrite Ed.
    rewrite Pos.compare_cont_spec.
    assert (X : forall c, Pos.switch_Eq Eq c = c) by (intros []; reflexivity).
    rewrite X, <- Z2Pos.inj_compare by lia.
    assert (Hp : 0 < 2 ^ (53 - db)).
    { apply Z.pow_pos_nonneg; [lia|].
      destruct (Z.le_gt_cases db 53) as [L|G]; [lia|].
      assert (2 ^ 53 <= 2 ^ (db - 1)) by (apply Z.pow_le_mono_r; lia). lia. }
    symmetry. apply Zmult_compare_compat_r. lia.
  - symmetry. apply Z.compare_lt_iff.
    assert (2 ^ da <= 2 ^ (db - 1)) by (apply Z.pow_le_mono_r; lia). lia.
  - symmetry. apply Z.compare_gt_iff.
    assert (2 ^ db <= 2 ^ (da - 1)) by (apply Z.pow_le_mono_r; lia). lia.
Qed.

(** The clamp of [handleSpinDurationChange] on the Number of an integer, or
    on the negative zero that [parseInt] gives for a text like [-0], is the
    Number of the integer clamped. *)
Lemma clamp_to_double (z : Z) (n : number) :
  n = to_double z \/ (z = 0 /\ n = S754_zero true) ->
  Math_max (to_double 500) (Math_min (to_double 10000) n)
  = to_double (Z.max 500 (Z.min 10000 z)).
Proof.
  intros Hn.
  destruct (Z.lt_trichotomy z 0) as [Hneg|[Hz|Hpos]].
  - (* a negative integer *)
    destruct Hn as [->|[-> _]]; [|lia].
    replace (Z.max 500 (Z.min 10000 z)) with 500 by lia.
    destruct z as [|p|p]; try lia. rewrite to_double_opp.
    destruct (Z.lt_ge_cases (Z.pos p) (2 ^ 53)) as [Hs|Hb].
    + destruct (to_double_pos (Z.pos p) ltac:(lia)) as [E _]. rewrite E. reflexivity.
    + destruct (to_double_big (Z.pos p) Hb) as [E|(w & e' & E & _)]; rewrite E; reflexivity.
  - subst z. destruct Hn as [->|[_ ->]]; reflexivity.
  - destruct Hn as [->|[-> _]]; [|lia].
    destruct (Z.lt_ge_cases z (2 ^ 53)) as [Hs|Hb].
    + assert (C1 : SFcompare (to_double 10000) (to_double z) = Some (10000 ?= z))
        by (apply SFcompare_to_double; [change (2 ^ 53) with 9007199254740992|]; lia).
      unfold Math_min. rewrite C1.
      destruct (Z.compare_spec 10000 z) as [E|L|G].
      * subst z. reflexivity.
      * replace (Z.max 500 (Z.min 10000 z)) with 10000 by lia. reflexivity.
      * assert (C2 : SFcompare (to_double 500) (to_double z) = Some (500 ?= z))
          by (apply SFcompare_to_double; [change (2 ^ 53) with 9007199254740992|]; lia).
        unfold Math_max. rewrite C2.
        destruct (Z.compare_spec 500 z) as [E|L|G'].
        -- subst z. reflexivity.
        -- replace (Z.max 500 (Z.min 10000 z)) with z by lia. reflexivity.
        -- replace (Z.max 500 (Z.min 10000 z)) with 500 by lia. reflexivity.
    + replace (Z.max 500 (Z.min 10000 z)) with 10000
        by (change (2 ^ 53) with 9007199254740992 in Hb; lia).
      destruct (to_double_big z Hb) as [E|(w & e' & E & He)]; rewrite E; [reflexivity|].
      unfold Math_min. change (to_double 10000) with (S754_finite false 5497558138880000 (-39)).
      cbn [SFcompare].
      destruct (Z.compare_spec (-39) e') as [E'|L|G]; try lia. reflexivity.
Qed.

(** What [parseInt] returns: NaN, or the Number of an integer, or the
    negative zero. *)
Lemma Number_parseInt10_integer (value : jsstring) :
  Number_parseInt10 value = S754_nan
  \/ exists z, Number_parseInt10 value = to_double z
               \/ (z = 0 /\ Number_parseInt10 value = S754_zero true).
Proof.
  unfold Number_parseInt10.
  destruct (match drop_while is_space value with
            | [] => (false, [])
            | c :: rest => _
            end) as [negative unsigned].
  cbv zeta. case_bool_decide; [left; reflexivity|]. right.
  destruct (Z.eqb_spec (decimal_value (take_digits unsigned)) 0) as [E|E].
  - exists 0. destruct negative; [right; split; reflexivity|left; reflexivity].
  - eexists. left. reflexivity.
Qed.

Context {H : Host}.

(** X14: The duration the control stores is always an integer number of
    milliseconds from 500 to 10000: a text that [parseInt] does not read as
    a number changes nothing, and any other text sets [spinMs] to the
    integer read, clamped into that range, and leaves the rest of the
    snapshot alone. *)
Theorem handleSpinDurationChange_clamps (value : jsstring) (u : ui.model) :
  let n := Number_parseInt10 value in
  let u' := ui.handleSpinDurationChange value u in
  if Number_isNaN n then u' = u
  else
    exists z,
      (n = to_double z \/ (z = 0 /\ n = S754_zero true))
      /\ state.settings (ui.data u')
         = <[js "spinMs" := JNum (to_double (Z.max 500 (Z.min 10000 z)))]>
             (state.settings (ui.data u))
      /\ 500 <= Z.max 500 (Z.min 10000 z) <= 10000
      /\ state.names (ui.data u') = state.names (ui.data u)
      /\ state.absentKeys (ui.data u') = state.absentKeys (ui.data u)
      /\ state.history (ui.data u') = state.history (ui.data u).
Proof.
  cbv zeta. unfold ui.handleSpinDurationChange. cbv zeta.
  destruct (Number_isNaN (Number_parseInt10 value)) eqn:En; [reflexivity|].
  destruct (Number_parseInt10_integer value) as [E|[z Hz]]; [rewrite E in En; discriminate|].
  exists z. split; [exact Hz|].
  rewrite (clamp_to_double z _ Hz).
  rewrite !mutate_data.
  cbn [ui.data state.apply state.setSettings state.settings state.names
       state.absentKeys state.history].
  split; [|split; [lia|repeat split]].
  unfold spread. symmetry. apply insert_union_singleton_l.
Qed.

(** X15: The theme button switches between dark and light and never selects
    [auto]: the theme after a click is light if it was dark and dark
    otherwise, a third click gives what the first gave, and two clicks give
    the theme back exactly when it was dark or light. *)
Theorem handleThemeToggle_alternates (u : ui.model) :
  let theme v := state.settings (ui.data v) !! js "theme" in
  let dark v :=
    match theme v with
    | Some (JStr t) => bool_decide (t = js "dark")
    | _ => false
    end in
  let u1 := ui.handleThemeToggle u in
  let u2 := ui.handleThemeToggle u1 in
  let u3 := ui.handleThemeToggle u2 in
  theme u1 = Some (JStr (if dark u then js "light" else js "dark"))
  /\ theme u3 = theme u1
  /\ (theme u2 = theme u
      <-> theme u = Some (JStr (js "dark")) \/ theme u = Some (JStr (js "light")))
  /\ (forall k, k <> js "theme" ->
        state.settings (ui.data u1) !! k = state.settings (ui.data u) !! k).
Proof.
  cbv zeta.
  assert (Hset : forall v next,
            state.settings (ui.data (ui.mutate
              (state.SetSettings {[js "theme" := JStr next]}) v)) !! js "theme"
            = Some (JStr next)).
  { intros v next.
    rewrite ?mutate_data. cbn [ui.data state.apply state.setSettings state.settings state.names
       state.absentKeys state.history].
    unfold spread. rewrite <- insert_union_singleton_l. apply lookup_insert_eq. }
  assert (Hstep : forall v,
            state.settings (ui.data (ui.handleThemeToggle v)) !! js "theme"
            = Some (JStr (if match state.settings (ui.data v) !! js "theme" with
                             | Some (JStr t) => bool_decide (t = js "dark")
                             | _ => false
                             end
                          then js "light" else js "dark"))).
  { intros v. unfold ui.handleThemeToggle. cbv zeta. rewrite Hset.
    destruct (state.settings (ui.data v) !! js "theme") as [[| | |t| |]|]; reflexivity. }
  split; [apply Hstep|]. split; [|split].
  - rewrite !Hstep.
    destruct (state.settings (ui.data u) !! js "theme") as [[| | |t| |]|]; try reflexivity.
    destruct (bool_decide (t = js "dark")); reflexivity.
  - rewrite !Hstep.
    destruct (state.settings (ui.data u) !! js "theme") as [[| | |t| |]|];
      try (split; [discriminate|intros [E|E]; discriminate]).
    destruct (decide (t = js "dark")) as [->|Hd].
    + split; [tauto|reflexivity].
    + rewrite (bool_decide_eq_false_2 (t = js "dark")) by exact Hd.
      rewrite (bool_decide_eq_true_2 (js "dark" = js "dark")) by reflexivity.
      split; [intros [= <-]; tauto|]. intros [[= E]|[= E]]; [contradiction|]. rewrite E. reflexivity.
  - intros k Hk. unfold ui.handleThemeToggle. cbv zeta.
    rewrite ?mutate_data. cbn [ui.data state.apply state.setSettings state.settings state.names
       state.absentKeys state.history].
    unfold spread. rewrite <- insert_union_singleton_l. apply lookup_insert_ne. congruence.
Qed.

End SettingsHandlers.

(** ** The image filter *)

Section ImageFilter.
Local Open Scope Z_scope.

(** The mean of three bytes is above 140 exactly when their sum is above
    420: the division by 3 in binary64 does not move a sum across the
    threshold. *)
Lemma threshold_sum (r g b : Z) :
  0 <= r <= 255 -> 0 <= g <= 255 -> 0 <= b <= 255 ->
  ui.threshold r g b = if 420 <? r + g + b then 255 else 0.
Proof.
  intros Hr Hg Hb. unfold ui.threshold. cbv zeta.
  set (s := r + g + b). assert (Hs : 0 <= s <= 765) by (unfold s; lia).
  clearbody s. clear -Hs.
  assert (Hall : forallb (fun n =>
                   Z.eqb (if number_gtb (SFdiv 53 1024 (to_double (Z.of_nat n)) (to_double 3))
                               (to_double 140) then 255 else 0)
                         (if 420 <? Z.of_nat n then 255 else 0))
                   (seq 0 766) = true) by (vm_compute; reflexivity).
  rewrite forallb_forall in Hall.
  specialize (Hall (Z.to_nat s)). rewrite Z2Nat.id in Hall by lia.
  apply Z.eqb_eq, Hall. apply in_seq. lia.
Qed.

Lemma threshold_fixed (r g b : Z) :
  ui.threshold (ui.threshold r g b) (ui.threshold r g b) (ui.threshold r g b)
  = ui.threshold r g b.
Proof.
  assert (Hv : ui.threshold r g b = 255 \/ ui.threshold r g b = 0)
    by (unfold ui.threshold; cbv zeta; destruct (number_gtb _ _); auto).
  destruct Hv as [-> | ->]; vm_compute; reflexivity.
Qed.

Lemma preprocessImage_shape (n : nat) (data : list Z) :
  (length data <= n)%nat ->
  length (ui.preprocessImage data) = length data
  /\ ui.preprocessImage (ui.preprocessImage data) = ui.preprocessImage data.
Proof.
  revert data. induction n as [|n IH]; intros data Hn.
  - destruct data; [split; reflexivity|cbn in Hn; lia].
  - destruct data as [|r [|g [|b [|a rest]]]]; try (split; reflexivity).
    + cbn [ui.preprocessImage]. split; [reflexivity|].
      rewrite threshold_fixed. reflexivity.
    + destruct (IH rest ltac:(cbn in Hn; lia)) as [IHl IHi].
      cbn [ui.preprocessImage length]. split; [rewrite IHl; reflexivity|].
      rewrite threshold_fixed, IHi. reflexivity.
Qed.

(** X16: The filter turns every pixel black or white and is a projection: the
    data keep their length; a pixel whose red, green and blue bytes sum to
    more than 420 (a mean above 140) becomes 255, 255, 255 and any other
    becomes 0, 0, 0, with its alpha byte kept; and filtering the filtered
    data changes nothing. *)
Theorem preprocessImage_binarizes (data : list Z) :
  length (ui.preprocessImage data) = length data
  /\ ui.preprocessImage (ui.preprocessImage data) = ui.preprocessImage data
  /\ (forall r g b a rest,
        0 <= r <= 255 -> 0 <= g <= 255 -> 0 <= b <= 255 ->
        let value := if 420 <? r + g + b then 255 else 0 in
        ui.preprocessImage (r :: g :: b :: a :: rest)
        = value :: value :: value :: a :: ui.preprocessImage rest).
Proof.
  destruct (preprocessImage_shape (length data) data (le_n _)) as [Hl Hi].
  split; [exact Hl|]. split; [exact Hi|].
  intros r g b a rest Hr Hg Hb. cbv zeta. cbn [ui.preprocessImage].
  rewrite threshold_sum by assumption. reflexivity.
Qed.

End ImageFilter.

(** ** The guards of a draw, over every listener *)

Section DrawGuards.
Context {H : Host}.

(** X17: While a draw is awaited with the wheel turning, no listener but the end
    of the animation touches it: after any other event the same draw, with
    the same index, is still awaited, the wheel still turns and the page is
    still locked; and a further draw request, by the button or by a key,
    changes nothing at all, not even [crypto]. *)
Theorem running_draw_undisturbed (ev : ui.event) (u : ui.model) (i : Z) :
  ui.awaiting u = Some (ui.InTransition i) -> ui.isDrawing u = true ->
  match ev with ui.WheelTransitionEnd _ => False | _ => True end ->
  let u' := ui.dispatch ev u in
  ui.awaiting u' = Some (ui.InTransition i)
  /\ ui.isDrawing u' = true
  /\ ui.spinning u' = ui.spinning u
  /\ ui.locked u' = ui.locked u
  /\ match ev with
     | ui.DrawClick _ | ui.DrawKey _ => u' = u
     | _ => True
     end.
Proof.
  intros Ea Ei Hev. cbv zeta.
  assert (Hdraw : ui.handleDraw u = u)
    by (apply handleDraw_in_progress; rewrite Ei; reflexivity).
  assert (Hres : forall now, ui.resume now u = u)
    by (intros now; unfold ui.resume; rewrite Ea; reflexivity).
  assert (Hmut : forall o v,
            ui.awaiting v = ui.awaiting u -> ui.isDrawing v = ui.isDrawing u ->
            ui.spinning v = ui.spinning u -> ui.locked v = ui.locked u ->
            ui.awaiting (ui.mutate o v) = Some (ui.InTransition i)
            /\ ui.isDrawing (ui.mutate o v) = true
            /\ ui.spinning (ui.mutate o v) = ui.spinning u
            /\ ui.locked (ui.mutate o v) = ui.locked u
            /\ True).
  { intros o v Eav Eiv Esv Elv. unfold ui.mutate.
    destruct (notify_flags (ui.with_data (state.apply o (ui.data v)) v))
      as (A & B & C & D & _).
    rewrite A, B, C, D. cbn [ui.with_data ui.awaiting ui.isDrawing ui.spinning ui.locked].
    rewrite Eav, Eiv, Esv, Elv, Ea, Ei. auto. }
  destruct ev as [value|text|j checked|parsed|now|now|now| |value|value|value| |b];
    cbn [ui.dispatch]; try contradiction.
  - unfold ui.addNamesFromInput, ui.addNames. case_bool_decide; [auto|].
    destruct (utils.mergeNames _ _ (ui.crypto u)) as [merged e']. apply Hmut; reflexivity.
  - unfold ui.addNames. case_bool_decide; [auto|].
    destruct (utils.mergeNames _ _ (ui.crypto u)) as [merged e']. apply Hmut; reflexivity.
  - unfold ui.handleAbsentToggle.
    destruct (ui.rendered u !! j) as [n|]; cbn [fmap option_fmap option_map]; [|auto].
    case_bool_decide; [auto|]. apply Hmut; reflexivity.
  - unfold ui.handleJsonFileChange.
    destruct (storage.importPayload parsed (ui.crypto u)) as [[p|err] e']; cbv zeta;
      [|cbn; auto].
    set (u1 := ui.Model _ _ _ _ _ _ _ _ _ _ _ _).
    pose proof (Hmut (state.SetClassKey (p_classKey p)) u1
                  eq_refl eq_refl eq_refl eq_refl) as (A2 & B2 & C2 & D2 & _).
    set (u2 := ui.mutate (state.SetClassKey (p_classKey p)) u1) in *.
    destruct (ui.notify_throws (ui.data u2)); cbn [fst]; [auto|].
    pose proof (Hmut (state.UpdateFromStorage p) u2
                  ltac:(congruence) ltac:(congruence) C2 D2) as H3.
    destruct (ui.notify_throws _); cbn [fst]; [exact H3|].
    unfold ui.set_hydrating. cbn [ui.awaiting ui.isDrawing ui.spinning ui.locked].
    exact H3.
  - unfold ui.click_drawBtn. destruct (ui.drawBtn_disabled u); rewrite ?Hdraw, Hres; auto.
  - unfold ui.keydown_Enter. rewrite Hdraw, Hres. auto.
  - unfold ui.handleResetHistory. apply Hmut; reflexivity.
  - unfold ui.handleSpinDurationChange. cbv zeta. destruct (Number_isNaN _); [auto|].
    apply Hmut; reflexivity.
  - unfold ui.handleMotionModeChange. apply Hmut; reflexivity.
  - unfold ui.handleThemeModeChange. apply Hmut; reflexivity.
  - unfold ui.handleThemeToggle. cbv zeta. apply Hmut; reflexivity.
  - cbn. auto.
Qed.

(** X18: In every state the page can reach in which the class key has a
    string, a click on the draw button with fewer than two names present
    does nothing: the button is disabled, or a draw is running and the
    request is dropped.  (With a class key that has no string the button is
    no longer brought up to date, and stays as it was.) *)
Theorem click_needs_two_present (evs : list ui.event) (reduced : bool) (e : entropy) :
  let u := ui.events evs (ui.started reduced e) in
  ToString_throws (state.classKey (ui.data u)) = false ->
  length (state.getPresentNames (ui.data u)) < 2 -> ui.click_drawBtn u = u.
Proof.
  cbv zeta. intros Et Hlen.
  destruct (events_ok evs reduced e) as (_ & _ & Hf & _ & Hd).
  destruct (Hd Et) as (_ & _ & _ & Hb).
  unfold ui.draw_flags_ok in Hf.
  destruct (ui.awaiting _) as [[sel|i]|]; [contradiction| |].
  - destruct Hf as (Ei & _). unfold ui.click_drawBtn.
    destruct (ui.drawBtn_disabled _); [reflexivity|].
    apply handleDraw_in_progress. rewrite Ei. reflexivity.
  - apply click_drawBtn_below_two; [apply Hb; reflexivity|exact Hlen].
Qed.

(** X19: The motion mode decides whether the next draw is animated: with
    the wheel holding the present names, once the mode is [on] a draw
    resolves at once with the wheel at rest, once it is [off] the wheel
    turns, and with any other value the preference of the system decides. *)
Theorem motion_mode_decides_animation (value : jsstring) (u : ui.model) :
  ui.isDrawing u = false -> ui.spinning u = false ->
  ui.currentNames u = state.getPresentNames (ui.data u) ->
  state.getPresentNames (ui.data u) <> [] ->
  let reduce :=
    if bool_decide (value = js "on") then true
    else if bool_decide (value = js "off") then false
    else ui.currentReduced u in
  let u1 := ui.handleMotionModeChange value u in
  let u2 := ui.handleDraw u1 in
  ui.shouldReduceMotion (state.settings (ui.data u1)) u1 = reduce
  /\ ui.spinning u2 = negb reduce
  /\ ui.isDrawing u2 = true
  /\ match ui.awaiting u2 with
     | Some (ui.Resolved _) => reduce = true
     | Some (ui.InTransition _) => reduce = false
     | None => False
     end.
Proof.
  intros Ei Es Ec Hne. cbv zeta.
  set (u1 := ui.handleMotionModeChange value u).
  assert (Ed : ui.data u1
               = state.setSettings {[ js "reducedMotionMode" := JStr value ]} (ui.data u))
    by apply mutate_data.
  assert (Hfl : ui.isDrawing u1 = ui.isDrawing u /\ ui.spinning u1 = ui.spinning u
                /\ ui.currentReduced u1 = ui.currentReduced u).
  { unfold u1, ui.handleMotionModeChange, ui.mutate, ui.notify.
    destruct (ToString_throws _); repeat split. }
  destruct Hfl as (Ei1 & Es1 & Er1).
  assert (Ep1 : state.getPresentNames (ui.data u1) = state.getPresentNames (ui.data u))
    by (rewrite Ed; reflexivity).
  assert (Ec1 : ui.currentNames u1 = state.getPresentNames (ui.data u)).
  { unfold u1, ui.handleMotionModeChange, ui.mutate, ui.notify.
    destruct (ToString_throws _); [exact Ec|].
    cbn [ui.currentNames ui.with_data ui.data].
    destruct (ui.updateSettings_throws _); [exact Ec|reflexivity]. }
  assert (Er : ui.shouldReduceMotion (state.settings (ui.data u1)) u1
               = if bool_decide (value = js "on") then true
                 else if bool_decide (value = js "off") then false
                 else ui.currentReduced u).
  { unfold ui.shouldReduceMotion. rewrite Ed, Er1.
    cbn [state.setSettings state.settings].
    unfold spread. rewrite <- insert_union_singleton_l, lookup_insert_eq. reflexivity. }
  split; [exact Er|].
  unfold ui.handleDraw.
  rewrite Ei1, Es1, Ei, Es. cbn [orb]. rewrite Ep1.
  destruct (state.getPresentNames (ui.data u)) as [|n present] eqn:Ep; [contradiction|].
  cbn [length Nat.eqb].
  destruct (rng.index _ (ui.crypto u1)) as [index e'].
  change (ui.shouldReduceMotion (state.settings (ui.data u1)) (ui.lockInteractions true u1))
    with (ui.shouldReduceMotion (state.settings (ui.data u1)) u1).
  rewrite Er. unfold ui.spinTo.
  cbn [ui.lockInteractions ui.currentNames ui.spinning].
  rewrite Ec1, Es1, Es. rewrite bool_decide_eq_false_2 by discriminate.
  destruct (if bool_decide (value = js "on") then true
            else if bool_decide (value = js "off") then false
            else ui.currentReduced u); cbn; auto.
Qed.

End DrawGuards.

Lemma running_draw_undisturbed_witness :
  let e := Entropy (fun _ => 3000000000%Z) (fun _ => js "0b7e") 0 in
  let u := ui.events (H := ascii_host)
             [ui.AddNamesClick (js "Anna" ++ 10%N :: js "Bob");
              ui.DrawKey (js "2024-05-17T09:30:00.000Z")]
             (ui.started false e) in
  let u' := ui.dispatch (H := ascii_host) (ui.DrawClick (js "2024-05-17T09:30:01.000Z")) u in
  ui.awaiting u' = Some (ui.InTransition 1)
  /\ ui.isDrawing u' = true
  /\ ui.spinning u' = ui.spinning u
  /\ ui.locked u' = ui.locked u
  /\ u' = u.
Proof.
  intros e u.
  apply (running_draw_undisturbed (H := ascii_host)
           (ui.DrawClick (js "2024-05-17T09:30:01.000Z")) u 1);
    [vm_compute; reflexivity|reflexivity|exact I].
Defined.

Lemma click_needs_two_present_witness :
  let e := Entropy (fun _ => 3000000000%Z) (fun _ => js "0b7e") 0 in
  let u := ui.events (H := ascii_host)
             [ui.AddNamesClick (js "Anna"); ui.ThemeToggleClick] (ui.started false e) in
  ToString_throws (state.classKey (ui.data u)) = false
  /\ length (state.getPresentNames (ui.data u)) = 1 /\ ui.click_drawBtn u = u.
Proof.
  intros e u. split; [reflexivity|]. split; [reflexivity|].
  apply (click_needs_two_present (H := ascii_host)
           [ui.AddNamesClick (js "Anna"); ui.ThemeToggleClick] false e).
  - reflexivity.
  - vm_compute. lia.
Defined.

Lemma motion_mode_decides_animation_witness :
  let e := Entropy (fun _ => 3000000000%Z) (fun _ => js "0b7e") 0 in
  let u := ui.addNames (H := ascii_host) [js "Anna"; js "Bob"] (ui.started false e) in
  let u1 := ui.handleMotionModeChange (js "on") u in
  let u2 := ui.handleDraw u1 in
  ui.shouldReduceMotion (state.settings (ui.data u1)) u1 = true
  /\ ui.spinning u2 = false
  /\ ui.isDrawing u2 = true
  /\ match ui.awaiting u2 with
     | Some (ui.Resolved _) => true = true
     | Some (ui.InTransition _) => true = false
     | None => False
     end.
Proof.
  intros e u.
  apply (motion_mode_decides_animation (js "on") u);
    [reflexivity|reflexivity|reflexivity|].
  vm_compute. discriminate.
Defined.
